(** * Ingestion pipelines and KPI engines of the customer/order analytics
      application: a shallow embedding and its verification

    The development follows the layout of the repository:

    - [Py], [Datetime]   the pieces of the Python run time the code relies
                         on: truthiness, [str], [strip], the character
                         classes of [re], [datetime.strptime];
    - [Validators]       [src/utils/validators.py];
    - [Customer], [Order], [Rel], [Sql]
                         the two tables and the meaning of the queries that
                         the code sends as SQL text;
    - [Db]               [src/database/db_manager.py] over a store;
    - [CsvLoader]        [src/ingestion/csv_loader.py];
    - [XmlLoader]        [src/ingestion/xml_loader.py];
    - [BaseKpi], [TableKpis]
                         [src/kpis/base_kpi.py], [src/kpis/table_based_kpis.py];
    - [Pandas], [MemoryKpis]
                         [src/kpis/memory_based_kpis.py] and the data-frame
                         operations it calls.

    The modules whose names end in [Facts] hold the lemmas, those whose
    names end in [Claims] the statements C1 to C10.

    Conventions.  A Python [str] is a Rocq [string] read as a sequence of
    code points below 256.  Decimal amounts are integers counting the
    smallest currency unit, so that sums are exact; averages are rationals.
    Strings compare exactly, in the store as in Python.  Data frames are
    those of pandas before version 3, where text columns have dtype
    [object].  The clock stands still during a call.  Log calls have no
    effect on any result and are left out. *)

From Stdlib Require Import String Ascii List ZArith QArith Lia Bool.
From Stdlib Require Import DecimalString Permutation Sorted.
Import ListNotations.

Local Open Scope string_scope.
Local Open Scope Z_scope.

(** * Python run-time primitives *)

Module Py.

(** Scalar values that reach the validators: [None], a missing cell of a
    data frame (NaN), an integer and a string. *)
Inductive pyval : Type :=
| PNone
| PNaN
| PInt (z : Z)
| PStr (s : string).

Definition dec (z : Z) : string := NilZero.string_of_int (Z.to_int z).

(** [bool(v)]: [None], [0] and the empty string are false, NaN is true. *)
Definition truthy (v : pyval) : bool :=
  match v with
  | PNone => false
  | PNaN => true
  | PInt z => negb (z =? 0)
  | PStr s => negb (s =? "")%string
  end.

(** [str(v)] *)
Definition str (v : pyval) : string :=
  match v with
  | PNone => "None"
  | PNaN => "nan"
  | PInt z => dec z
  | PStr s => s
  end.

Definition code (c : ascii) : nat := nat_of_ascii c.

Definition between (lo hi : nat) (c : ascii) : bool :=
  (Nat.leb lo (code c) && Nat.leb (code c) hi)%bool.

(** [str.isspace] on code points below 256; also the class [\s] of [re]. *)
Definition is_space (c : ascii) : bool :=
  (between 9 13 c || between 28 32 c
   || Nat.eqb (code c) 133 || Nat.eqb (code c) 160)%bool.

(** The class [\d] of [re] on code points below 256. *)
Definition is_digit (c : ascii) : bool := between 48 57 c.

Fixpoint lstrip (s : string) : string :=
  match s with
  | String c s' => if is_space c then lstrip s' else s
  | EmptyString => EmptyString
  end.

Fixpoint rstrip (s : string) : string :=
  match s with
  | String c s' =>
      match rstrip s' with
      | EmptyString => if is_space c then EmptyString else String c EmptyString
      | r => String c r
      end
  | EmptyString => EmptyString
  end.

(** [s.strip()] *)
Definition strip (s : string) : string := rstrip (lstrip s).

(** [re.sub('[^...]', '', s)]: the characters of the class are kept. *)
Fixpoint keep (p : ascii -> bool) (s : string) : string :=
  match s with
  | String c s' => if p c then String c (keep p s') else keep p s'
  | EmptyString => EmptyString
  end.

Definition len (s : string) : Z := Z.of_nat (String.length s).

(** [sep.join(l)] *)
Fixpoint join (sep : string) (l : list string) : string :=
  match l with
  | [] => ""
  | [x] => x
  | x :: rest => x ++ sep ++ join sep rest
  end.

(** Value of a run of decimal digits; other characters (the blank that
    [%d] may match) are skipped, as [int()] skips leading blanks. *)
Definition int_of_digits (s : string) : Z :=
  (fix go (acc : Z) (s : string) : Z :=
     match s with
     | String c s' =>
         if is_digit c then go (10 * acc + Z.of_nat (code c - 48)) s'
         else go acc s'
     | EmptyString => acc
     end) 0 s.

End Py.

(** * [datetime.strptime] for the directives the validator uses *)

Module Datetime.
Import Py.

Record datetime : Type := mkDatetime
  { year : Z; month : Z; day : Z; hour : Z; minute : Z; second : Z }.

(** One item of a format string: a directive, a literal character, or a
    run of white space (which [_strptime] turns into [\s+]). *)
Inductive directive : Type :=
| DY | Dm | Dd | DH | DM | DS
| Lit (c : ascii)
| Blank.

Definition format : Type := list directive.

Definition cls : Type := ascii -> bool.
Definition one (a : ascii) : cls := Ascii.eqb a.
Definition rng (lo hi : ascii) : cls := between (code lo) (code hi).

(** Letters compare without case, as the pattern is compiled with
    [IGNORECASE]. *)
Definition lower (c : ascii) : ascii :=
  if (between 65 90 c || between 192 214 c || between 216 222 c)%bool
  then ascii_of_nat (code c + 32) else c.
Definition nocase (a : ascii) : cls := fun c => Ascii.eqb (lower a) (lower c).

(** The regular expression of each directive, as the ordered list of its
    alternatives; an alternative is a sequence of character classes.
      %Y  \d\d\d\d
      %m  1[0-2]|0[1-9]|[1-9]
      %d  3[0-1]|[1-2]\d|0[1-9]|[1-9]| [1-9]
      %H  2[0-3]|[0-1]\d|\d
      %M  [0-5]\d|\d
      %S  6[0-1]|[0-5]\d|\d *)
Definition alternatives (d : directive) : list (list cls) :=
  match d with
  | DY => [[is_digit; is_digit; is_digit; is_digit]]
  | Dm => [[one "1"; rng "0" "2"]; [one "0"; rng "1" "9"]; [rng "1" "9"]]
  | Dd => [[one "3"; rng "0" "1"]; [rng "1" "2"; is_digit];
           [one "0"; rng "1" "9"]; [rng "1" "9"]; [one " "; rng "1" "9"]]
  | DH => [[one "2"; rng "0" "3"]; [rng "0" "1"; is_digit]; [is_digit]]
  | DM => [[rng "0" "5"; is_digit]; [is_digit]]
  | DS => [[one "6"; rng "0" "1"]; [rng "0" "5"; is_digit]; [is_digit]]
  | Lit c => [[nocase c]]
  | Blank => []
  end.

(** Match a sequence of classes at the head of [s]: matched text and rest. *)
Fixpoint take (cs : list cls) (s : string) : option (string * string) :=
  match cs with
  | [] => Some (EmptyString, s)
  | c :: cs' =>
      match s with
      | String a s' =>
          if c a then
            match take cs' s' with
            | Some (m, r) => Some (String a m, r)
            | None => None
            end
          else None
      | EmptyString => None
      end
  end.

(** [\s+], greedy: the longest run first, then shorter ones. *)
Fixpoint blanks (s : string) : list (string * string) :=
  match s with
  | String a s' =>
      if is_space a then
        map (fun mr => (String a (fst mr), snd mr)) (blanks s')
            ++ [(String a EmptyString, s')]
      else []
  | EmptyString => []
  end.

(** The ways an item can match at the head of [s], in the order in which a
    backtracking matcher tries them. *)
Definition candidates (d : directive) (s : string) : list (string * string) :=
  match d with
  | Blank => blanks s
  | _ => flat_map (fun alt => match take alt s with
                              | Some mr => [mr]
                              | None => []
                              end) (alternatives d)
  end.

Definition found : Type := list (directive * string).

Fixpoint first_some {A B : Type} (f : A -> option B) (l : list A) : option B :=
  match l with
  | [] => None
  | x :: rest => match f x with
                 | Some y => Some y
                 | None => first_some f rest
                 end
  end.

(** [format_regex.match(data_string)]: the first match in backtracking
    order, with the unconsumed rest of the input. *)
Fixpoint re_match (fmt : format) (s : string) : option (found * string) :=
  match fmt with
  | [] => Some ([], s)
  | d :: fmt' =>
      first_some
        (fun mr => match re_match fmt' (snd mr) with
                   | Some (fd, rest) => Some ((d, fst mr) :: fd, rest)
                   | None => None
                   end)
        (candidates d s)
  end.

(** Defaults of [_strptime]: 1900-01-01 00:00:00. *)
Definition epoch : datetime := mkDatetime 1900 1 1 0 0 0.

Definition set_field (dt : datetime) (f : directive * string) : datetime :=
  let v := int_of_digits (snd f) in
  match fst f with
  | DY => mkDatetime v (month dt) (day dt) (hour dt) (minute dt) (second dt)
  | Dm => mkDatetime (year dt) v (day dt) (hour dt) (minute dt) (second dt)
  | Dd => mkDatetime (year dt) (month dt) v (hour dt) (minute dt) (second dt)
  | DH => mkDatetime (year dt) (month dt) (day dt) v (minute dt) (second dt)
  | DM => mkDatetime (year dt) (month dt) (day dt) (hour dt) v (second dt)
  | DS => mkDatetime (year dt) (month dt) (day dt) (hour dt) (minute dt) v
  | Lit _ | Blank => dt
  end.

Definition is_leap (y : Z) : bool :=
  ((y mod 4 =? 0) && (negb (y mod 100 =? 0) || (y mod 400 =? 0)))%bool.

Definition days_in_month (y m : Z) : Z :=
  if m =? 2 then (if is_leap y then 29 else 28)
  else if (m =? 4) || (m =? 6) || (m =? 9) || (m =? 11) then 30
  else 31.

(** The range checks of the [datetime] constructor. *)
Definition valid (dt : datetime) : bool :=
  ((1 <=? year dt) && (year dt <=? 9999)
   && (1 <=? month dt) && (month dt <=? 12)
   && (1 <=? day dt) && (day dt <=? days_in_month (year dt) (month dt))
   && (0 <=? hour dt) && (hour dt <=? 23)
   && (0 <=? minute dt) && (minute dt <=? 59)
   && (0 <=? second dt) && (second dt <=? 59))%bool.

(** [datetime.strptime(s, fmt)]; [None] stands for [ValueError]: no match,
    unconverted data left over, or a field out of range. *)
Definition strptime (s : string) (fmt : format) : option datetime :=
  match re_match fmt s with
  | Some (fd, EmptyString) =>
      let dt := fold_left set_field fd epoch in
      if valid dt then Some dt else None
  | _ => None
  end.

(** Seconds since 1970-01-01, for comparing and shifting instants. *)
Definition days_from_civil (y m d : Z) : Z :=
  let y' := if m <=? 2 then y - 1 else y in
  let era := y' / 400 in
  let yoe := y' - era * 400 in
  let mp := if m <=? 2 then m + 9 else m - 3 in
  let doy := (153 * mp + 2) / 5 + d - 1 in
  let doe := yoe * 365 + yoe / 4 - yoe / 100 + doy in
  era * 146097 + doe - 719468.

Definition timestamp (dt : datetime) : Z :=
  days_from_civil (year dt) (month dt) (day dt) * 86400
  + hour dt * 3600 + minute dt * 60 + second dt.

Definition pad (width : nat) (z : Z) : string :=
  let s := dec z in
  (fix zeros (n : nat) : string :=
     match n with O => s | S n' => String "0" (zeros n') end)
    (width - String.length s)%nat.

(** [DATE_FORMAT(t, '%Y-%m')], and [t.to_period('M')] printed. *)
Definition month_year (dt : datetime) : string :=
  pad 4 (year dt) ++ "-" ++ pad 2 (month dt).

Definition hms (dt : datetime) : string :=
  pad 2 (hour dt) ++ ":" ++ pad 2 (minute dt) ++ ":" ++ pad 2 (second dt).

Definition ymd (dt : datetime) : string :=
  pad 4 (year dt) ++ "-" ++ pad 2 (month dt) ++ "-" ++ pad 2 (day dt).

(** [dt.isoformat()] and [str(dt)], for an instant without microseconds. *)
Definition isoformat (dt : datetime) : string := ymd dt ++ "T" ++ hms dt.
Definition to_str (dt : datetime) : string := ymd dt ++ " " ++ hms dt.

End Datetime.

(** * [src/utils/validators.py] *)

(** [float()] and [int()] of the Python run time, and the conversion of a
    float to the store's decimal column.  The loaders are stated over any
    implementation of this interface. *)
Class Numeric : Type :=
  { pyfloat : Type;
    float_of : Py.pyval -> option pyfloat;   (* [None]: ValueError, TypeError *)
    float_gt0 : pyfloat -> bool;             (* [x > 0] *)
    float_ge0 : pyfloat -> bool;             (* [x >= 0] *)
    int_of : Py.pyval -> option Z;           (* [None]: ValueError, TypeError *)
    decimal_of : pyfloat -> Z }.

Module Validators.
Import Py Datetime.

Definition validate_mobile_number (mobile : pyval) : bool :=
  if negb (truthy mobile) then false
  else
    let cleaned := keep is_digit (strip (str mobile)) in
    ((8 <=? len cleaned) && (len cleaned <=? 15))%bool.

Definition validate_positive_number `{Numeric} (value : pyval) : bool :=
  match float_of value with
  | Some x => float_gt0 x
  | None => false
  end.

Definition validate_non_negative_number `{Numeric} (value : pyval) : bool :=
  match float_of value with
  | Some x => float_ge0 x
  | None => false
  end.

(** '%Y-%m-%dT%H:%M:%S' *)
Definition fmt_iso : format :=
  [DY; Lit "-"; Dm; Lit "-"; Dd; Lit "T"; DH; Lit ":"; DM; Lit ":"; DS].
(** '%Y-%m-%d %H:%M:%S' *)
Definition fmt_ymd_hms : format :=
  [DY; Lit "-"; Dm; Lit "-"; Dd; Blank; DH; Lit ":"; DM; Lit ":"; DS].
(** '%Y-%m-%d' *)
Definition fmt_ymd : format := [DY; Lit "-"; Dm; Lit "-"; Dd].
(** '%d-%m-%Y' *)
Definition fmt_dmy_dash : format := [Dd; Lit "-"; Dm; Lit "-"; DY].
(** '%d/%m/%Y' *)
Definition fmt_dmy_slash : format := [Dd; Lit "/"; Dm; Lit "/"; DY].

Definition default_formats : list format :=
  [fmt_iso; fmt_ymd_hms; fmt_ymd; fmt_dmy_dash; fmt_dmy_slash].

(** The loop [for fmt in formats: try: return strptime(...) except
    ValueError: continue], falling through to [return None]. *)
Fixpoint try_formats (s : string) (formats : list format) : option datetime :=
  match formats with
  | [] => None
  | fmt :: rest =>
      match strptime s fmt with
      | Some dt => Some dt
      | None => try_formats s rest
      end
  end.

Definition validate_datetime (dt_string : pyval) (fmt : option format)
  : option datetime :=
  if negb (truthy dt_string) then None
  else
    let formats := match fmt with
                   | Some ((_ :: _) as f) => [f]
                   | _ => default_formats
                   end in
    try_formats (strip (str dt_string)) formats.

Definition normalize_mobile_number (mobile : pyval) : option string :=
  if negb (truthy mobile) then None
  else
    (* Remove all non-digit characters except + *)
    let cleaned :=
      keep (fun c => is_digit c || Ascii.eqb c "+")%bool (strip (str mobile)) in
    if (cleaned =? "")%string then None
    else
      (* Basic validation: should have at least 8 digits *)
      let digit_count := len (keep is_digit cleaned) in
      if digit_count <? 8 then None else Some cleaned.

Definition validate_string (value : pyval) (min_length max_length : Z) : bool :=
  if negb (truthy value) then false
  else
    let str_value := strip (str value) in
    ((min_length <=? len str_value) && (len str_value <=? max_length))%bool.

End Validators.

(** * The two tables of the store *)

Module Customer.
(** Modelled from the spec: the schema of the store, whose definition is
    not among the sources.  Table
    [customers(customer_id PK, customer_name, mobile_number, region,
    created_at, updated_at)]; every column but the key may hold NULL
    ([None]); the time stamps, which the store maintains and no computation
    reads, are left out. *)
Record t : Type := make
  { customer_id : string;
    customer_name : option string;
    mobile_number : option string;
    region : option string }.
End Customer.

Module Order.
(** Modelled from the spec: the schema of the store, whose definition is
    not among the sources.  Table
    [orders(order_id PK, mobile_number, order_date_time, sku_id, sku_count,
    total_amount)]; every column but the key may hold NULL ([None]). *)
Record t : Type := make
  { order_id : string;
    mobile_number : option string;
    order_date_time : option Datetime.datetime;
    sku_id : option string;
    sku_count : option Z;
    total_amount : option Z }.
End Order.

(** * Lists as relations: the operators shared by the query semantics and by
      the data-frame operations *)

Module Rel.

Section Generic.
Context {A B K : Type}.

(** [a JOIN b ON on]: every pair that satisfies the condition, in the
    order of the left operand. *)
Definition inner_join (on : A -> B -> bool) (l : list A) (r : list B)
  : list (A * B) :=
  flat_map (fun a => map (pair a) (filter (on a) r)) l.

(** [a LEFT JOIN b ON on]: a left row without partner is kept once, with
    an all-NULL right side. *)
Definition left_join (on : A -> B -> bool) (l : list A) (r : list B)
  : list (A * option B) :=
  flat_map (fun a => match filter (on a) r with
                     | [] => [(a, None)]
                     | m => map (fun b => (a, Some b)) m
                     end) l.

(** Distinct values, each at its first occurrence. *)
Fixpoint distinct (eqb : K -> K -> bool) (l : list K) : list K :=
  match l with
  | [] => []
  | k :: rest => k :: filter (fun k' => negb (eqb k k')) (distinct eqb rest)
  end.

(** Groups of a key, in the order in which the keys first occur. *)
Definition group_by (eqb : K -> K -> bool) (key : A -> K) (rows : list A)
  : list (K * list A) :=
  map (fun k => (k, filter (fun r => eqb k (key r)) rows))
      (distinct eqb (map key rows)).

(** Insertion sort; rows that compare equal keep their order. *)
Fixpoint insert (leb : A -> A -> bool) (x : A) (l : list A) : list A :=
  match l with
  | [] => [x]
  | y :: rest => if leb x y then x :: l else y :: insert leb x rest
  end.

Definition sort (leb : A -> A -> bool) (l : list A) : list A :=
  fold_right (insert leb) [] l.
End Generic.

Definition opt_eqb {A : Type} (eqb : A -> A -> bool) (x y : option A) : bool :=
  match x, y with
  | Some a, Some b => eqb a b
  | None, None => true
  | _, _ => false
  end.

(** SQL equality: NULL is equal to nothing. *)
Definition sql_eqb {A : Type} (eqb : A -> A -> bool) (x y : option A) : bool :=
  match x, y with
  | Some a, Some b => eqb a b
  | _, _ => false
  end.

(** Order with NULL below every value. *)
Definition opt_leb {A : Type} (leb : A -> A -> bool) (x y : option A) : bool :=
  match x, y with
  | None, _ => true
  | Some _, None => false
  | Some a, Some b => leb a b
  end.

Definition somes {A : Type} (l : list (option A)) : list A :=
  flat_map (fun x => match x with Some a => [a] | None => [] end) l.

Definition zsum (l : list Z) : Z := fold_right Z.add 0 l.
Definition count {A : Type} (l : list A) : Z := Z.of_nat (length l).

(** [SUM]: NULL when there is no non-NULL value. *)
Definition sql_sum (l : list (option Z)) : option Z :=
  match somes l with
  | [] => None
  | vs => Some (zsum vs)
  end.

Definition mean (vs : list Z) : Q := Qred (Qmake (zsum vs) (Pos.of_nat (length vs))).

(** [AVG]: NULL when there is no non-NULL value. *)
Definition sql_avg (l : list (option Z)) : option Q :=
  match somes l with
  | [] => None
  | vs => Some (mean vs)
  end.

Definition sql_max {A : Type} (leb : A -> A -> bool) (l : list (option A)) : option A :=
  fold_right (fun v acc => match acc with
                           | None => Some v
                           | Some m => Some (if leb m v then v else m)
                           end) None (somes l).

End Rel.

(** * Result rows of the four KPIs *)

Module RepeatRow.
Record t : Type := make
  { customer_id : string;
    customer_name : option string;
    order_count : Z;
    total_spent : option Z }.

(** [ORDER BY order_count DESC, total_spent DESC]: [before x y] when [x]
    may stand in front of [y]. *)
Definition before (x y : t) : bool :=
  ((order_count y <? order_count x)
   || ((order_count x =? order_count y)
       && Rel.opt_leb Z.leb (total_spent y) (total_spent x)))%bool.
End RepeatRow.

Module MonthlyRow.
Record t : Type := make
  { month_year : option string;
    total_orders : Z;
    total_revenue : option Z;
    avg_order_value : option Q;
    unique_customers : Z }.

(** [ORDER BY month_year ASC] *)
Definition before (x y : t) : bool :=
  Rel.opt_leb String.leb (month_year x) (month_year y).
End MonthlyRow.

Module RegionalRow.
Record t : Type := make
  { region : option string;
    customer_count : Z;
    total_orders : Z;
    total_revenue : option Z;
    avg_order_value : option Q }.

(** [ORDER BY total_revenue DESC]; NULL sorts below every value. *)
Definition before (x y : t) : bool :=
  Rel.opt_leb Z.leb (total_revenue y) (total_revenue x).
End RegionalRow.

Module TopRow.
Record t : Type := make
  { customer_id : string;
    customer_name : option string;
    region : option string;
    order_count : Z;
    total_spend : option Z;
    avg_order_value : option Q;
    last_order_date : option Datetime.datetime }.

(** [ORDER BY total_spend DESC] *)
Definition before (x y : t) : bool :=
  Rel.opt_leb Z.leb (total_spend y) (total_spend x).
End TopRow.

(** * Meaning of the queries the engines send to the store

    Strings compare exactly.  [ORDER BY] leaves the order of rows with equal
    keys to the server; here such rows keep the order of their groups. *)

Module Sql.
Import Rel.

(** [ON c.mobile_number = o.mobile_number] *)
Definition same_mobile (c : Customer.t) (o : Order.t) : bool :=
  sql_eqb String.eqb (Customer.mobile_number c) (Order.mobile_number o).

Definition pair_eqb {A B : Type} (ea : A -> A -> bool) (eb : B -> B -> bool)
           (x y : A * B) : bool :=
  (ea (fst x) (fst y) && eb (snd x) (snd y))%bool.

Definition name_eqb : option string -> option string -> bool := opt_eqb String.eqb.

Definition amount_of (o : option Order.t) : option Z :=
  match o with
  | Some o' => Order.total_amount o'
  | None => None
  end.

(** SELECT c.customer_id, c.customer_name,
           COUNT(o.order_id) as order_count, SUM(o.total_amount) as total_spent
    FROM customers c INNER JOIN orders o ON c.mobile_number = o.mobile_number
    GROUP BY c.customer_id, c.customer_name
    HAVING COUNT(o.order_id) > 1
    ORDER BY order_count DESC, total_spent DESC *)
Definition repeat_customers (cs : list Customer.t) (os : list Order.t)
  : list RepeatRow.t :=
  let joined := inner_join same_mobile cs os in
  let groups :=
    group_by (pair_eqb String.eqb name_eqb)
             (fun co => (Customer.customer_id (fst co),
                         Customer.customer_name (fst co))) joined in
  let rows :=
    map (fun kg =>
           RepeatRow.make
             (fst (fst kg)) (snd (fst kg))
             (count (snd kg))
             (sql_sum (map (fun co => Order.total_amount (snd co)) (snd kg))))
        groups in
  sort RepeatRow.before
       (filter (fun r => 1 <? RepeatRow.order_count r) rows).

(** SELECT DATE_FORMAT(order_date_time, '%Y-%m') as month_year,
           COUNT(order_id), SUM(total_amount), AVG(total_amount),
           COUNT(DISTINCT mobile_number)
    FROM orders GROUP BY DATE_FORMAT(order_date_time, '%Y-%m')
    ORDER BY month_year ASC *)
Definition monthly_trends (os : list Order.t) : list MonthlyRow.t :=
  let groups :=
    group_by name_eqb
             (fun o => option_map Datetime.month_year (Order.order_date_time o))
             os in
  let rows :=
    map (fun kg =>
           MonthlyRow.make
             (fst kg)
             (count (snd kg))
             (sql_sum (map Order.total_amount (snd kg)))
             (sql_avg (map Order.total_amount (snd kg)))
             (count (distinct String.eqb
                              (somes (map Order.mobile_number (snd kg))))))
        groups in
  sort MonthlyRow.before rows.

(** SELECT c.region, COUNT(DISTINCT c.customer_id), COUNT(o.order_id),
           SUM(o.total_amount) as total_revenue, AVG(o.total_amount)
    FROM customers c LEFT JOIN orders o ON c.mobile_number = o.mobile_number
    GROUP BY c.region ORDER BY total_revenue DESC *)
Definition regional_revenue (cs : list Customer.t) (os : list Order.t)
  : list RegionalRow.t :=
  let joined := left_join same_mobile cs os in
  let groups := group_by name_eqb (fun co => Customer.region (fst co)) joined in
  let rows :=
    map (fun kg =>
           RegionalRow.make
             (fst kg)
             (count (distinct String.eqb
                              (map (fun co => Customer.customer_id (fst co))
                                   (snd kg))))
             (count (somes (map snd (snd kg))))
             (sql_sum (map (fun co => amount_of (snd co)) (snd kg)))
             (sql_avg (map (fun co => amount_of (snd co)) (snd kg))))
        groups in
  sort RegionalRow.before rows.

(** [o.order_date_time >= DATE_SUB(NOW(), INTERVAL days DAY)] *)
Definition recent (now : Datetime.datetime) (days : Z) (o : Order.t) : bool :=
  match Order.order_date_time o with
  | Some t => Datetime.timestamp now - days * 86400 <=? Datetime.timestamp t
  | None => false
  end.

Definition later (x y : Datetime.datetime) : bool :=
  Datetime.timestamp x <=? Datetime.timestamp y.

(** SELECT c.customer_id, c.customer_name, c.region, COUNT(o.order_id),
           SUM(o.total_amount) as total_spend, AVG(o.total_amount),
           MAX(o.order_date_time)
    FROM customers c INNER JOIN orders o ON c.mobile_number = o.mobile_number
    WHERE o.order_date_time >= DATE_SUB(NOW(), INTERVAL %s DAY)
    GROUP BY c.customer_id, c.customer_name, c.region
    ORDER BY total_spend DESC LIMIT %s *)
Definition top_customers (now : Datetime.datetime) (days limit : Z)
           (cs : list Customer.t) (os : list Order.t) : list TopRow.t :=
  let joined :=
    filter (fun co => recent now days (snd co)) (inner_join same_mobile cs os) in
  let groups :=
    group_by (pair_eqb (pair_eqb String.eqb name_eqb) name_eqb)
             (fun co => (Customer.customer_id (fst co),
                         Customer.customer_name (fst co),
                         Customer.region (fst co))) joined in
  let rows :=
    map (fun kg =>
           let amounts := map (fun co => Order.total_amount (snd co)) (snd kg) in
           TopRow.make
             (fst (fst (fst kg))) (snd (fst (fst kg))) (snd (fst kg))
             (count (snd kg))
             (sql_sum amounts)
             (sql_avg amounts)
             (sql_max later
                      (map (fun co => Order.order_date_time (snd co)) (snd kg))))
        groups in
  firstn (Z.to_nat limit) (sort TopRow.before rows).

End Sql.

(** * [src/database/db_manager.py]: the store behind [db_manager]

    Each call of [execute_query] or [execute_many] is one transaction: it
    commits, or it raises and leaves the tables as they were.  Errors of the
    driver and the server are given by the oracle [fault].  The [journal]
    lists the statements that were sent, oldest first. *)

Module Db.

(** Statements run with [fetch=True]. *)
Inductive query : Type :=
| SelectCustomers                 (* SELECT * FROM customers *)
| SelectOrders                    (* SELECT * FROM orders *)
| RepeatCustomers
| MonthlyTrends
| RegionalRevenue
| TopCustomers (days limit : Z).

(** Statements that change a table. *)
Inductive command : Type :=
| DeleteCustomers                 (* DELETE FROM customers *)
| DeleteOrders                    (* DELETE FROM orders *)
| InsertCustomers (data : list Customer.t)
| InsertOrders (data : list Order.t).

Inductive statement : Type :=
| Read (q : query)
| Write (c : command).

Record Database : Type := mkDatabase
  { customers : list Customer.t;
    orders : list Order.t;
    now : Datetime.datetime;
    fault : statement -> option string;
    journal : list statement }.

(** Outcome of a call that may raise: [inl msg] is the exception. *)
Definition result (A : Type) : Type := (string + A)%type.

Definition answer (q : query) : Type :=
  match q with
  | SelectCustomers => list Customer.t
  | SelectOrders => list Order.t
  | RepeatCustomers => list RepeatRow.t
  | MonthlyTrends => list MonthlyRow.t
  | RegionalRevenue => list RegionalRow.t
  | TopCustomers _ _ => list TopRow.t
  end.

Definition eval (d : Database) (q : query) : answer q :=
  match q with
  | SelectCustomers => customers d
  | SelectOrders => orders d
  | RepeatCustomers => Sql.repeat_customers (customers d) (orders d)
  | MonthlyTrends => Sql.monthly_trends (orders d)
  | RegionalRevenue => Sql.regional_revenue (customers d) (orders d)
  | TopCustomers days limit =>
      Sql.top_customers (now d) days limit (customers d) (orders d)
  end.

(** INSERT INTO customers (customer_id, customer_name, mobile_number, region)
    VALUES (...) ON DUPLICATE KEY UPDATE customer_name = VALUES(customer_name),
    region = VALUES(region), updated_at = CURRENT_TIMESTAMP *)
Fixpoint upsert_customer (r : Customer.t) (tbl : list Customer.t)
  : list Customer.t :=
  match tbl with
  | [] => [r]
  | x :: rest =>
      if (Customer.customer_id x =? Customer.customer_id r)%string then
        Customer.make (Customer.customer_id x) (Customer.customer_name r)
                      (Customer.mobile_number x) (Customer.region r) :: rest
      else x :: upsert_customer r rest
  end.

(** INSERT INTO orders (...) VALUES (...) ON DUPLICATE KEY UPDATE
    sku_count = VALUES(sku_count), total_amount = VALUES(total_amount) *)
Fixpoint upsert_order (r : Order.t) (tbl : list Order.t) : list Order.t :=
  match tbl with
  | [] => [r]
  | x :: rest =>
      if (Order.order_id x =? Order.order_id r)%string then
        Order.make (Order.order_id x) (Order.mobile_number x)
                   (Order.order_date_time x) (Order.sku_id x)
                   (Order.sku_count r) (Order.total_amount r) :: rest
      else x :: upsert_order r rest
  end.

Definition apply (c : command) (d : Database) : Database :=
  match c with
  | DeleteCustomers =>
      mkDatabase [] (orders d) (now d) (fault d) (journal d)
  | DeleteOrders =>
      mkDatabase (customers d) [] (now d) (fault d) (journal d)
  | InsertCustomers data =>
      mkDatabase (fold_left (fun tbl r => upsert_customer r tbl) data (customers d))
                 (orders d) (now d) (fault d) (journal d)
  | InsertOrders data =>
      mkDatabase (customers d)
                 (fold_left (fun tbl r => upsert_order r tbl) data (orders d))
                 (now d) (fault d) (journal d)
  end.

Definition sent (s : statement) (d : Database) : Database :=
  mkDatabase (customers d) (orders d) (now d) (fault d) (journal d ++ [s]).

(** [db_manager.execute_query(query, params)] *)
Definition execute_query (q : query) (d : Database)
  : result (answer q) * Database :=
  match fault d (Read q) with
  | Some msg => (inl msg, sent (Read q) d)
  | None => (inr (eval d q), sent (Read q) d)
  end.

Definition execute_command (c : command) (d : Database)
  : result unit * Database :=
  match fault d (Write c) with
  | Some msg => (inl msg, sent (Write c) d)
  | None => (inr tt, sent (Write c) (apply c d))
  end.

(** [db_manager.execute_query(delete_query, fetch=False)] *)
Definition execute_delete_customers : Database -> result unit * Database :=
  execute_command DeleteCustomers.
Definition execute_delete_orders : Database -> result unit * Database :=
  execute_command DeleteOrders.

(** [db_manager.execute_many(insert_query, data)] *)
Definition execute_many_customers (data : list Customer.t)
  : Database -> result unit * Database :=
  execute_command (InsertCustomers data).
Definition execute_many_orders (data : list Order.t)
  : Database -> result unit * Database :=
  execute_command (InsertOrders data).

End Db.

(** * Result of an ingestion run

    [duration], the wall-clock time of the run, is not modelled. *)

Module PipelineResult.
Record t : Type := make
  { success : bool;
    records_loaded : Z;
    errors : list string }.
End PipelineResult.

(** * [src/ingestion/csv_loader.py]

    A data frame as [pd.read_csv] builds it: the column names and the rows
    with their index labels, as [df.iterrows()] yields them.  Per row, the
    cells of the four required columns (cells of a column that is absent
    are never read).  A cell is a string, NaN for an empty field, or an
    integer when the whole column is numeric; a column has dtype [object]
    when it holds a string.  The index is the default one, 0, 1, 2, ...,
    unless the data lines of the file have one field more than the header:
    [read_csv] then takes the first field of each line as the label of the
    row.  Labels are strings, integers or NaN. *)

Module CsvLoader.
Import Py Validators.

Record row : Type := mkRow
  { customer_id : pyval;
    customer_name : pyval;
    mobile_number : pyval;
    region : pyval }.

Record frame : Type := mkIndexed
  { columns : list string;
    items : list (pyval * row) }.

(** The default index: the positions, counted from [start]. *)
Fixpoint range_index (start : Z) (rs : list row) : list (pyval * row) :=
  match rs with
  | [] => []
  | r :: rest => (PInt start, r) :: range_index (start + 1) rest
  end.

(** A frame with the default index. *)
Definition mkFrame (columns : list string) (rs : list row) : frame :=
  mkIndexed columns (range_index 0 rs).

Definition rows (df : frame) : list row := map snd (items df).

Definition required_columns : list string :=
  ["customer_id"; "customer_name"; "mobile_number"; "region"].

(** What [pd.read_csv] gives for a path; [None] when the file is missing
    or cannot be read. *)
Definition files : Type := string -> option frame.

(** [Config.CUSTOMERS_CSV] *)
Definition CUSTOMERS_CSV : string := "data/raw/customers.csv".

Definition load_csv (fs : files) (file_path : string) : option frame :=
  fs file_path.

Definition quoted (s : string) : string := "'" ++ s ++ "'".

(** [set(self.required_columns) - set(df.columns)] *)
Definition missing_cols (df : frame) : list string :=
  filter (fun c => negb (existsb (String.eqb c) (columns df))) required_columns.

Definition falsy (o : option string) : bool :=
  match o with
  | Some s => (s =? "")%string
  | None => true
  end.

(** The body of the validation loop for one row: its [row_errors]. *)
Definition row_errors (r : row) : list string :=
  let cid := strip (str (customer_id r)) in
  concat
    [ if ((cid =? "")%string || (25 <? len cid))%bool
      then ["Invalid customer_id: " ++ cid ++ " (must be 1-25 characters)"]
      else [];
      if negb (validate_string (customer_name r) 2 255)
      then ["Invalid customer_name: " ++ str (customer_name r)]
      else [];
      if falsy (normalize_mobile_number (mobile_number r))
      then ["Invalid mobile_number: " ++ str (mobile_number r)
            ++ " (must be 8-15 digits)"]
      else [];
      if negb (validate_string (region r) 2 255)
      then ["Invalid region: " ++ str (region r)]
      else [] ].

(** [str(e)] of the [TypeError] that [idx + 2] raises for a string. *)
Definition cannot_add_to_str : string :=
  "can only concatenate str (not " ++ String (ascii_of_nat 34) "int"
  ++ String (ascii_of_nat 34) ") to str".

(** [idx + 2] for the index label [idx], as the f-string prints it,
    because the file has a header line; [inl] is the message of the
    [TypeError] raised when the label is not a number. *)
Definition row_number (idx : pyval) : Db.result string :=
  match idx with
  | PInt z => inr (dec (z + 2))
  | PNaN => inr "nan"
  | PStr _ => inl cannot_add_to_str
  | PNone => inl "unsupported operand type(s) for +: 'NoneType' and 'int'"
  end.

(** [for idx, row in df.iterrows(): ...], with the errors gathered so far;
    [inl] when the loop ends in an exception. *)
Fixpoint validate_rows (its : list (pyval * row)) (errors : list string)
  : Db.result (list string) :=
  match its with
  | [] => inr errors
  | (idx, r) :: rest =>
      match row_errors r with
      | [] => validate_rows rest errors
      | row_errs =>
          match row_number idx with
          | inl e => inl e
          | inr n =>
              validate_rows rest
                (app errors ["Row " ++ n ++ ": " ++ join ", " row_errs])
          end
      end
  end.

(** [validate_dataframe(df)]: the pair returned, or the exception raised. *)
Definition validate_dataframe (df : frame) : Db.result (bool * list string) :=
  match missing_cols df with
  | (_ :: _) as missing =>
      inr (false, ["Missing required columns: {"
                   ++ join ", " (map quoted missing) ++ "}"])
  | [] =>
      match items df with
      | [] => inr (false, ["CSV file is empty"])
      | its =>
          match validate_rows its [] with
          | inl e => inl e
          | inr errors =>
              inr (match errors with [] => true | _ => false end, errors)
          end
      end
  end.

Definition is_str (v : pyval) : bool :=
  match v with PStr _ => true | _ => false end.

Definition is_na (v : pyval) : bool :=
  match v with PNone | PNaN => true | _ => false end.

(** [column.str.strip()] when the column has dtype [object]. *)
Definition strip_column (col : list pyval) (v : pyval) : pyval :=
  if existsb is_str col then
    match v with
    | PStr s => PStr (strip s)
    | _ => PNaN
    end
  else v.

(** [drop_duplicates(subset=['customer_id'], keep='first')] *)
Fixpoint drop_duplicates (seen : list string) (rs : list row) : list row :=
  match rs with
  | [] => []
  | r :: rest =>
      let k := str (customer_id r) in
      if existsb (String.eqb k) seen then drop_duplicates seen rest
      else r :: drop_duplicates (k :: seen) rest
  end.

(** [dropna(subset=self.required_columns)] *)
Definition dropna (rs : list row) : list row :=
  filter (fun r => negb (is_na (customer_id r) || is_na (customer_name r)
                         || is_na (mobile_number r) || is_na (region r))) rs.

Definition clean_dataframe (df : frame) : list row :=
  let rs := rows df in
  (* Remove leading/trailing whitespaces *)
  let stripped :=
    map (fun r =>
           mkRow (strip_column (map customer_id rs) (customer_id r))
                 (strip_column (map customer_name rs) (customer_name r))
                 (strip_column (map mobile_number rs) (mobile_number r))
                 (strip_column (map region rs) (region r))) rs in
  (* Ensure customer_id is string and clean; normalize mobile numbers *)
  let normalized :=
    map (fun r =>
           mkRow (PStr (strip (str (customer_id r))))
                 (customer_name r)
                 (match normalize_mobile_number (mobile_number r) with
                  | Some m => PStr m
                  | None => PNone
                  end)
                 (region r)) stripped in
  (* Remove duplicates based on customer_id *)
  let unique := drop_duplicates [] normalized in
  (* Remove rows with invalid data *)
  dropna unique.

(** A cell as the driver hands it to the store. *)
Definition sql_text (v : pyval) : option string :=
  match v with
  | PStr s => Some s
  | PInt z => Some (dec z)
  | PNone | PNaN => None
  end.

Definition to_tuple (r : row) : Customer.t :=
  Customer.make (str (customer_id r)) (sql_text (customer_name r))
                (sql_text (mobile_number r)) (sql_text (region r)).

Definition load_to_database (df : list row) (mode : string) (d : Db.Database)
  : bool * Db.Database :=
  let cleared :=
    if (mode =? "replace")%string then Db.execute_delete_customers d
    else (inr tt, d) in
  match cleared with
  | (inl _, d1) => (false, d1)
  | (inr _, d1) =>
      match Db.execute_many_customers (map to_tuple df) d1 with
      | (inl _, d2) => (false, d2)
      | (inr _, d2) => (true, d2)
      end
  end.

Definition process_csv (fs : files) (file_path : option string)
           (mode : string) (d : Db.Database)
  : PipelineResult.t * Db.Database :=
  let file_path := match file_path with
                   | Some p => p
                   | None => CUSTOMERS_CSV
                   end in
  match load_csv fs file_path with
  | None => (PipelineResult.make false 0 ["Failed to load CSV file"], d)
  | Some df =>
      match validate_dataframe df with
      | inl e =>
          (* except Exception as e: result['errors'].append(str(e)) *)
          (PipelineResult.make false 0 [e], d)
      | inr (false, validation_errors) =>
          (PipelineResult.make false 0 validation_errors, d)
      | inr (true, _) =>
          let df_clean := clean_dataframe df in
          match load_to_database df_clean mode d with
          | (true, d') =>
              (PipelineResult.make true (Z.of_nat (length df_clean)) [], d')
          | (false, d') =>
              (PipelineResult.make false 0 ["Failed to load data to database"], d')
          end
      end
  end.

End CsvLoader.

(** * [src/ingestion/xml_loader.py]

    An order as [load_xml] builds it: for each required field the text of
    the child element, or [None] when the element is absent or empty. *)

Module XmlLoader.
Import Py Validators.

Record order : Type := mkOrder
  { order_id : pyval;
    mobile_number : pyval;
    order_date_time : pyval;
    sku_id : pyval;
    sku_count : pyval;
    total_amount : pyval }.

(** The order as a dictionary, its keys in the order of
    [self.required_fields]. *)
Definition fields (o : order) : list (string * pyval) :=
  [("order_id", order_id o); ("mobile_number", mobile_number o);
   ("order_date_time", order_date_time o); ("sku_id", sku_id o);
   ("sku_count", sku_count o); ("total_amount", total_amount o)].

(** What [load_xml] gives for a path; [None] when the file is missing or
    is not well-formed. *)
Definition files : Type := string -> option (list order).

(** [Config.ORDERS_XML] *)
Definition ORDERS_XML : string := "data/raw/orders.xml".

Definition load_xml (fs : files) (file_path : string) : option (list order) :=
  fs file_path.

(** [[f for f in self.required_fields if f not in order or not order[f]]] *)
Definition missing_fields (o : order) : list string :=
  map fst (filter (fun f => negb (truthy (snd f))) (fields o)).

Section WithNumbers.
Context `{Numeric}.

(** An order once cleaned; every field holds a value. *)
Record cleaned : Type := mkCleaned
  { c_order_id : string;
    c_mobile_number : string;
    c_order_date_time : Datetime.datetime;
    c_sku_id : string;
    c_sku_count : Z;
    c_total_amount : pyfloat }.

(** The body of the validation loop for one order: its [row_errors]. *)
Definition order_errors (o : order) : list string :=
  match missing_fields o with
  | (_ :: _) as missing =>
      ["Missing fields: [" ++ join ", " (map CsvLoader.quoted missing) ++ "]"]
  | [] =>
      let oid := strip (str (order_id o)) in
      concat
        [ if ((oid =? "")%string || (25 <? len oid))%bool
          then ["Invalid order_id: " ++ oid ++ " (must be 1-25 characters)"]
          else [];
          if CsvLoader.falsy (normalize_mobile_number (mobile_number o))
          then ["Invalid mobile_number: " ++ str (mobile_number o)
                ++ " (must be 8-15 digits)"]
          else [];
          match validate_datetime (order_date_time o) None with
          | None => ["Invalid order_date_time: " ++ str (order_date_time o)]
          | Some _ => []
          end;
          if negb (validate_string (sku_id o) 1 255)
          then ["Invalid sku_id: " ++ str (sku_id o)]
          else [];
          if negb (validate_positive_number (sku_count o))
          then ["Invalid sku_count: " ++ str (sku_count o)]
          else [];
          if negb (validate_non_negative_number (total_amount o))
          then ["Invalid total_amount: " ++ str (total_amount o)]
          else [] ]
  end.

(** [for idx, order in enumerate(orders): ...], with the errors gathered
    so far. *)
Fixpoint validate_loop (idx : Z) (os : list order) (errors : list string)
  : list string :=
  match os with
  | [] => errors
  | o :: rest =>
      let row_errs := order_errors o in
      validate_loop (idx + 1) rest
        (match row_errs with
         | [] => errors
         | _ => app errors ["Order " ++ dec (idx + 1) ++ ": "
                            ++ join ", " row_errs]
         end)
  end.

Definition validate_orders (os : list order) : bool * list string :=
  match os with
  | [] => (false, ["No orders found in XML file"])
  | _ =>
      let errors := validate_loop 0 os [] in
      (match errors with [] => true | _ => false end, errors)
  end.

(** One turn of the cleaning loop: the cleaned order, or [None] when the
    order is skipped, because a conversion raises or a field is null. *)
Definition clean_one (o : order) : option cleaned :=
  match normalize_mobile_number (mobile_number o),
        validate_datetime (order_date_time o) None,
        sku_id o,
        int_of (sku_count o),
        float_of (total_amount o) with
  | Some mobile, Some date, PStr sku, Some n, Some amount =>
      Some (mkCleaned (strip (str (order_id o))) mobile date (strip sku)
                      n amount)
  | _, _, _, _, _ => None
  end.

(** The loop over [cleaned_orders] with the set [seen_ids]. *)
Fixpoint unique_orders (seen_ids : list string) (cs : list cleaned)
  : list cleaned :=
  match cs with
  | [] => []
  | c :: rest =>
      if existsb (String.eqb (c_order_id c)) seen_ids
      then unique_orders seen_ids rest
      else c :: unique_orders (c_order_id c :: seen_ids) rest
  end.

Definition clean_orders (os : list order) : list cleaned :=
  let cleaned_orders :=
    flat_map (fun o => match clean_one o with
                       | Some c => [c]
                       | None => []
                       end) os in
  unique_orders [] cleaned_orders.

Definition to_tuple (c : cleaned) : Order.t :=
  Order.make (c_order_id c) (Some (c_mobile_number c))
             (Some (c_order_date_time c)) (Some (c_sku_id c))
             (Some (c_sku_count c)) (Some (decimal_of (c_total_amount c))).

Definition load_to_database (os : list cleaned) (mode : string)
           (d : Db.Database) : bool * Db.Database :=
  let cleared :=
    if (mode =? "replace")%string then Db.execute_delete_orders d
    else (inr tt, d) in
  match cleared with
  | (inl _, d1) => (false, d1)
  | (inr _, d1) =>
      match Db.execute_many_orders (map to_tuple os) d1 with
      | (inl _, d2) => (false, d2)
      | (inr _, d2) => (true, d2)
      end
  end.

Definition process_xml (fs : files) (file_path : option string)
           (mode : string) (d : Db.Database)
  : PipelineResult.t * Db.Database :=
  let file_path := match file_path with
                   | Some p => p
                   | None => ORDERS_XML
                   end in
  match load_xml fs file_path with
  | None => (PipelineResult.make false 0 ["Failed to load XML file"], d)
  | Some os =>
      match validate_orders os with
      | (false, validation_errors) =>
          (PipelineResult.make false 0 validation_errors, d)
      | (true, _) =>
          let cleaned_orders := clean_orders os in
          match load_to_database cleaned_orders mode d with
          | (true, d') =>
              (PipelineResult.make true
                 (Z.of_nat (length cleaned_orders)) [], d')
          | (false, d') =>
              (PipelineResult.make false 0
                 ["Failed to load data to database"], d')
          end
      end
  end.

End WithNumbers.

End XmlLoader.

(** An implementation of [Numeric] for worked examples: numbers written as
    plain runs of digits, amounts stored in hundredths. *)

Module PlainNumbers.
Import Py.

Definition digits_only (v : pyval) : option Z :=
  match v with
  | PStr s =>
      let t := strip s in
      if ((t =? "") || negb (keep is_digit t =? t))%string%bool then None
      else Some (int_of_digits t)
  | PInt z => Some z
  | PNone | PNaN => None
  end.

#[export] Instance numeric : Numeric :=
  {| pyfloat := Z;
     float_of := digits_only;
     float_gt0 := fun x => 0 <? x;
     float_ge0 := fun x => 0 <=? x;
     int_of := digits_only;
     decimal_of := fun x => 100 * x |}.

End PlainNumbers.

(** * Python values of the result envelopes *)

Module Value.

#[warnings="-register-all"]
Inductive value : Type :=
| VNone
| VNaN
| VBool (b : bool)
| VInt (z : Z)
| VAmount (z : Z)                       (* a Decimal or float amount *)
| VNum (q : Q)                          (* a mean *)
| VStr (s : string)
| VTime (t : Datetime.datetime)
| VList (l : list value)
| VDict (d : list (string * value)).

(** A [dict], its items in insertion order. *)
Definition dict : Type := list (string * value).

Definition keys (d : dict) : list string := map fst d.

Fixpoint get (k : string) (d : dict) : option value :=
  match d with
  | [] => None
  | (k', v) :: rest => if (k' =? k)%string then Some v else get k rest
  end.

(** [d[k] = v] *)
Fixpoint set (k : string) (v : value) (d : dict) : dict :=
  match d with
  | [] => [(k, v)]
  | (k', v') :: rest =>
      if (k' =? k)%string then (k, v) :: rest else (k', v') :: set k v rest
  end.

(** [d.update(other)] *)
Definition update (d other : dict) : dict :=
  fold_left (fun acc kv => set (fst kv) (snd kv) acc) other d.

Definition opt {A : Type} (f : A -> value) (o : option A) : value :=
  match o with
  | Some a => f a
  | None => VNone
  end.

(** [repr] of a list of strings. *)
Definition list_repr (l : list string) : string :=
  "[" ++ Py.join ", " (map CsvLoader.quoted l) ++ "]".

End Value.

(** * [src/kpis/base_kpi.py] *)

(** Keyword arguments of the KPI calls: the two the code reads. *)
Module Kwargs.
Record t : Type := make { days : option Z; limit : option Z }.
Definition none : t := make None None.
End Kwargs.

Module BaseKpi.
Import Value.

Record BaseKPI : Type := mkKPI
  { name : string;
    description : string;
    last_calculated : option Datetime.datetime;
    last_result : option dict }.

Definition init (name description : string) : BaseKPI :=
  mkKPI name description None None.

Definition get_result (self : BaseKPI) : option dict := last_result self.

(** [_format_result(data, metadata)] at the instant [now]; the object is
    returned with [last_calculated] and [last_result] set. *)
Definition _format_result (self : BaseKPI) (now : Datetime.datetime)
           (data : value) (metadata : dict) : dict * BaseKPI :=
  let result :=
    [("kpi_name", VStr (name self));
     ("description", VStr (description self));
     ("data", data);
     ("calculated_at", VStr (Datetime.isoformat now));
     ("success", VBool true)] in
  let result := match metadata with
                | [] => result
                | _ => update result metadata
                end in
  (result, mkKPI (name self) (description self) (Some now) (Some result)).

(** [_format_error(error)] *)
Definition _format_error (self : BaseKPI) (now : Datetime.datetime)
           (error : string) : dict :=
  [("kpi_name", VStr (name self));
   ("description", VStr (description self));
   ("data", VNone);
   ("calculated_at", VStr (Datetime.isoformat now));
   ("success", VBool false);
   ("error", VStr error)].

End BaseKpi.

(** * [src/kpis/table_based_kpis.py] *)

Module TableKpis.
Import Value BaseKpi.

(** The four subclasses of [BaseKPI]. *)
Inductive kind : Type :=
| RepeatCustomersKPI
| MonthlyOrderTrendsKPI
| RegionalRevenueKPI
| TopCustomersLast30DaysKPI.

(** The constructors: [super().__init__(name=..., description=...)]. *)
Definition new (k : kind) : BaseKPI :=
  match k with
  | RepeatCustomersKPI =>
      init "Repeat Customers" "Customers who have placed more than one order"
  | MonthlyOrderTrendsKPI =>
      init "Monthly Order Trends" "Orders and revenue aggregated by month"
  | RegionalRevenueKPI =>
      init "Regional Revenue" "Total revenue by customer region"
  | TopCustomersLast30DaysKPI =>
      init "Top Customers (Last 30 Days)"
           "Top 10 customers by spending in the last 30 days"
  end.

(** Result rows as the cursor returns them, one dictionary per row. *)
Definition repeat_record (r : RepeatRow.t) : value :=
  VDict [("customer_id", VStr (RepeatRow.customer_id r));
         ("customer_name", opt VStr (RepeatRow.customer_name r));
         ("order_count", VInt (RepeatRow.order_count r));
         ("total_spent", opt VAmount (RepeatRow.total_spent r))].

Definition monthly_record (r : MonthlyRow.t) : value :=
  VDict [("month_year", opt VStr (MonthlyRow.month_year r));
         ("total_orders", VInt (MonthlyRow.total_orders r));
         ("total_revenue", opt VAmount (MonthlyRow.total_revenue r));
         ("avg_order_value", opt VNum (MonthlyRow.avg_order_value r));
         ("unique_customers", VInt (MonthlyRow.unique_customers r))].

Definition regional_record (r : RegionalRow.t) : value :=
  VDict [("region", opt VStr (RegionalRow.region r));
         ("customer_count", VInt (RegionalRow.customer_count r));
         ("total_orders", VInt (RegionalRow.total_orders r));
         ("total_revenue", opt VAmount (RegionalRow.total_revenue r));
         ("avg_order_value", opt VNum (RegionalRow.avg_order_value r))].

Definition top_record (r : TopRow.t) : value :=
  VDict [("customer_id", VStr (TopRow.customer_id r));
         ("customer_name", opt VStr (TopRow.customer_name r));
         ("region", opt VStr (TopRow.region r));
         ("order_count", VInt (TopRow.order_count r));
         ("total_spend", opt VAmount (TopRow.total_spend r));
         ("avg_order_value", opt VNum (TopRow.avg_order_value r));
         ("last_order_date", opt VTime (TopRow.last_order_date r))].

(** [df[column].sum()]: missing values are skipped. *)
Definition column_sum (l : list (option Z)) : Z := Rel.zsum (Rel.somes l).

(** [df[column].mean()]: NaN when no value is present. *)
Definition column_mean (l : list (option Z)) : value :=
  match Rel.somes l with
  | [] => VNaN
  | vs => VNum (Rel.mean vs)
  end.

Definition finish (self : BaseKPI) (now : Datetime.datetime)
           (data : value) (metadata : dict) (d : Db.Database)
  : dict * BaseKPI * Db.Database :=
  let (result, self') := _format_result self now data metadata in
  (result, self', d).

(** [RepeatCustomersKPI.calculate] *)
Definition calculate_repeat_customers (self : BaseKPI) (d : Db.Database)
  : dict * BaseKPI * Db.Database :=
  match Db.execute_query Db.RepeatCustomers d with
  | (inr results, d') =>
      let metadata :=
        [("total_repeat_customers", VInt (Rel.count results));
         ("total_orders", VInt (Rel.zsum (map RepeatRow.order_count results)));
         ("total_revenue",
          VAmount (column_sum (map RepeatRow.total_spent results)))] in
      finish self (Db.now d') (VList (map repeat_record results)) metadata d'
  | (inl e, d') => (_format_error self (Db.now d') e, self, d')
  end.

(** [MonthlyOrderTrendsKPI.calculate] *)
Definition calculate_monthly_trends (self : BaseKPI) (d : Db.Database)
  : dict * BaseKPI * Db.Database :=
  match Db.execute_query Db.MonthlyTrends d with
  | (inr results, d') =>
      let metadata :=
        [("total_months", VInt (Rel.count results));
         ("total_orders", VInt (Rel.zsum (map MonthlyRow.total_orders results)));
         ("total_revenue",
          VAmount (column_sum (map MonthlyRow.total_revenue results)));
         ("avg_monthly_orders",
          match results with
          | [] => VNum 0
          | _ => VNum (Rel.mean (map MonthlyRow.total_orders results))
          end)] in
      finish self (Db.now d') (VList (map monthly_record results)) metadata d'
  | (inl e, d') => (_format_error self (Db.now d') e, self, d')
  end.

(** [RegionalRevenueKPI.calculate] *)
Definition calculate_regional_revenue (self : BaseKPI) (d : Db.Database)
  : dict * BaseKPI * Db.Database :=
  match Db.execute_query Db.RegionalRevenue d with
  | (inr results, d') =>
      let metadata :=
        [("total_regions", VInt (Rel.count results));
         ("total_revenue",
          VAmount (column_sum (map RegionalRow.total_revenue results)));
         ("highest_revenue_region",
          match results with
          | r :: _ => opt VStr (RegionalRow.region r)
          | [] => VNone
          end)] in
      finish self (Db.now d') (VList (map regional_record results)) metadata d'
  | (inl e, d') => (_format_error self (Db.now d') e, self, d')
  end.

(** [TopCustomersLast30DaysKPI.calculate(days=30, limit=10)] *)
Definition calculate_top_customers (self : BaseKPI) (kw : Kwargs.t)
           (d : Db.Database) : dict * BaseKPI * Db.Database :=
  let days := match Kwargs.days kw with Some n => n | None => 30 end in
  let limit := match Kwargs.limit kw with Some n => n | None => 10 end in
  match Db.execute_query (Db.TopCustomers days limit) d with
  | (inr results, d') =>
      let metadata :=
        [("time_period_days", VInt days);
         ("top_customer_count", VInt (Rel.count results));
         ("total_revenue_top_customers",
          VAmount (column_sum (map TopRow.total_spend results)));
         ("avg_spend_top_customers",
          match results with
          | [] => VNum 0
          | _ => column_mean (map TopRow.total_spend results)
          end)] in
      finish self (Db.now d') (VList (map top_record results)) metadata d'
  | (inl e, d') => (_format_error self (Db.now d') e, self, d')
  end.

(** [kpi.calculate] with the keyword arguments, by the class of the object. *)
Definition calculate (k : kind) (self : BaseKPI) (kw : Kwargs.t)
           (d : Db.Database) : dict * BaseKPI * Db.Database :=
  match k with
  | RepeatCustomersKPI => calculate_repeat_customers self d
  | MonthlyOrderTrendsKPI => calculate_monthly_trends self d
  | RegionalRevenueKPI => calculate_regional_revenue self d
  | TopCustomersLast30DaysKPI => calculate_top_customers self kw d
  end.

(** The engine: the dictionary [self.kpis], in insertion order. *)
Definition TableBasedKPIEngine : Type := list (string * (kind * BaseKPI)).

Definition engine_init : TableBasedKPIEngine :=
  [("repeat_customers", (RepeatCustomersKPI, new RepeatCustomersKPI));
   ("monthly_trends", (MonthlyOrderTrendsKPI, new MonthlyOrderTrendsKPI));
   ("regional_revenue", (RegionalRevenueKPI, new RegionalRevenueKPI));
   ("top_customers", (TopCustomersLast30DaysKPI, new TopCustomersLast30DaysKPI))].

Fixpoint lookup (kpi_name : string) (kpis : TableBasedKPIEngine)
  : option (kind * BaseKPI) :=
  match kpis with
  | [] => None
  | (k, o) :: rest => if (k =? kpi_name)%string then Some o else lookup kpi_name rest
  end.

Fixpoint store (kpi_name : string) (o : BaseKPI) (kpis : TableBasedKPIEngine)
  : TableBasedKPIEngine :=
  match kpis with
  | [] => []
  | (k, (c, o')) :: rest =>
      if (k =? kpi_name)%string then (k, (c, o)) :: rest
      else (k, (c, o')) :: store kpi_name o rest
  end.

Definition calculate_kpi (self : TableBasedKPIEngine) (kpi_name : string)
           (kw : Kwargs.t) (d : Db.Database)
  : dict * TableBasedKPIEngine * Db.Database :=
  match lookup kpi_name self with
  | None =>
      ([("success", VBool false);
        ("error", VStr ("Unknown KPI: " ++ kpi_name ++ ". Available: "
                        ++ list_repr (map fst self)))],
       self, d)
  | Some (k, o) =>
      let '(result, o', d') := calculate k o kw d in
      (result, store kpi_name o' self, d')
  end.

(** The loop [for kpi_name, kpi in self.kpis.items()] over the remaining
    [items], with the [results] gathered so far. *)
Fixpoint calculate_loop (items : TableBasedKPIEngine) (kw : Kwargs.t)
         (d : Db.Database) (results : dict)
  : dict * TableBasedKPIEngine * Db.Database :=
  match items with
  | [] => (results, [], d)
  | (kpi_name, (k, o)) :: rest =>
      let '(result, o', d1) := calculate k o kw d in
      let '(results', rest', d2) :=
        calculate_loop rest kw d1 (set kpi_name (VDict result) results) in
      (results', (kpi_name, (k, o')) :: rest', d2)
  end.

Definition calculate_all_kpis (self : TableBasedKPIEngine) (kw : Kwargs.t)
           (d : Db.Database) : dict * TableBasedKPIEngine * Db.Database :=
  calculate_loop self kw d [].

Definition get_kpi_list (self : TableBasedKPIEngine) : list dict :=
  map (fun item =>
         [("name", VStr (name (snd (snd item))));
          ("key", VStr (fst item));
          ("description", VStr (description (snd (snd item))))]) self.

End TableKpis.

(** * The data-frame computations of the memory engine

    A frame is the list of rows that [pd.DataFrame(rows)] was given; built
    from no rows it has no columns, and naming a column then raises
    [KeyError].  Where the library leaves the order of rows with equal sort
    keys open, such rows keep their previous order. *)

Module Pandas.
Import Rel.

Definition key_error (column : string) : string := "'" ++ column ++ "'".

(** Key equality of [merge]: missing keys match each other. *)
Definition same_key (c : Customer.t) (o : Order.t) : bool :=
  opt_eqb String.eqb (Customer.mobile_number c) (Order.mobile_number o).

(** [left.merge(right, on='mobile_number', how='inner')] *)
Definition merge_inner (left : list Customer.t) (right : list Order.t)
  : Db.result (list (Customer.t * Order.t)) :=
  match left, right with
  | [], _ | _, [] => inl (key_error "mobile_number")
  | _, _ => inr (inner_join same_key left right)
  end.

(** [left.merge(right, on='mobile_number', how='left')] *)
Definition merge_left (left : list Customer.t) (right : list Order.t)
  : Db.result (list (Customer.t * option Order.t)) :=
  match left, right with
  | [], _ | _, [] => inl (key_error "mobile_number")
  | _, _ => inr (left_join same_key left right)
  end.

(** [groupby(keys)] with its defaults: the groups come sorted by key. *)
Definition groupby {A K : Type} (eqb leb : K -> K -> bool) (key : A -> K)
           (rows : list A) : list (K * list A) :=
  sort (fun x y => leb (fst x) (fst y)) (group_by eqb key rows).

Definition pair_leb {A B : Type} (lta eqa : A -> A -> bool) (leb : B -> B -> bool)
           (x y : A * B) : bool :=
  (lta (fst x) (fst y) || (eqa (fst x) (fst y) && leb (snd x) (snd y)))%bool.

Definition pair_ltb {A B : Type} (lta eqa : A -> A -> bool) (ltb : B -> B -> bool)
           (x y : A * B) : bool :=
  (lta (fst x) (fst y) || (eqa (fst x) (fst y) && ltb (snd x) (snd y)))%bool.

Definition has_value {A : Type} (o : option A) : bool :=
  match o with Some _ => true | None => false end.

Definition value_or {A : Type} (default : A) (o : option A) : A :=
  match o with Some a => a | None => default end.

(** ['sum'], ['mean'], ['nunique'] of [agg]: missing values are skipped;
    the mean of nothing is NaN ([None]). *)
Definition agg_sum (l : list (option Z)) : Z := zsum (somes l).

Definition agg_mean (l : list (option Z)) : option Q :=
  match somes l with
  | [] => None
  | vs => Some (mean vs)
  end.

Definition agg_nunique (l : list (option string)) : Z :=
  count (distinct String.eqb (somes l)).

(** The steps of [calculate_repeat_customers] between the merge and
    [to_dict]. *)
Definition repeat_customers (cs : list Customer.t) (os : list Order.t)
  : Db.result (list RepeatRow.t) :=
  match merge_inner cs os with
  | inl e => inl e
  | inr merged =>
      (* groups with a missing key are left out *)
      let keyed :=
        flat_map (fun co => match Customer.customer_name (fst co) with
                            | Some n => [((Customer.customer_id (fst co), n), snd co)]
                            | None => []
                            end) merged in
      let groups :=
        groupby (Sql.pair_eqb String.eqb String.eqb)
                (pair_leb String.ltb String.eqb String.leb) fst keyed in
      let customer_orders :=
        map (fun kg =>
               RepeatRow.make
                 (fst (fst kg)) (Some (snd (fst kg)))
                 (count (snd kg))
                 (Some (agg_sum (map (fun ko => Order.total_amount (snd ko))
                                     (snd kg)))))
            groups in
      let repeat_customers :=
        filter (fun r => 1 <? RepeatRow.order_count r) customer_orders in
      inr (sort RepeatRow.before repeat_customers)
  end.

(** [pd.to_datetime(column)] gives the column the dtype [datetime64[ns]]
    (pandas before version 3): a date fits when its time stamp counted in
    nanoseconds fits 64 bits, which for whole seconds is from 1677-09-21
    00:12:44 to 2262-04-11 23:47:16; a missing date becomes NaT.  For a
    date that does not fit the call raises [OutOfBoundsDatetime], and the
    column built by [pd.DataFrame] keeps the dtype [object]. *)
Definition in_ns_range (t : Datetime.datetime) : bool :=
  ((-9223372036 <=? Datetime.timestamp t)
   && (Datetime.timestamp t <=? 9223372036))%bool.

Definition dates_convert (os : list Order.t) : bool :=
  forallb (fun o => match Order.order_date_time o with
                    | Some t => in_ns_range t
                    | None => true
                    end) os.

(** [str(e)] of the [AttributeError] that [.dt] raises on a column of
    dtype [object]. *)
Definition not_datetimelike : string :=
  "Can only use .dt accessor with datetimelike values".

(** [order_date_time.dt.to_period('M').astype(str)] *)
Definition period (o : Order.t) : string :=
  match Order.order_date_time o with
  | Some t => Datetime.month_year t
  | None => "NaT"
  end.

Definition monthly_trends (os : list Order.t) : Db.result (list MonthlyRow.t) :=
  match os with
  | [] => inl (key_error "order_date_time")
  | _ =>
      if negb (dates_convert os) then inl not_datetimelike else
      let groups := groupby String.eqb String.leb period os in
      let monthly_stats :=
        map (fun kg =>
               MonthlyRow.make
                 (Some (fst kg))
                 (count (snd kg))
                 (Some (agg_sum (map Order.total_amount (snd kg))))
                 (agg_mean (map Order.total_amount (snd kg)))
                 (agg_nunique (map Order.mobile_number (snd kg))))
            groups in
      inr (sort MonthlyRow.before monthly_stats)
  end.

Definition regional_revenue (cs : list Customer.t) (os : list Order.t)
  : Db.result (list RegionalRow.t) :=
  match merge_left cs os with
  | inl e => inl e
  | inr merged =>
      let keyed :=
        flat_map (fun co => match Customer.region (fst co) with
                            | Some r => [(r, co)]
                            | None => []
                            end) merged in
      let groups := groupby String.eqb String.leb fst keyed in
      let regional_stats :=
        map (fun kg =>
               let amounts := map (fun rco => Sql.amount_of (snd (snd rco)))
                                  (snd kg) in
               RegionalRow.make
                 (Some (fst kg))
                 (agg_nunique
                    (map (fun rco => Some (Customer.customer_id (fst (snd rco))))
                         (snd kg)))
                 (count (somes (map (fun rco => snd (snd rco)) (snd kg))))
                 (* Fill NaN values (regions with no orders) *)
                 (Some (agg_sum amounts))
                 (Some (value_or 0%Q (agg_mean amounts))))
            groups in
      inr (sort RegionalRow.before regional_stats)
  end.

(** The steps of [calculate_top_customers_last_30_days] from the date
    filter to [nlargest]; [inr None] is the early return when no order is
    recent.  The comparison with the cutoff, [max] and [astype(str)] work
    on a column of dtype [object] as on a converted one. *)
Definition top_customers (now : Datetime.datetime) (days limit : Z)
           (cs : option (list Customer.t)) (os : list Order.t)
  : Db.result (option (list TopRow.t)) :=
  match os with
  | [] => inl (key_error "order_date_time")
  | _ =>
      match filter (Sql.recent now days) os with
      | [] => inr None
      | recent_orders =>
          match cs with
          | None => inl "'NoneType' object has no attribute 'merge'"
          | Some cs' =>
              match merge_inner cs' recent_orders with
              | inl e => inl e
              | inr merged =>
                  let keyed :=
                    flat_map
                      (fun co =>
                         match Customer.customer_name (fst co),
                               Customer.region (fst co) with
                         | Some n, Some r =>
                             [((Customer.customer_id (fst co), n, r), snd co)]
                         | _, _ => []
                         end) merged in
                  let groups :=
                    groupby
                      (Sql.pair_eqb (Sql.pair_eqb String.eqb String.eqb) String.eqb)
                      (pair_leb (pair_ltb String.ltb String.eqb String.ltb)
                                (Sql.pair_eqb String.eqb String.eqb) String.leb)
                      fst keyed in
                  let customer_stats :=
                    map (fun kg =>
                           let amounts :=
                             map (fun ko => Order.total_amount (snd ko)) (snd kg) in
                           TopRow.make
                             (fst (fst (fst kg))) (Some (snd (fst (fst kg))))
                             (Some (snd (fst kg)))
                             (count (snd kg))
                             (Some (agg_sum amounts))
                             (agg_mean amounts)
                             (sql_max Sql.later
                                (map (fun ko => Order.order_date_time (snd ko))
                                     (snd kg))))
                        groups in
                  inr (Some (firstn (Z.to_nat limit)
                                    (sort TopRow.before customer_stats)))
              end
          end
      end
  end.

End Pandas.

(** * [src/kpis/memory_based_kpis.py] *)

Module MemoryKpis.
Import Value.

Record MemoryBasedKPIEngine : Type := mkEngine
  { customers_df : option (list Customer.t);
    orders_df : option (list Order.t);
    last_loaded : option Datetime.datetime }.

Definition engine_init : MemoryBasedKPIEngine := mkEngine None None None.

(** [load_data()]: the two frames are assigned as soon as their rows are
    read; [False] when a statement fails or [pd.to_datetime] raises, the
    frames assigned until then staying in place. *)
Definition load_data (self : MemoryBasedKPIEngine) (d : Db.Database)
  : bool * MemoryBasedKPIEngine * Db.Database :=
  match Db.execute_query Db.SelectCustomers d with
  | (inl _, d1) => (false, self, d1)
  | (inr customers_data, d1) =>
      let self1 := mkEngine (Some customers_data) (orders_df self)
                            (last_loaded self) in
      match Db.execute_query Db.SelectOrders d1 with
      | (inl _, d2) => (false, self1, d2)
      | (inr orders_data, d2) =>
          let self2 := mkEngine (Some customers_data) (Some orders_data)
                                (last_loaded self) in
          (* Convert datetime columns *)
          let converted :=
            match orders_data with
            | [] => true
            | _ => Pandas.dates_convert orders_data
            end in
          if converted then
            (true,
             mkEngine (Some customers_data) (Some orders_data) (Some (Db.now d2)),
             d2)
          else (false, self2, d2)
      end
  end.

(** [if self.customers_df is None or self.orders_df is None: self.load_data()] *)
Definition ensure_loaded (self : MemoryBasedKPIEngine) (d : Db.Database)
  : MemoryBasedKPIEngine * Db.Database :=
  match customers_df self, orders_df self with
  | Some _, Some _ => (self, d)
  | _, _ => let '(_, self', d') := load_data self d in (self', d')
  end.

(** The dictionary returned from an [except] branch. *)
Definition failure (error : string) : dict :=
  [("success", VBool false); ("error", VStr error)].

(** The dictionary returned on success. *)
Definition success (kpi_name : string) (results : list value) (metadata : dict)
           (now : Datetime.datetime) : dict :=
  [("kpi_name", VStr kpi_name);
   ("data", VList results);
   ("metadata", VDict metadata);
   ("calculated_at", VStr (Datetime.isoformat now));
   ("success", VBool true);
   ("method", VStr "memory")].

Definition no_merge : string := "'NoneType' object has no attribute 'merge'".
Definition bad_operand : string :=
  "Can only merge Series or DataFrame objects, a <class 'NoneType'> was passed".

(** [to_dict('records')]: a missing number is NaN. *)
Definition nan_or {A : Type} (f : A -> value) (o : option A) : value :=
  match o with
  | Some a => f a
  | None => VNaN
  end.

Definition repeat_record (r : RepeatRow.t) : value :=
  VDict [("customer_id", VStr (RepeatRow.customer_id r));
         ("customer_name", opt VStr (RepeatRow.customer_name r));
         ("order_count", VInt (RepeatRow.order_count r));
         ("total_spent", nan_or VAmount (RepeatRow.total_spent r))].

Definition monthly_record (r : MonthlyRow.t) : value :=
  VDict [("month_year", opt VStr (MonthlyRow.month_year r));
         ("total_orders", VInt (MonthlyRow.total_orders r));
         ("total_revenue", nan_or VAmount (MonthlyRow.total_revenue r));
         ("avg_order_value", nan_or VNum (MonthlyRow.avg_order_value r));
         ("unique_customers", VInt (MonthlyRow.unique_customers r))].

Definition regional_record (r : RegionalRow.t) : value :=
  VDict [("region", opt VStr (RegionalRow.region r));
         ("customer_count", VInt (RegionalRow.customer_count r));
         ("total_orders", VInt (RegionalRow.total_orders r));
         ("total_revenue", nan_or VAmount (RegionalRow.total_revenue r));
         ("avg_order_value", nan_or VNum (RegionalRow.avg_order_value r))].

Definition top_record (r : TopRow.t) : value :=
  VDict [("customer_id", VStr (TopRow.customer_id r));
         ("customer_name", opt VStr (TopRow.customer_name r));
         ("region", opt VStr (TopRow.region r));
         ("order_count", VInt (TopRow.order_count r));
         ("total_spend", nan_or VAmount (TopRow.total_spend r));
         ("avg_order_value", nan_or VNum (TopRow.avg_order_value r));
         ("last_order_date",
          VStr (match TopRow.last_order_date r with
                | Some t => Datetime.to_str t
                | None => "NaT"
                end))].

(** KPI 1 *)
Definition calculate_repeat_customers (self : MemoryBasedKPIEngine)
           (d : Db.Database) : dict * MemoryBasedKPIEngine * Db.Database :=
  let (self, d) := ensure_loaded self d in
  let outcome :=
    match customers_df self, orders_df self with
    | None, _ => inl no_merge
    | Some _, None => inl bad_operand
    | Some cs, Some os => Pandas.repeat_customers cs os
    end in
  match outcome with
  | inr repeat_customers =>
      let metadata :=
        [("total_repeat_customers", VInt (Rel.count repeat_customers));
         ("total_orders",
          VInt (Rel.zsum (map RepeatRow.order_count repeat_customers)));
         ("total_revenue",
          VAmount (Pandas.agg_sum (map RepeatRow.total_spent repeat_customers)))] in
      (success "Repeat Customers" (map repeat_record repeat_customers) metadata
               (Db.now d), self, d)
  | inl e => (failure e, self, d)
  end.

(** KPI 2 *)
Definition calculate_monthly_trends (self : MemoryBasedKPIEngine)
           (d : Db.Database) : dict * MemoryBasedKPIEngine * Db.Database :=
  let (self, d) :=
    match orders_df self with
    | Some (_ :: _) => (self, d)
    | _ => let '(_, self', d') := load_data self d in (self', d')
    end in
  let outcome :=
    match orders_df self with
    | None => inl "'NoneType' object has no attribute 'copy'"
    | Some os => Pandas.monthly_trends os
    end in
  match outcome with
  | inr monthly_stats =>
      let metadata :=
        [("total_months", VInt (Rel.count monthly_stats));
         ("total_orders",
          VInt (Rel.zsum (map MonthlyRow.total_orders monthly_stats)));
         ("total_revenue",
          VAmount (Pandas.agg_sum (map MonthlyRow.total_revenue monthly_stats)));
         ("avg_monthly_orders",
          match monthly_stats with
          | [] => VNum 0
          | _ => VNum (Rel.mean (map MonthlyRow.total_orders monthly_stats))
          end)] in
      (success "Monthly Order Trends" (map monthly_record monthly_stats) metadata
               (Db.now d), self, d)
  | inl e => (failure e, self, d)
  end.

(** KPI 3 *)
Definition calculate_regional_revenue (self : MemoryBasedKPIEngine)
           (d : Db.Database) : dict * MemoryBasedKPIEngine * Db.Database :=
  let (self, d) := ensure_loaded self d in
  let outcome :=
    match customers_df self, orders_df self with
    | None, _ => inl no_merge
    | Some _, None => inl bad_operand
    | Some cs, Some os => Pandas.regional_revenue cs os
    end in
  match outcome with
  | inr regional_stats =>
      let metadata :=
        [("total_regions", VInt (Rel.count regional_stats));
         ("total_revenue",
          VAmount (Pandas.agg_sum (map RegionalRow.total_revenue regional_stats)));
         ("highest_revenue_region",
          match regional_stats with
          | r :: _ => opt VStr (RegionalRow.region r)
          | [] => VNone
          end)] in
      (success "Regional Revenue" (map regional_record regional_stats) metadata
               (Db.now d), self, d)
  | inl e => (failure e, self, d)
  end.

(** KPI 4 *)
Definition calculate_top_customers_last_30_days
           (self : MemoryBasedKPIEngine) (kw : Kwargs.t) (d : Db.Database)
  : dict * MemoryBasedKPIEngine * Db.Database :=
  let days := match Kwargs.days kw with Some n => n | None => 30 end in
  let limit := match Kwargs.limit kw with Some n => n | None => 10 end in
  let (self, d) := ensure_loaded self d in
  let outcome :=
    match orders_df self with
    | None => inl "'NoneType' object is not subscriptable"
    | Some os => Pandas.top_customers (Db.now d) days limit (customers_df self) os
    end in
  match outcome with
  | inr None =>
      (success "Top Customers (Last 30 Days)" []
               [("time_period_days", VInt days); ("top_customer_count", VInt 0)]
               (Db.now d), self, d)
  | inr (Some top_customers) =>
      let metadata :=
        [("time_period_days", VInt days);
         ("top_customer_count", VInt (Rel.count top_customers));
         ("total_revenue_top_customers",
          VAmount (Pandas.agg_sum (map TopRow.total_spend top_customers)));
         ("avg_spend_top_customers",
          nan_or VNum (Pandas.agg_mean (map TopRow.total_spend top_customers)))] in
      (success "Top Customers (Last 30 Days)" (map top_record top_customers)
               metadata (Db.now d), self, d)
  | inl e => (failure e, self, d)
  end.

Definition calculate_all_kpis (self : MemoryBasedKPIEngine) (kw : Kwargs.t)
           (d : Db.Database) : dict * MemoryBasedKPIEngine * Db.Database :=
  let '(loaded, self, d) :=
    match customers_df self, orders_df self with
    | Some _, Some _ => (true, self, d)
    | _, _ => load_data self d
    end in
  if negb loaded then (failure "Failed to load data", self, d)
  else
    let '(r1, self, d) := calculate_repeat_customers self d in
    let '(r2, self, d) := calculate_monthly_trends self d in
    let '(r3, self, d) := calculate_regional_revenue self d in
    let '(r4, self, d) := calculate_top_customers_last_30_days self kw d in
    ([("repeat_customers", VDict r1);
      ("monthly_trends", VDict r2);
      ("regional_revenue", VDict r3);
      ("top_customers", VDict r4)], self, d).

End MemoryKpis.

(** * Sample stores for the worked examples *)

Module Examples.

Definition no_fault : Db.statement -> option string := fun _ => None.

Definition noon : Datetime.datetime := Datetime.mkDatetime 2024 3 15 12 0 0.

(** A store with one customer and no order. *)
Definition db0 : Db.Database :=
  Db.mkDatabase
    [Customer.make "C009" (Some "Zoe") (Some "9000000001") (Some "West")] []
    noon no_fault [].

(** Two customers and two orders of the first; region South has no order. *)
Definition customers0 : list Customer.t :=
  [Customer.make "C001" (Some "Alice") (Some "9876543210") (Some "North");
   Customer.make "C002" (Some "Bob") (Some "9876543299") (Some "South")].

Definition orders0 : list Order.t :=
  [Order.make "O1" (Some "9876543210") (Some (Datetime.mkDatetime 2024 3 1 9 0 0))
              (Some "SKU1") (Some 1) (Some 25000);
   Order.make "O2" (Some "9876543210") (Some (Datetime.mkDatetime 2024 1 9 9 0 0))
              (Some "SKU2") (Some 2) (Some 10000)].

Definition db_south : Db.Database :=
  Db.mkDatabase customers0 orders0 noon no_fault [].

End Examples.

(** * Facts about the validators *)

Module ValidatorsFacts.
Import Py Datetime Validators.

Definition digit_or_plus (c : ascii) : bool := (is_digit c || Ascii.eqb c "+")%bool.

(** The shape "digits behind an optional leading plus sign". *)
Definition plus_only_leading (r : string) : bool :=
  match r with
  | String c r' =>
      (digit_or_plus c && (keep is_digit r' =? r')%string)%bool
  | EmptyString => true
  end.

Lemma space_not_kept (c : ascii) : is_space c = true -> digit_or_plus c = false.
Proof.
  destruct c as [[] [] [] [] [] [] [] []]; vm_compute; congruence.
Qed.

Lemma digit_is_kept (c : ascii) : is_digit c = true -> digit_or_plus c = true.
Proof. unfold digit_or_plus. intros ->. reflexivity. Qed.

Section Keep.
Variable p : ascii -> bool.
Hypothesis p_no_space : forall c, is_space c = true -> p c = false.

Lemma keep_lstrip (s : string) : keep p (lstrip s) = keep p s.
Proof.
  induction s as [|c s IH]; simpl; [reflexivity|].
  destruct (is_space c) eqn:E.
  - rewrite IH, (p_no_space c E). reflexivity.
  - reflexivity.
Qed.

Lemma keep_rstrip (s : string) : keep p (rstrip s) = keep p s.
Proof.
  induction s as [|c s IH]; simpl; [reflexivity|].
  destruct (rstrip s) as [|c' r] eqn:R.
  - destruct (is_space c) eqn:E; simpl in *.
    + rewrite (p_no_space c E). exact IH.
    + rewrite <- IH. reflexivity.
  - rewrite <- IH. reflexivity.
Qed.

Lemma keep_strip (s : string) : keep p (strip s) = keep p s.
Proof. unfold strip. rewrite keep_rstrip. apply keep_lstrip. Qed.
End Keep.

Lemma keep_digit_of_kept (s : string) :
  keep is_digit (keep digit_or_plus s) = keep is_digit s.
Proof.
  induction s as [|c s IH]; simpl; [reflexivity|].
  unfold digit_or_plus at 1.
  destruct (is_digit c) eqn:D; simpl.
  - rewrite D, IH. reflexivity.
  - destruct (Ascii.eqb c "+"); simpl; [rewrite D|]; exact IH.
Qed.

Lemma keep_empty_digits (s : string) :
  keep digit_or_plus s = EmptyString -> keep is_digit s = EmptyString.
Proof. intros E. rewrite <- keep_digit_of_kept, E. reflexivity. Qed.

Lemma normalize_mobile_number_eq (s : string) :
  normalize_mobile_number (PStr s) =
    if len (keep is_digit s) <? 8 then None
    else Some (keep digit_or_plus s).
Proof.
  unfold normalize_mobile_number, truthy.
  destruct (String.eqb_spec s "") as [->|Hs]; [reflexivity|]. simpl negb. cbv iota.
  change (fun c => (is_digit c || Ascii.eqb c "+")%bool) with digit_or_plus.
  unfold str. rewrite (keep_strip _ space_not_kept), keep_digit_of_kept.
  destruct (String.eqb_spec (keep digit_or_plus s) "") as [E|E]; [|reflexivity].
  rewrite (keep_empty_digits _ E). reflexivity.
Qed.

Lemma try_formats_some (s : string) (fs : list format) (dt : datetime) :
  try_formats s fs = Some dt <->
  exists before fmt after,
    fs = (before ++ fmt :: after)%list
    /\ Forall (fun f => strptime s f = None) before
    /\ strptime s fmt = Some dt.
Proof.
  induction fs as [|f fs IH]; simpl.
  - split; [discriminate|]. intros (b & fmt & a & E & _). destruct b; discriminate.
  - destruct (strptime s f) as [d|] eqn:P.
    + split.
      * intros [= <-]. exists [], f, fs. repeat split; [constructor | exact P].
      * intros (b & fmt & a & E & Hb & Hf). destruct b as [|f' b]; simpl in E.
        -- injection E as <- _. congruence.
        -- injection E as <- _. inversion Hb; congruence.
    + rewrite IH. split.
      * intros (b & fmt & a & -> & Hb & Hf). exists (f :: b), fmt, a.
        repeat split; [constructor; assumption | exact Hf].
      * intros (b & fmt & a & E & Hb & Hf). destruct b as [|f' b]; simpl in E.
        -- injection E as <- _. congruence.
        -- injection E as <- ->. inversion Hb; subst. exists b, fmt, a. auto.
Qed.

Lemma try_formats_none (s : string) (fs : list format) :
  try_formats s fs = None <-> Forall (fun f => strptime s f = None) fs.
Proof.
  induction fs as [|f fs IH]; simpl.
  - split; [constructor | reflexivity].
  - destruct (strptime s f) eqn:P.
    + split; [discriminate|]. intros H. inversion H; congruence.
    + rewrite IH. split; [constructor; assumption|]. intros H. inversion H; assumption.
Qed.

End ValidatorsFacts.

(** * Facts about the ingestion pipelines *)

Module LoaderFacts.
Import Py.

(** Rows with their position in the file, counted from [idx]. *)
Fixpoint enumerate {A : Type} (idx : Z) (l : list A) : list (Z * A) :=
  match l with
  | [] => []
  | x :: rest => (idx, x) :: enumerate (idx + 1) rest
  end.

Definition nonempty {A : Type} (l : list A) : bool :=
  match l with [] => false | _ => true end.

Lemma enumerate_length {A : Type} (l : list A) (idx : Z) :
  length (enumerate idx l) = length l.
Proof. revert idx. induction l; simpl; intros; [|rewrite IHl]; reflexivity. Qed.

Lemma filter_enumerate_length {A : Type} (p : A -> bool) (l : list A) (idx : Z) :
  length (filter (fun ir => p (snd ir)) (enumerate idx l))
  = length (filter p l).
Proof.
  revert idx. induction l as [|x l IH]; simpl; intros; [reflexivity|].
  destruct (p x); simpl; rewrite IH; reflexivity.
Qed.

Lemma exists_filter_nonempty {A : Type} (p : A -> bool) (l : list A) :
  Exists (fun x => p x = true) l -> filter p l <> [].
Proof.
  induction 1 as [x l Hx | x l _ IH]; simpl.
  - rewrite Hx. discriminate.
  - destruct (p x); [discriminate | exact IH].
Qed.

(** ** CSV *)

Definition csv_invalid (r : CsvLoader.row) : bool :=
  nonempty (CsvLoader.row_errors r).

(** The message for the row at position [i] of the data (from 0): the
    file line is [i + 2], the header being line 1. *)
Definition csv_message (ir : Z * CsvLoader.row) : string :=
  "Row " ++ dec (fst ir + 2) ++ ": " ++ join ", " (CsvLoader.row_errors (snd ir)).

Definition csv_messages (rs : list CsvLoader.row) : list string :=
  map csv_message (filter (fun ir => csv_invalid (snd ir)) (enumerate 0 rs)).

(** A row with an integer label. *)
Definition int_label (ir : Z * CsvLoader.row) : Py.pyval * CsvLoader.row :=
  (PInt (fst ir), snd ir).

Lemma range_index_enumerate (rs : list CsvLoader.row) (idx : Z) :
  CsvLoader.range_index idx rs = map int_label (enumerate idx rs).
Proof.
  revert idx. induction rs as [|r rs IH]; simpl; intros; [|rewrite IH];
    reflexivity.
Qed.

Lemma rows_range_index (rs : list CsvLoader.row) (idx : Z) :
  map snd (CsvLoader.range_index idx rs) = rs.
Proof.
  revert idx. induction rs as [|r rs IH]; simpl; intros; [|rewrite IH];
    reflexivity.
Qed.

Lemma rows_mkFrame (cols : list string) (rs : list CsvLoader.row) :
  CsvLoader.rows (CsvLoader.mkFrame cols rs) = rs.
Proof. apply rows_range_index. Qed.

(** With integer labels every invalid row gets its message, numbered by
    its label. *)
Lemma validate_rows_int (zrs : list (Z * CsvLoader.row)) (errors : list string) :
  CsvLoader.validate_rows (map int_label zrs) errors
  = inr (errors ++ map csv_message
                       (filter (fun ir => csv_invalid (snd ir)) zrs))%list.
Proof.
  revert errors. induction zrs as [|[z r] zrs IH]; simpl; intros.
  - now rewrite app_nil_r.
  - unfold csv_invalid at 1. simpl snd.
    destruct (CsvLoader.row_errors r) as [|e es] eqn:E; simpl.
    + apply IH.
    + rewrite IH, <- app_assoc. unfold csv_message at 2. simpl. rewrite E.
      reflexivity.
Qed.

Lemma validate_rows_eq (rs : list CsvLoader.row) (idx : Z) (errors : list string) :
  CsvLoader.validate_rows (CsvLoader.range_index idx rs) errors
  = inr (errors ++ map csv_message
                       (filter (fun ir => csv_invalid (snd ir)) (enumerate idx rs)))%list.
Proof. rewrite range_index_enumerate. apply validate_rows_int. Qed.

(** With string labels the first invalid row ends the loop. *)
Lemma validate_rows_str (its : list (Py.pyval * CsvLoader.row))
      (errors : list string) :
  Forall (fun it => CsvLoader.is_str (fst it) = true) its ->
  Exists (fun it => csv_invalid (snd it) = true) its ->
  CsvLoader.validate_rows its errors = inl CsvLoader.cannot_add_to_str.
Proof.
  intros F X. revert errors. induction X as [[idx r] its Hx | [idx r] its _ IH];
    intros errors; inversion F as [|? ? Hs F']; subst; simpl in *.
  - unfold csv_invalid in Hx.
    destruct (CsvLoader.row_errors r); [discriminate|].
    destruct idx; try discriminate. reflexivity.
  - destruct (CsvLoader.row_errors r); [apply IH; exact F'|].
    destruct idx; try discriminate. reflexivity.
Qed.

Lemma validate_rows_valid (its : list (Py.pyval * CsvLoader.row))
      (errors : list string) :
  Forall (fun r => CsvLoader.row_errors r = []) (map snd its) ->
  CsvLoader.validate_rows its errors = inr errors.
Proof.
  induction its as [|[idx r] its IH]; simpl; intros F; [reflexivity|].
  inversion F as [|? ? E F']; subst. rewrite E. apply IH, F'.
Qed.

(** When the loop ends without an exception it has added one message for
    each invalid row. *)
Lemma validate_rows_length (its : list (Py.pyval * CsvLoader.row))
      (errors out : list string) :
  CsvLoader.validate_rows its errors = inr out ->
  length out = (length errors + length (filter csv_invalid (map snd its)))%nat.
Proof.
  revert errors. induction its as [|[idx r] its IH]; simpl; intros errors V.
  - injection V as <-. lia.
  - unfold csv_invalid at 1.
    destruct (CsvLoader.row_errors r) as [|e es]; simpl.
    + apply IH, V.
    + destruct (CsvLoader.row_number idx) as [msg|n]; [discriminate|].
      apply IH in V. rewrite V, length_app. simpl. lia.
Qed.

(** The index of the frame is the default one. *)
Definition default_index (df : CsvLoader.frame) : Prop :=
  CsvLoader.items df = CsvLoader.range_index 0 (CsvLoader.rows df).

Lemma default_index_mkFrame (cols : list string) (rs : list CsvLoader.row) :
  default_index (CsvLoader.mkFrame cols rs).
Proof. unfold default_index. rewrite rows_mkFrame. reflexivity. Qed.

Lemma items_nil (df : CsvLoader.frame) :
  CsvLoader.items df = [] <-> CsvLoader.rows df = [].
Proof.
  unfold CsvLoader.rows. destruct (CsvLoader.items df); simpl; split;
    congruence.
Qed.

Lemma messages_nonempty (rs : list CsvLoader.row) :
  Exists (fun r => csv_invalid r = true) rs -> csv_messages rs <> [].
Proof.
  intros Hx. unfold csv_messages. intros E. apply map_eq_nil in E.
  apply (f_equal (@length _)) in E.
  rewrite (filter_enumerate_length csv_invalid) in E.
  apply length_zero_iff_nil in E.
  exact (exists_filter_nonempty _ _ Hx E).
Qed.

Lemma validate_dataframe_invalid (df : CsvLoader.frame) :
  default_index df ->
  CsvLoader.missing_cols df = [] ->
  Exists (fun r => csv_invalid r = true) (CsvLoader.rows df) ->
  CsvLoader.validate_dataframe df = inr (false, csv_messages (CsvLoader.rows df)).
Proof.
  intros Hd Hc Hx. unfold CsvLoader.validate_dataframe. rewrite Hc.
  pose proof (messages_nonempty _ Hx) as N.
  destruct (CsvLoader.items df) as [|it its] eqn:I.
  - apply items_nil in I. rewrite I in Hx. inversion Hx.
  - rewrite <- I, Hd, validate_rows_eq. simpl app. fold (csv_messages (CsvLoader.rows df)).
    destruct (csv_messages (CsvLoader.rows df)); [congruence | reflexivity].
Qed.

(** ** XML *)

Section WithNumbers.
Context `{Numeric}.

Definition xml_invalid (o : XmlLoader.order) : bool :=
  nonempty (XmlLoader.order_errors o).

(** The message for the order at position [i] (from 0) is numbered
    [i + 1]. *)
Definition xml_message (io : Z * XmlLoader.order) : string :=
  "Order " ++ dec (fst io + 1) ++ ": "
  ++ join ", " (XmlLoader.order_errors (snd io)).

Definition xml_messages (os : list XmlLoader.order) : list string :=
  map xml_message (filter (fun io => xml_invalid (snd io)) (enumerate 0 os)).

Lemma validate_loop_eq (os : list XmlLoader.order) (idx : Z)
      (errors : list string) :
  XmlLoader.validate_loop idx os errors
  = (errors ++ map xml_message
                   (filter (fun io => xml_invalid (snd io)) (enumerate idx os)))%list.
Proof.
  revert idx errors. induction os as [|o os IH]; simpl; intros.
  - now rewrite app_nil_r.
  - rewrite IH. unfold xml_invalid at 2. simpl snd.
    destruct (XmlLoader.order_errors o) as [|e es] eqn:E; simpl.
    + reflexivity.
    + rewrite <- app_assoc. unfold xml_message at 2. simpl. rewrite E.
      reflexivity.
Qed.

Lemma validate_orders_invalid (os : list XmlLoader.order) :
  Exists (fun o => xml_invalid o = true) os ->
  XmlLoader.validate_orders os = (false, xml_messages os).
Proof.
  intros Hx. unfold XmlLoader.validate_orders.
  destruct os as [|o os]; [inversion Hx|].
  assert (E : XmlLoader.validate_loop 0 (o :: os) [] = xml_messages (o :: os))
    by (rewrite validate_loop_eq; reflexivity).
  rewrite E. clear E.
  assert (N : xml_messages (o :: os) <> []).
  { unfold xml_messages. intros E. apply map_eq_nil in E.
    apply (f_equal (@length _)) in E.
    rewrite (filter_enumerate_length xml_invalid) in E.
    apply length_zero_iff_nil in E.
    exact (exists_filter_nonempty _ _ Hx E). }
  destruct (xml_messages (o :: os)); [congruence | reflexivity].
Qed.
End WithNumbers.

End LoaderFacts.

(** * Facts about the customers table under replace-mode loading *)

Module StoreFacts.
Import Py.

Definition key (r : CsvLoader.row) : string := str (CsvLoader.customer_id r).

Lemma existsb_eqb_In (k : string) (l : list string) :
  existsb (String.eqb k) l = true <-> In k l.
Proof.
  rewrite existsb_exists. split.
  - intros (x & Hx & E). apply String.eqb_eq in E. now subst.
  - intros Hk. exists k. split; [exact Hk | apply String.eqb_refl].
Qed.

Lemma drop_duplicates_keys (rs : list CsvLoader.row) (seen : list string) :
  NoDup (map key (CsvLoader.drop_duplicates seen rs))
  /\ forall k, In k (map key (CsvLoader.drop_duplicates seen rs)) -> ~ In k seen.
Proof.
  revert seen. induction rs as [|r rs IH]; intros seen; simpl.
  - split; [constructor | intros k []].
  - fold (key r).
    destruct (existsb (String.eqb (key r)) seen) eqn:E.
    + apply IH.
    + destruct (IH (key r :: seen)) as [ND Hfresh]. simpl. split.
      * constructor; [|exact ND]. intros Hin. apply (Hfresh _ Hin). now left.
      * intros k [<- | Hin].
        -- intros Hs. apply existsb_eqb_In in Hs. congruence.
        -- intros Hs. apply (Hfresh _ Hin). now right.
Qed.

Lemma filter_keeps_distinct_keys {R K : Type} (keyf : R -> K) (rows : list R)
      (ND : NoDup (map keyf rows)) (sel : R -> bool) :
  NoDup (map keyf (filter sel rows)).
Proof.
  induction rows as [|x rows IH]; simpl in *; [constructor|].
  inversion ND as [|? ? Hx ND']; subst.
  destruct (sel x); simpl; [|auto].
  constructor; [|auto]. intros Hin. apply Hx.
  apply in_map_iff in Hin. destruct Hin as (y & E & Hy).
  apply filter_In in Hy. apply in_map_iff. exists y. tauto.
Qed.

Lemma clean_dataframe_keys (df : CsvLoader.frame) :
  NoDup (map Customer.customer_id
             (map CsvLoader.to_tuple (CsvLoader.clean_dataframe df))).
Proof.
  rewrite map_map. unfold CsvLoader.clean_dataframe, CsvLoader.dropna.
  apply (filter_keeps_distinct_keys key). apply drop_duplicates_keys.
Qed.




Definition loaded (d : Db.Database) (data : list Customer.t) : bool :=
  match Db.fault d (Db.Write Db.DeleteCustomers),
        Db.fault d (Db.Write (Db.InsertCustomers data)) with
  | None, None => true
  | _, _ => false
  end.


End StoreFacts.

(** * Facts about the cleaning stages *)

Module CleanFacts.
Import Py.

(** The cleaning order that C9 describes for the customers file: the rows
    with a null in a required field are dropped first, duplicates of the
    key afterwards.  The normalisation steps are those of
    [CsvLoader.clean_dataframe]. *)
Definition clean_dropna_first (df : CsvLoader.frame) : list CsvLoader.row :=
  let rs := CsvLoader.rows df in
  let stripped :=
    map (fun r =>
           CsvLoader.mkRow
             (CsvLoader.strip_column (map CsvLoader.customer_id rs) (CsvLoader.customer_id r))
             (CsvLoader.strip_column (map CsvLoader.customer_name rs) (CsvLoader.customer_name r))
             (CsvLoader.strip_column (map CsvLoader.mobile_number rs) (CsvLoader.mobile_number r))
             (CsvLoader.strip_column (map CsvLoader.region rs) (CsvLoader.region r))) rs in
  let normalized :=
    map (fun r =>
           CsvLoader.mkRow
             (PStr (strip (str (CsvLoader.customer_id r))))
             (CsvLoader.customer_name r)
             (match Validators.normalize_mobile_number (CsvLoader.mobile_number r) with
              | Some m => PStr m
              | None => PNone
              end)
             (CsvLoader.region r)) stripped in
  CsvLoader.drop_duplicates [] (CsvLoader.dropna normalized).

Section WithNumbers.
Context `{Numeric}.

Definition valid_orders (os : list XmlLoader.order) : list XmlLoader.cleaned :=
  flat_map (fun o => match XmlLoader.clean_one o with
                     | Some c => [c]
                     | None => []
                     end) os.

Lemma unique_orders_first (pre post : list XmlLoader.cleaned)
      (c : XmlLoader.cleaned) (seen : list string) :
  ~ In (XmlLoader.c_order_id c) seen ->
  (forall c', In c' pre -> XmlLoader.c_order_id c' <> XmlLoader.c_order_id c) ->
  In c (XmlLoader.unique_orders seen (pre ++ c :: post)).
Proof.
  revert seen. induction pre as [|x pre IH]; simpl; intros seen Hs Hp.
  - destruct (existsb _ seen) eqn:E.
    + apply StoreFacts.existsb_eqb_In in E. contradiction.
    + now left.
  - destruct (existsb _ seen) eqn:E.
    + apply IH; auto.
    + right. apply IH; [|auto].
      intros [E' | Hin]; [|contradiction].
      apply (Hp x); auto.
Qed.

(** The orders file is cleaned in the order C9 states: an order is kept
    when it is the first occurrence of its key among the orders that
    survive cleaning. *)
Lemma clean_orders_keeps_first_valid
      (pre post : list XmlLoader.order) (o : XmlLoader.order)
      (c : XmlLoader.cleaned) :
  XmlLoader.clean_one o = Some c ->
  (forall o' c', In o' pre -> XmlLoader.clean_one o' = Some c' ->
                 XmlLoader.c_order_id c' <> XmlLoader.c_order_id c) ->
  In c (XmlLoader.clean_orders (pre ++ o :: post)).
Proof.
  intros Ho Hp. unfold XmlLoader.clean_orders.
  rewrite flat_map_app. simpl. rewrite Ho. simpl.
  apply unique_orders_first; [intros [] |].
  intros c' Hin. apply in_flat_map in Hin. destruct Hin as (o' & Ho' & Hc').
  destruct (XmlLoader.clean_one o') as [c''|] eqn:E; [|contradiction].
  destruct Hc' as [<- | []]. eapply Hp; eauto.
Qed.
End WithNumbers.

End CleanFacts.

(** * Facts about the table-based engine *)

Module TableFacts.
Import Value BaseKpi TableKpis.

(** Two states of the store that differ at most in the journal. *)
Definition same_data (d d' : Db.Database) : Prop :=
  Db.customers d = Db.customers d' /\ Db.orders d = Db.orders d'
  /\ Db.now d = Db.now d' /\ Db.fault d = Db.fault d'.

Lemma same_data_refl (d : Db.Database) : same_data d d.
Proof. repeat split. Qed.

Lemma same_data_trans (a b c : Db.Database) :
  same_data a b -> same_data b c -> same_data a c.
Proof.
  intros (A1 & A2 & A3 & A4) (B1 & B2 & B3 & B4).
  repeat split; etransitivity; eassumption.
Qed.

Lemma execute_query_sent (q : Db.query) (d : Db.Database) :
  snd (Db.execute_query q d) = Db.sent (Db.Read q) d.
Proof. unfold Db.execute_query. destruct (Db.fault d (Db.Read q)); reflexivity. Qed.

Lemma execute_query_same (q : Db.query) (d d' : Db.Database) :
  same_data d d' ->
  fst (Db.execute_query q d) = fst (Db.execute_query q d')
  /\ same_data d (snd (Db.execute_query q d'))
  /\ Db.now (snd (Db.execute_query q d)) = Db.now (snd (Db.execute_query q d')).
Proof.
  intros (C & O & N & F). unfold Db.execute_query. rewrite <- F.
  assert (E : Db.eval d q = Db.eval d' q).
  { destruct q; simpl; rewrite ?C, ?O, ?N; reflexivity. }
  destruct (Db.fault d (Db.Read q)); simpl; rewrite ?E; repeat split; assumption.
Qed.

(** The query a KPI object sends. *)
Definition query_of (kw : Kwargs.t) (k : kind) : Db.query :=
  match k with
  | RepeatCustomersKPI => Db.RepeatCustomers
  | MonthlyOrderTrendsKPI => Db.MonthlyTrends
  | RegionalRevenueKPI => Db.RegionalRevenue
  | TopCustomersLast30DaysKPI =>
      Db.TopCustomers (match Kwargs.days kw with Some n => n | None => 30 end)
                      (match Kwargs.limit kw with Some n => n | None => 10 end)
  end.

(** The rows of the store's answer, as they appear under [data]. *)
Definition data_of (kw : Kwargs.t) (k : kind) (d : Db.Database) : value :=
  match k with
  | RepeatCustomersKPI => VList (map repeat_record (Db.eval d Db.RepeatCustomers))
  | MonthlyOrderTrendsKPI => VList (map monthly_record (Db.eval d Db.MonthlyTrends))
  | RegionalRevenueKPI => VList (map regional_record (Db.eval d Db.RegionalRevenue))
  | TopCustomersLast30DaysKPI =>
      VList (map top_record (Db.eval d (query_of kw TopCustomersLast30DaysKPI)))
  end.

Definition envelope (k : kind) (o : BaseKPI) (kw : Kwargs.t) (d : Db.Database)
  : dict := fst (fst (calculate k o kw d)).

Ltac run_query q d :=
  unfold Db.execute_query;
  destruct (Db.fault d (Db.Read q)) eqn:?; simpl.

Lemma calculate_sent (k : kind) (o : BaseKPI) (kw : Kwargs.t) (d : Db.Database) :
  snd (calculate k o kw d) = Db.sent (Db.Read (query_of kw k)) d.
Proof.
  destruct k; simpl; unfold calculate_repeat_customers, calculate_monthly_trends,
    calculate_regional_revenue, calculate_top_customers, finish;
    match goal with |- context [Db.execute_query ?q d] => run_query q d end;
    reflexivity.
Qed.

Lemma envelope_same (k : kind) (o : BaseKPI) (kw : Kwargs.t) (d d' : Db.Database) :
  same_data d d' -> envelope k o kw d = envelope k o kw d'.
Proof.
  intros S. unfold envelope.
  destruct k; simpl; unfold calculate_repeat_customers, calculate_monthly_trends,
    calculate_regional_revenue, calculate_top_customers, finish;
    match goal with
    | |- context [Db.execute_query ?q d] =>
        destruct (execute_query_same q d d' S) as (E1 & _ & E3);
        destruct (Db.execute_query q d) as [[e|r] d1];
        destruct (Db.execute_query q d') as [[e'|r'] d1'];
        simpl in E1, E3; try discriminate; injection E1 as <-; rewrite E3
    end; reflexivity.
Qed.

(** An error of the store becomes a failure envelope. *)
Lemma envelope_failure (k : kind) (o : BaseKPI) (kw : Kwargs.t) (d : Db.Database)
      (msg : string) :
  Db.fault d (Db.Read (query_of kw k)) = Some msg ->
  envelope k o kw d = _format_error o (Db.now d) msg.
Proof.
  intros F. unfold envelope.
  destruct k; simpl in *; unfold calculate_repeat_customers, calculate_monthly_trends,
    calculate_regional_revenue, calculate_top_customers, finish, Db.execute_query;
    rewrite F; reflexivity.
Qed.

(** Without an error the envelope reports success and carries the rows. *)
Lemma envelope_success (k : kind) (o : BaseKPI) (kw : Kwargs.t) (d : Db.Database) :
  Db.fault d (Db.Read (query_of kw k)) = None ->
  get "success" (envelope k o kw d) = Some (VBool true)
  /\ get "data" (envelope k o kw d) = Some (data_of kw k d)
  /\ get "error" (envelope k o kw d) = None
  /\ get "kpi_name" (envelope k o kw d) = Some (VStr (name o)).
Proof.
  intros F. unfold envelope.
  destruct k; simpl in *; unfold calculate_repeat_customers, calculate_monthly_trends,
    calculate_regional_revenue, calculate_top_customers, finish, Db.execute_query;
    rewrite F; simpl; repeat split; reflexivity.
Qed.

(** The loop gathers, under each key, the envelope that the KPI yields on
    the data of the store as it was at the start. *)
Lemma calculate_loop_results (items : TableBasedKPIEngine) (kw : Kwargs.t)
      (d0 d : Db.Database) (results : dict) :
  same_data d0 d ->
  fst (fst (calculate_loop items kw d results))
  = fold_left (fun acc item =>
                 set (fst item)
                     (VDict (envelope (fst (snd item)) (snd (snd item)) kw d0)) acc)
              items results.
Proof.
  revert d results. induction items as [|[key [k o]] items IH]; intros d results S.
  - reflexivity.
  - simpl.
    pose proof (calculate_sent k o kw d) as Hs.
    pose proof (envelope_same k o kw d0 d S) as He. unfold envelope in He.
    destruct (calculate k o kw d) as [[result o'] d1]. simpl in Hs, He. subst d1.
    specialize (IH (Db.sent (Db.Read (query_of kw k)) d)
                   (set key (VDict result) results)).
    destruct (calculate_loop items kw _ _) as [[results' rest'] d2]. simpl in *.
    rewrite IH.
    + unfold envelope. rewrite He. reflexivity.
    + destruct S as (C & O & N & F). repeat split; assumption.
Qed.

Lemma lookup_unknown (kpi_name : string) (self : TableBasedKPIEngine) :
  ~ In kpi_name (map fst self) -> lookup kpi_name self = None.
Proof.
  induction self as [|[k o] self IH]; simpl; intros Hn; [reflexivity|].
  destruct (String.eqb_spec k kpi_name) as [E|E]; [tauto|]. apply IH. tauto.
Qed.

End TableFacts.

(** * Facts about the relational operators *)

Module RelFacts.
Import Rel.

Section Sorting.
Context {A : Type} (leb : A -> A -> bool).

Lemma insert_perm (x : A) (l : list A) : Permutation (insert leb x l) (x :: l).
Proof.
  induction l as [|y l IH]; simpl; [apply Permutation_refl|].
  destruct (leb x y); [apply Permutation_refl|].
  eapply perm_trans; [apply perm_skip, IH | apply perm_swap].
Qed.

Lemma sort_perm (l : list A) : Permutation (sort leb l) l.
Proof.
  induction l as [|x l IH]; simpl; [constructor|].
  eapply perm_trans; [apply insert_perm | apply perm_skip, IH].
Qed.

Lemma sort_in (x : A) (l : list A) : In x (sort leb l) <-> In x l.
Proof.
  split; apply Permutation_in; [|apply Permutation_sym]; apply sort_perm.
Qed.

Hypothesis leb_total : forall x y, leb x y = true \/ leb y x = true.
Hypothesis leb_trans : forall x y z, leb x y = true -> leb y z = true -> leb x z = true.

Definition le (x y : A) : Prop := leb x y = true.

Lemma insert_sorted (x : A) (l : list A) :
  StronglySorted le l -> StronglySorted le (insert leb x l).
Proof.
  induction 1 as [|y l Hs IH Hy]; simpl.
  - repeat constructor.
  - destruct (leb x y) eqn:E.
    + constructor; [constructor; assumption|].
      constructor; [exact E|].
      rewrite Forall_forall in *. intros z Hz.
      apply (leb_trans x y z E). apply Hy, Hz.
    + constructor; [exact IH|].
      rewrite Forall_forall in *. intros z Hz.
      apply (Permutation_in _ (insert_perm x l)) in Hz. destruct Hz as [<- | Hz].
      * destruct (leb_total x y) as [H | H]; [congruence | exact H].
      * apply Hy, Hz.
Qed.

Lemma sort_sorted (l : list A) : StronglySorted le (sort leb l).
Proof.
  induction l as [|x l IH]; simpl; [constructor | apply insert_sorted, IH].
Qed.

End Sorting.

(** Two sorted arrangements of the same values under an antisymmetric order
    are the same list. *)
Lemma sorted_perm_eq {K : Type} (R : K -> K -> Prop) :
  (forall a b, R a b -> R b a -> a = b) ->
  forall l1 l2,
    Permutation l1 l2 -> StronglySorted R l1 -> StronglySorted R l2 -> l1 = l2.
Proof.
  intros anti l1. induction l1 as [|x l1 IH]; intros l2 P S1 S2.
  - apply Permutation_nil in P. now subst.
  - destruct l2 as [|y l2]; [apply Permutation_sym, Permutation_nil in P; discriminate|].
    inversion S1 as [|? ? S1' F1]; subst. inversion S2 as [|? ? S2' F2]; subst.
    rewrite Forall_forall in F1, F2.
    assert (E : x = y).
    { assert (Hx : In x (y :: l2)) by (eapply Permutation_in; [exact P | now left]).
      assert (Hy : In y (x :: l1))
        by (eapply Permutation_in; [apply Permutation_sym; exact P | now left]).
      destruct Hx as [-> | Hx]; [reflexivity|].
      destruct Hy as [-> | Hy]; [reflexivity|].
      apply anti; [apply F1, Hy | apply F2, Hx]. }
    subst y. f_equal. apply IH; auto. eapply Permutation_cons_inv; exact P.
Qed.

Lemma sorted_map {A K : Type} (key : A -> K) (R : K -> K -> Prop) (l : list A) :
  StronglySorted (fun x y => R (key x) (key y)) l -> StronglySorted R (map key l).
Proof.
  induction 1 as [|x l S IH F]; simpl; constructor; [exact IH|].
  rewrite Forall_forall in *. intros k Hk. apply in_map_iff in Hk.
  destruct Hk as (y & <- & Hy). auto.
Qed.

Lemma filter_perm {A : Type} (p : A -> bool) (l l' : list A) :
  Permutation l l' -> Permutation (filter p l) (filter p l').
Proof.
  induction 1 as [| x l l' P IH | x y l | l l' l'' P1 IH1 P2 IH2]; simpl.
  - constructor.
  - destruct (p x); [apply perm_skip|]; exact IH.
  - destruct (p x), (p y); try apply Permutation_refl. apply perm_swap.
  - eapply perm_trans; eassumption.
Qed.


Section Grouping.
Context {A B R K : Type}.
Variable eqb : K -> K -> bool.
Hypothesis eqb_spec : forall a b, eqb a b = true <-> a = b.
Variable key : A -> K.
Variable mk : A -> B -> R.
Variable kf : R -> K.
Hypothesis kf_mk : forall a b, kf (mk a b) = key a.
Variable rows_of : A -> list B.

(** The rows of a join, customer by customer. *)
Definition chunks (l : list A) : list R :=
  flat_map (fun a => map (mk a) (rows_of a)) l.

(** One group per customer that has rows. *)
Definition per_key (l : list A) : list (K * list R) :=
  flat_map (fun a => match rows_of a with
                     | [] => []
                     | bs => [(key a, map (mk a) bs)]
                     end) l.

Let differs (k k' : K) : bool := negb (eqb k k').

Lemma eqb_refl (k : K) : eqb k k = true.
Proof. now apply eqb_spec. Qed.

Lemma eqb_neq (a b : K) : a <> b -> eqb a b = false.
Proof.
  intros N. destruct (eqb a b) eqn:E; [|reflexivity].
  apply eqb_spec in E. contradiction.
Qed.

Lemma distinct_in (k : K) (l : list K) : In k (distinct eqb l) -> In k l.
Proof.
  revert k. induction l as [|x l IH]; simpl; intros k; [tauto|].
  intros [-> | H]; [now left|]. apply filter_In in H. right. apply IH, H.
Qed.

Lemma filter_all {X : Type} (p : X -> bool) (l : list X) :
  (forall x, In x l -> p x = true) -> filter p l = l.
Proof.
  induction l as [|x l IH]; simpl; intros H; [reflexivity|].
  rewrite (H x (or_introl eq_refl)), IH; [reflexivity|]. intros; apply H; now right.
Qed.

Lemma filter_none {X : Type} (p : X -> bool) (l : list X) :
  (forall x, In x l -> p x = false) -> filter p l = [].
Proof.
  induction l as [|x l IH]; simpl; intros H; [reflexivity|].
  rewrite (H x (or_introl eq_refl)). apply IH. intros; apply H; now right.
Qed.

Lemma filter_twice {X : Type} (p : X -> bool) (l : list X) :
  filter p (filter p l) = filter p l.
Proof.
  apply filter_all. intros x Hx. apply filter_In in Hx. tauto.
Qed.

Lemma distinct_fresh (k : K) (l : list K) :
  ~ In k l -> filter (differs k) (distinct eqb l) = distinct eqb l.
Proof.
  intros N. apply filter_all. intros x Hx. unfold differs.
  rewrite eqb_neq; [reflexivity|]. intros ->. apply N, distinct_in, Hx.
Qed.

Lemma distinct_run (k : K) (ks rest : list K) :
  Forall (eq k) ks ->
  filter (differs k) (distinct eqb (ks ++ rest))
  = filter (differs k) (distinct eqb rest).
Proof.
  induction 1 as [|x ks <- _ IH]; simpl; [reflexivity|].
  unfold differs at 1. rewrite eqb_refl. simpl.
  fold (differs k). rewrite filter_twice. exact IH.
Qed.

Lemma chunks_keys (k : K) (l : list A) :
  In k (map kf (chunks l)) -> In k (map key l).
Proof.
  intros H. apply in_map_iff in H. destruct H as (r & <- & Hr).
  apply in_flat_map in Hr. destruct Hr as (a & Ha & Hr).
  apply in_map_iff in Hr. destruct Hr as (b & <- & _).
  rewrite kf_mk. now apply in_map.
Qed.

Lemma group_by_chunks (l : list A) :
  NoDup (map key l) -> group_by eqb kf (chunks l) = per_key l.
Proof.
  induction l as [|a l IH]; intros ND; [reflexivity|].
  inversion ND as [|? ? Ha ND']; subst. specialize (IH ND').
  unfold chunks, per_key in *. cbn [flat_map].
  destruct (rows_of a) as [|b bs] eqn:Rows; [exact IH|].
  set (J := flat_map (fun a0 => map (mk a0) (rows_of a0)) l) in *.
  assert (Fresh : ~ In (key a) (map kf J)) by (intros H; apply Ha, chunks_keys, H).
  set (chunk := map (mk a) (b :: bs)).
  assert (Hchunk : forall r, In r chunk -> kf r = key a).
  { intros r Hr. apply in_map_iff in Hr. destruct Hr as (x & <- & _). apply kf_mk. }
  assert (D : distinct eqb (map kf (chunk ++ J)) = key a :: distinct eqb (map kf J)).
  { unfold chunk. simpl. rewrite kf_mk. f_equal. fold (differs (key a)).
    rewrite map_app, distinct_run; [apply distinct_fresh, Fresh|].
    rewrite Forall_forall. intros k Hk. apply in_map_iff in Hk.
    destruct Hk as (r & <- & Hr). symmetry. apply Hchunk. unfold chunk. now right. }
  fold chunk. unfold group_by at 1. rewrite D. cbn [map app]. f_equal.
  - f_equal. rewrite filter_app, filter_all, filter_none; [apply app_nil_r | |].
    + intros r Hr. apply eqb_neq. intros E. apply Fresh. rewrite E.
      now apply in_map.
    + intros r Hr. rewrite (Hchunk r Hr). apply eqb_refl.
  - transitivity (group_by eqb kf J); [|exact IH].
    unfold group_by. apply map_ext_in. intros k Hk. f_equal.
    assert (N : k <> key a) by (intros ->; apply Fresh, distinct_in, Hk).
    rewrite filter_app, filter_none; [reflexivity|].
    intros r Hr. rewrite (Hchunk r Hr). now apply eqb_neq.
Qed.

End Grouping.

End RelFacts.

(** * The two computations of the repeat-customers KPI *)

Module RepeatFacts.
Import Rel RelFacts.

Fixpoint nodupb (l : list string) : bool :=
  match l with
  | [] => true
  | x :: rest => (negb (existsb (String.eqb x) rest) && nodupb rest)%bool
  end.

Definition customer_ok (c : Customer.t) : bool :=
  (Pandas.has_value (Customer.customer_name c)
   && Pandas.has_value (Customer.mobile_number c)
   && Pandas.has_value (Customer.region c))%bool.

Definition order_ok (o : Order.t) : bool :=
  (Pandas.has_value (Order.mobile_number o)
   && Pandas.has_value (Order.order_date_time o)
   && Pandas.has_value (Order.sku_id o)
   && Pandas.has_value (Order.sku_count o)
   && Pandas.has_value (Order.total_amount o))%bool.

(** A dataset that respects the data model: the keys are unique and every
    field holds a value. *)
Definition valid_dataset (cs : list Customer.t) (os : list Order.t) : bool :=
  (nodupb (map Customer.customer_id cs) && nodupb (map Order.order_id os)
   && forallb customer_ok cs && forallb order_ok os)%bool.

(** The key of [ORDER BY order_count DESC, total_spent DESC]. *)
Definition sort_key (r : RepeatRow.t) : Z * option Z :=
  (RepeatRow.order_count r, RepeatRow.total_spent r).

Definition key_ge (a b : Z * option Z) : bool :=
  ((fst b <? fst a)
   || ((fst a =? fst b) && opt_leb Z.leb (snd b) (snd a)))%bool.

Lemma nodupb_NoDup (l : list string) : nodupb l = true -> NoDup l.
Proof.
  induction l as [|x l IH]; simpl; intros H; [constructor|].
  apply andb_prop in H. destruct H as [H1 H2]. constructor; [|auto].
  intros Hin. apply StoreFacts.existsb_eqb_In in Hin. rewrite Hin in H1. discriminate.
Qed.

Lemma before_key (x y : RepeatRow.t) :
  RepeatRow.before x y = key_ge (sort_key x) (sort_key y).
Proof. reflexivity. Qed.

Ltac key_cases :=
  unfold key_ge, opt_leb; simpl;
  repeat match goal with
         | o : option Z |- _ => destruct o
         end;
  rewrite ?orb_true_iff, ?andb_true_iff, ?Z.ltb_lt, ?Z.eqb_eq, ?Z.leb_le.

Lemma key_ge_total (a b : Z * option Z) : key_ge a b = true \/ key_ge b a = true.
Proof.
  destruct a as [a1 a2], b as [b1 b2]. key_cases; try lia.
  all: destruct (Z.lt_trichotomy a1 b1) as [H | [H | H]]; try lia.
  all: try (left; right; split; [lia | congruence]).
  all: tauto.
Qed.

Lemma key_ge_trans (a b c : Z * option Z) :
  key_ge a b = true -> key_ge b c = true -> key_ge a c = true.
Proof.
  destruct a as [a1 a2], b as [b1 b2], c as [c1 c2]. key_cases;
    try lia; try tauto; intuition (try lia; try congruence).
Qed.

Lemma opt_leb_antisym (x y : option Z) :
  opt_leb Z.leb x y = true -> opt_leb Z.leb y x = true -> x = y.
Proof.
  destruct x as [x|], y as [y|]; simpl; try discriminate; try reflexivity.
  rewrite !Z.leb_le. intros. f_equal. lia.
Qed.

Lemma key_ge_antisym (a b : Z * option Z) :
  key_ge a b = true -> key_ge b a = true -> a = b.
Proof.
  destruct a as [a1 a2], b as [b1 b2]. unfold key_ge. simpl.
  rewrite !orb_true_iff, !andb_true_iff, !Z.ltb_lt, !Z.eqb_eq.
  intros [H1 | [E1 L1]] [H2 | [E2 L2]]; try lia.
  subst. f_equal. now apply opt_leb_antisym.
Qed.

(** ** Both computations, customer by customer *)

Definition matches (os : list Order.t) (c : Customer.t) : list Order.t :=
  filter (Sql.same_mobile c) os.

Definition row_of (c : Customer.t) (ms : list Order.t) : RepeatRow.t :=
  RepeatRow.make (Customer.customer_id c) (Customer.customer_name c)
                 (count ms) (sql_sum (map Order.total_amount ms)).

(** The customers that have an order, each with the number and the sum of
    its orders. *)
Definition per_customer (cs : list Customer.t) (os : list Order.t)
  : list RepeatRow.t :=
  flat_map (fun c => match matches os c with
                     | [] => []
                     | ms => [row_of c ms]
                     end) cs.

Definition having (r : RepeatRow.t) : bool := 1 <? RepeatRow.order_count r.

Lemma map_flat_map {X Y Z : Type} (f : Y -> Z) (g : X -> list Y) (l : list X) :
  map f (flat_map g l) = flat_map (fun x => map f (g x)) l.
Proof.
  induction l as [|x l IH]; simpl; [reflexivity|]. now rewrite map_app, IH.
Qed.

Lemma flat_map_flat_map {X Y Z : Type} (f : Y -> list Z) (g : X -> list Y)
      (l : list X) :
  flat_map f (flat_map g l) = flat_map (fun x => flat_map f (g x)) l.
Proof.
  induction l as [|x l IH]; simpl; [reflexivity|]. now rewrite flat_map_app, IH.
Qed.

Lemma flat_map_ext_in {X Y : Type} (f g : X -> list Y) (l : list X) :
  (forall x, In x l -> f x = g x) -> flat_map f l = flat_map g l.
Proof.
  induction l as [|x l IH]; simpl; intros H; [reflexivity|].
  rewrite (H x (or_introl eq_refl)), IH; [reflexivity|]. intros; apply H; now right.
Qed.

Lemma opt_string_eqb_spec (a b : option string) :
  opt_eqb String.eqb a b = true <-> a = b.
Proof.
  destruct a as [a|], b as [b|]; simpl; try (split; [discriminate | discriminate]);
    try tauto.
  rewrite String.eqb_eq. split; [now intros -> | now intros [= ->]].
Qed.

Lemma pair_eqb_spec {X Y : Type} (ex : X -> X -> bool) (ey : Y -> Y -> bool) :
  (forall a b, ex a b = true <-> a = b) ->
  (forall a b, ey a b = true <-> a = b) ->
  forall a b, Sql.pair_eqb ex ey a b = true <-> a = b.
Proof.
  intros Hx Hy [a1 a2] [b1 b2]. unfold Sql.pair_eqb. simpl.
  rewrite andb_true_iff, Hx, Hy. split; [now intros [-> ->] | now intros [= -> ->]].
Qed.

Lemma NoDup_of_fst {X Y : Type} (f : X -> Y) (g : X -> Y * option string) (l : list X) :
  (forall x, fst (g x) = f x) -> NoDup (map f l) -> NoDup (map g l).
Proof.
  intros E ND. apply (NoDup_map_inv fst). rewrite map_map.
  erewrite map_ext; [exact ND | exact E].
Qed.

Lemma sql_repeat_customers_eq (cs : list Customer.t) (os : list Order.t) :
  NoDup (map Customer.customer_id cs) ->
  Sql.repeat_customers cs os
  = sort RepeatRow.before (filter having (per_customer cs os)).
Proof.
  intros ND. unfold Sql.repeat_customers.
  change (inner_join Sql.same_mobile cs os)
    with (chunks (@pair Customer.t Order.t) (matches os) cs).
  rewrite (group_by_chunks
             (Sql.pair_eqb String.eqb Sql.name_eqb)
             (pair_eqb_spec _ _ String.eqb_eq opt_string_eqb_spec)
             (fun c => (Customer.customer_id c, Customer.customer_name c))
             pair _ (fun _ _ => eq_refl) (matches os) cs).
  2:{ apply (NoDup_of_fst Customer.customer_id); [reflexivity | exact ND]. }
  unfold per_key. rewrite map_flat_map. f_equal. f_equal.
  apply flat_map_ext. intros c. destruct (matches os c) as [|o ms]; [reflexivity|].
  set (l := o :: ms). cbn [map fst snd].
  unfold row_of, count. rewrite map_map, length_map. reflexivity.
Qed.

Definition name_of (c : Customer.t) : string :=
  Pandas.value_or "" (Customer.customer_name c).

Definition frame_key (c : Customer.t) : string * string :=
  (Customer.customer_id c, name_of c).

Definition frame_row (c : Customer.t) (o : Order.t) : string * string * Order.t :=
  (frame_key c, o).

Lemma same_key_filter (os : list Order.t) (c : Customer.t) :
  forallb order_ok os = true ->
  filter (Pandas.same_key c) os = matches os c.
Proof.
  intros V. apply filter_ext_in. intros o Ho.
  rewrite forallb_forall in V. specialize (V o Ho). unfold order_ok in V.
  unfold Pandas.same_key, Sql.same_mobile.
  destruct (Order.mobile_number o); [|discriminate V].
  destruct (Customer.mobile_number c); reflexivity.
Qed.

Lemma sql_sum_present (l : list (option Z)) :
  l <> [] -> forallb Pandas.has_value l = true ->
  sql_sum l = Some (Pandas.agg_sum l).
Proof.
  destruct l as [|[v|] l]; simpl; intros N V; try congruence; try discriminate.
  reflexivity.
Qed.

Lemma matches_amounts (os : list Order.t) (c : Customer.t) :
  forallb order_ok os = true ->
  forallb Pandas.has_value (map Order.total_amount (matches os c)) = true.
Proof.
  intros V. rewrite forallb_forall in *. intros a Ha.
  apply in_map_iff in Ha. destruct Ha as (o & <- & Ho).
  apply filter_In in Ho. destruct Ho as [Ho _]. specialize (V o Ho).
  unfold order_ok in V. destruct (Order.total_amount o); [reflexivity|].
  rewrite !andb_false_r in V. discriminate.
Qed.

(** On a valid dataset with rows in both tables the data-frame computation
    succeeds, and before the final sort it holds the rows of the query in
    another order. *)
Lemma pandas_repeat_customers_perm (cs : list Customer.t) (os : list Order.t) :
  valid_dataset cs os = true -> cs <> [] -> os <> [] ->
  exists rows,
    Pandas.repeat_customers cs os
    = inr (sort RepeatRow.before (filter having rows))
    /\ Permutation rows (per_customer cs os).
Proof.
  intros V Hc Ho. unfold valid_dataset in V.
  apply andb_prop in V. destruct V as [V Vo].
  apply andb_prop in V. destruct V as [V Vc].
  apply andb_prop in V. destruct V as [Vid _].
  apply nodupb_NoDup in Vid.
  unfold Pandas.repeat_customers, Pandas.merge_inner.
  destruct cs as [|c0 cs']; [congruence|]. destruct os as [|o0 os']; [congruence|].
  set (cs := c0 :: cs') in *. set (os := o0 :: os') in *.
  eexists. split; [reflexivity|].
  unfold Pandas.groupby.
  eapply perm_trans; [apply Permutation_map, sort_perm|].
  assert (B : inner_join Pandas.same_key cs os
              = chunks (@pair Customer.t Order.t) (matches os) cs).
  { unfold inner_join, chunks. apply flat_map_ext. intros c.
    now rewrite same_key_filter. }
  rewrite B. clear B.
  assert (C : flat_map
                (fun co : Customer.t * Order.t =>
                   match Customer.customer_name (fst co) with
                   | Some n => [(Customer.customer_id (fst co), n, snd co)]
                   | None => []
                   end) (chunks pair (matches os) cs)
              = chunks frame_row (matches os) cs).
  { unfold chunks. rewrite flat_map_flat_map. apply flat_map_ext_in. intros c Hin.
    rewrite forallb_forall in Vc. specialize (Vc c Hin). unfold customer_ok in Vc.
    induction (matches os c) as [|o ms IH]; [reflexivity|].
    cbn [map flat_map fst snd]. rewrite IH. unfold frame_row, frame_key, name_of.
    destruct (Customer.customer_name c); [reflexivity | discriminate Vc]. }
  rewrite C. clear C.
  rewrite (group_by_chunks
             (Sql.pair_eqb String.eqb String.eqb)
             (pair_eqb_spec _ _ String.eqb_eq String.eqb_eq)
             frame_key frame_row fst (fun _ _ => eq_refl) (matches os) cs).
  2:{ apply (NoDup_map_inv fst). rewrite map_map. exact Vid. }
  unfold per_key, per_customer. rewrite map_flat_map.
  erewrite flat_map_ext_in; [apply Permutation_refl|].
  intros c Hin. rewrite forallb_forall in Vc. specialize (Vc c Hin).
  unfold customer_ok in Vc.
  pose proof (matches_amounts os c Vo) as Va.
  destruct (matches os c) as [|o ms]; [reflexivity|].
  set (l := o :: ms) in *. cbn [map fst snd].
  unfold row_of, count, frame_key, name_of.
  rewrite map_map, length_map. cbn [snd].
  rewrite (sql_sum_present (map Order.total_amount l)); [|discriminate | exact Va].
  destruct (Customer.customer_name c); [reflexivity | discriminate Vc].
Qed.

End RepeatFacts.

(** * The two computations of the regional-revenue KPI *)

Module RegionalFacts.
Import Rel RelFacts RepeatFacts.

Section Groups.
Context {A K : Type}.
Variable eqb : K -> K -> bool.
Hypothesis eqb_spec : forall a b, eqb a b = true <-> a = b.
Variable key : A -> K.

Lemma distinct_complete (k : K) (l : list K) : In k l -> In k (distinct eqb l).
Proof.
  induction l as [|x l IH]; simpl; [tauto|].
  intros [-> | H]; [now left|].
  destruct (eqb x k) eqn:E.
  - left. now apply eqb_spec.
  - right. apply filter_In. split; [auto | now rewrite E].
Qed.

(** Every row lies in the group of its key. *)
Lemma group_by_in (r : A) (rows : list A) :
  In r rows ->
  In (key r, filter (fun x => eqb (key r) (key x)) rows) (group_by eqb key rows).
Proof.
  intros H. unfold group_by.
  apply (in_map (fun k => (k, filter (fun x => eqb k (key x)) rows))).
  apply distinct_complete, in_map, H.
Qed.
End Groups.

Lemma somes_all_none {A : Type} (l : list (option A)) :
  (forall x, In x l -> x = None) -> somes l = [].
Proof.
  induction l as [|x l IH]; intros H; [reflexivity|].
  unfold somes in *. simpl. rewrite (H x (or_introl eq_refl)). simpl.
  apply IH. intros; apply H; now right.
Qed.

Lemma opt_leb_total (x y : option Z) :
  opt_leb Z.leb x y = true \/ opt_leb Z.leb y x = true.
Proof.
  destruct x, y; simpl; auto. rewrite !Z.leb_le. lia.
Qed.

Lemma opt_leb_trans (x y z : option Z) :
  opt_leb Z.leb x y = true -> opt_leb Z.leb y z = true -> opt_leb Z.leb x z = true.
Proof.
  destruct x, y, z; simpl; auto; try discriminate. rewrite !Z.leb_le. lia.
Qed.

(** Both results are in the order of [before]: total revenue descending. *)
Lemma regional_sorted (l : list RegionalRow.t) :
  StronglySorted (fun x y => RegionalRow.before x y = true)
                 (sort RegionalRow.before l).
Proof.
  apply (sort_sorted RegionalRow.before); unfold RegionalRow.before; intros.
  - apply opt_leb_total.
  - eapply opt_leb_trans; eassumption.
Qed.

(** No order carries the mobile number of a customer of region [r]. *)
Definition without_orders (cs : list Customer.t) (os : list Order.t) (r : string)
  : Prop :=
  forall c o, In c cs -> Customer.region c = Some r -> In o os ->
              Customer.mobile_number c <> Order.mobile_number o.

Lemma sql_no_match (cs : list Customer.t) (os : list Order.t) (r : string)
      (c : Customer.t) :
  without_orders cs os r -> In c cs -> Customer.region c = Some r ->
  filter (Sql.same_mobile c) os = [].
Proof.
  intros W Hc Hr. apply filter_none. intros o Ho.
  specialize (W c o Hc Hr Ho). unfold Sql.same_mobile, sql_eqb.
  destruct (Customer.mobile_number c) as [m|], (Order.mobile_number o) as [m'|];
    try reflexivity.
  destruct (String.eqb_spec m m'); [congruence | reflexivity].
Qed.

Lemma frame_no_match (cs : list Customer.t) (os : list Order.t) (r : string)
      (c : Customer.t) :
  without_orders cs os r -> In c cs -> Customer.region c = Some r ->
  filter (Pandas.same_key c) os = [].
Proof.
  intros W Hc Hr. apply filter_none. intros o Ho.
  specialize (W c o Hc Hr Ho). unfold Pandas.same_key, opt_eqb.
  destruct (Customer.mobile_number c) as [m|], (Order.mobile_number o) as [m'|];
    try reflexivity; try congruence.
  destruct (String.eqb_spec m m'); [congruence | reflexivity].
Qed.

Lemma left_join_unmatched {A B : Type} (on : A -> B -> bool) (l : list A)
      (r : list B) (a : A) (x : option B) :
  filter (on a) r = [] -> In (a, x) (left_join on l r) -> x = None.
Proof.
  intros E H. unfold left_join in H. apply in_flat_map in H.
  destruct H as (a' & _ & H).
  destruct (filter (on a') r) as [|b bs] eqn:F.
  - destruct H as [E' | []]. injection E' as Ea Ex. now subst.
  - apply in_map_iff in H. destruct H as (b' & E' & Hb).
    injection E' as Ea Ex. subst. rewrite E in F. discriminate.
Qed.

Lemma left_join_keeps {A B : Type} (on : A -> B -> bool) (l : list A)
      (r : list B) (a : A) :
  In a l -> filter (on a) r = [] -> In (a, None) (left_join on l r).
Proof.
  intros Ha E. unfold left_join. apply in_flat_map. exists a.
  split; [exact Ha|]. rewrite E. now left.
Qed.

Lemma left_join_left {A B : Type} (on : A -> B -> bool) (l : list A)
      (r : list B) (a : A) (x : option B) :
  In (a, x) (left_join on l r) -> In a l.
Proof.
  intros H. unfold left_join in H. apply in_flat_map in H.
  destruct H as (a' & Ha & H).
  destruct (filter (on a') r) as [|b bs].
  - destruct H as [E' | []]. injection E' as Ea _. now subst.
  - apply in_map_iff in H. destruct H as (b' & E' & _).
    injection E' as Ea _. now subst.
Qed.

(** The query yields a row for the region, with NULL as total revenue. *)
Lemma sql_region_null (cs : list Customer.t) (os : list Order.t) (r : string) :
  (exists c, In c cs /\ Customer.region c = Some r) ->
  without_orders cs os r ->
  exists row,
    In row (Sql.regional_revenue cs os)
    /\ RegionalRow.region row = Some r
    /\ RegionalRow.total_orders row = 0
    /\ RegionalRow.total_revenue row = None.
Proof.
  intros (c & Hc & Hr) W. unfold Sql.regional_revenue.
  set (joined := left_join Sql.same_mobile cs os).
  assert (Hin : In (c, None) joined)
    by (apply left_join_keeps; [exact Hc | eapply sql_no_match; eassumption]).
  pose proof (group_by_in Sql.name_eqb opt_string_eqb_spec
                          (fun co : Customer.t * option Order.t =>
                             Customer.region (fst co)) _ _ Hin) as G.
  cbn [fst] in G. rewrite Hr in G.
  set (g := filter _ joined) in G.
  assert (Hg : forall co, In co g -> snd co = None).
  { intros [c' x] Hco. apply filter_In in Hco. destruct Hco as [Hj Hk].
    cbn [fst] in Hk. apply opt_string_eqb_spec in Hk.
    apply (left_join_unmatched Sql.same_mobile cs os c'); [|exact Hj].
    eapply sql_no_match; [exact W | eapply left_join_left; exact Hj | now symmetry]. }
  eexists. split; [apply sort_in; apply in_map; exact G|].
  cbn [RegionalRow.region RegionalRow.total_orders RegionalRow.total_revenue fst snd].
  split; [reflexivity|]. split.
  - unfold count. rewrite somes_all_none; [reflexivity|].
    intros x Hx. apply in_map_iff in Hx. destruct Hx as (co & <- & Hco). auto.
  - unfold sql_sum. rewrite somes_all_none; [reflexivity|].
    intros x Hx. apply in_map_iff in Hx. destruct Hx as (co & <- & Hco).
    rewrite (Hg co Hco). reflexivity.
Qed.

(** The data-frame computation yields a row for the region, with 0. *)
Lemma frame_region_zero (cs : list Customer.t) (os : list Order.t) (r : string) :
  (exists c, In c cs /\ Customer.region c = Some r) ->
  without_orders cs os r ->
  os <> [] ->
  exists rows row,
    Pandas.regional_revenue cs os = inr (sort RegionalRow.before rows)
    /\ In row (sort RegionalRow.before rows)
    /\ RegionalRow.region row = Some r
    /\ RegionalRow.total_orders row = 0
    /\ RegionalRow.total_revenue row = Some 0.
Proof.
  intros (c & Hc & Hr) W Ho. unfold Pandas.regional_revenue, Pandas.merge_left.
  destruct cs as [|c0 cs']; [contradiction|]. destruct os as [|o0 os']; [congruence|].
  set (cs := c0 :: cs') in *. set (os := o0 :: os') in *.
  set (merged := left_join Pandas.same_key cs os).
  set (keyed := flat_map _ merged).
  assert (Hin : In (r, (c, None)) keyed).
  { unfold keyed. apply in_flat_map. exists (c, None). split.
    - apply left_join_keeps; [exact Hc | eapply frame_no_match; eassumption].
    - cbn [fst]. rewrite Hr. now left. }
  pose proof (group_by_in String.eqb String.eqb_eq
                          (@fst string (Customer.t * option Order.t)) _ _ Hin) as G.
  cbn [fst] in G. set (g := filter _ keyed) in G.
  assert (Hg : forall rco, In rco g -> snd (snd rco) = None).
  { intros [r' [c' x]] Hrco. apply filter_In in Hrco. destruct Hrco as [Hk Hr'].
    cbn [fst] in Hr'. apply String.eqb_eq in Hr'. subst r'.
    unfold keyed in Hk. apply in_flat_map in Hk. destruct Hk as ([c'' x'] & Hj & Hk).
    cbn [fst] in Hk. destruct (Customer.region c'') as [r''|] eqn:R; [|contradiction].
    destruct Hk as [[= -> -> ->] | []]. cbn [snd].
    apply (left_join_unmatched Pandas.same_key cs os c'); [|exact Hj].
    eapply frame_no_match; [exact W | eapply left_join_left; exact Hj | exact R]. }
  eexists. eexists. split; [reflexivity|].
  split; [apply sort_in; apply in_map; unfold Pandas.groupby; apply sort_in; exact G|].
  cbn [RegionalRow.region RegionalRow.total_orders RegionalRow.total_revenue fst snd].
  split; [reflexivity|]. split.
  - unfold count. rewrite somes_all_none; [reflexivity|].
    intros x Hx. apply in_map_iff in Hx. destruct Hx as (rco & <- & Hrco). auto.
  - unfold Pandas.agg_sum. rewrite somes_all_none; [reflexivity|].
    intros x Hx. apply in_map_iff in Hx. destruct Hx as (rco & <- & Hrco).
    rewrite (Hg rco Hrco). reflexivity.
Qed.

End RegionalFacts.

(** * Grouping as a partition, and the order of strings *)

Module GroupFacts.
Import Rel RelFacts.

Lemma zsum_app (l l' : list Z) : zsum (l ++ l') = zsum l + zsum l'.
Proof. induction l as [|x l IH]; simpl; [reflexivity | rewrite IH; lia]. Qed.

Lemma zsum_perm (l l' : list Z) : Permutation l l' -> zsum l = zsum l'.
Proof.
  induction 1 as [| x l l' P IH | x y l | l l' l'' P1 IH1 P2 IH2]; simpl; lia.
Qed.

Lemma somes_app {X : Type} (l l' : list (option X)) :
  somes (l ++ l') = (somes l ++ somes l')%list.
Proof. apply flat_map_app. Qed.

Lemma somes_perm {X : Type} (l l' : list (option X)) :
  Permutation l l' -> Permutation (somes l) (somes l').
Proof.
  induction 1 as [| x l l' P IH | x y l | l l' l'' P1 IH1 P2 IH2].
  - constructor.
  - unfold somes in *. simpl. now apply Permutation_app_head.
  - unfold somes. simpl. rewrite !app_assoc.
    apply Permutation_app_tail, Permutation_app_comm.
  - eapply perm_trans; eassumption.
Qed.

Lemma filter_disjoint_perm {X : Type} (p q : X -> bool) (l : list X) :
  (forall x, p x = true -> q x = false) ->
  Permutation (filter p l ++ filter q l) (filter (fun x => p x || q x)%bool l).
Proof.
  intros D. induction l as [|x l IH]; simpl; [constructor|].
  destruct (p x) eqn:P; simpl.
  - rewrite (D x P). now constructor.
  - destruct (q x); [|exact IH].
    eapply perm_trans; [apply Permutation_sym, Permutation_middle|].
    now constructor.
Qed.

Section Partition.
Context {A K : Type}.
Variable eqb : K -> K -> bool.
Hypothesis eqb_spec : forall a b, eqb a b = true <-> a = b.
Variable key : A -> K.

Lemma distinct_NoDup (l : list K) : NoDup (distinct eqb l).
Proof.
  induction l as [|x l IH]; simpl; constructor.
  - intros H. apply filter_In in H. destruct H as [_ H].
    rewrite (proj2 (eqb_spec x x) eq_refl) in H. discriminate.
  - now apply NoDup_filter.
Qed.

Lemma group_by_keys (rows : list A) :
  map fst (group_by eqb key rows) = distinct eqb (map key rows).
Proof. unfold group_by. rewrite map_map. simpl. apply map_id. Qed.

Lemma selected_perm (rows : list A) (ks : list K) :
  NoDup ks ->
  Permutation
    (flat_map (fun k => filter (fun r => eqb k (key r)) rows) ks)
    (filter (fun r => existsb (fun k => eqb k (key r)) ks) rows).
Proof.
  induction 1 as [|k ks Hk ND IH]; simpl.
  - rewrite (filter_none (fun _ => false)); [constructor | reflexivity].
  - eapply perm_trans; [apply Permutation_app_head, IH|].
    apply (filter_disjoint_perm (fun r => eqb k (key r))
                                (fun r => existsb (fun k0 => eqb k0 (key r)) ks)).
    intros r E. apply eqb_spec in E. subst k.
    destruct (existsb _ ks) eqn:X; [|reflexivity].
    apply existsb_exists in X. destruct X as (k0 & H0 & E0).
    apply eqb_spec in E0. subst k0. contradiction.
Qed.

(** The groups hold every row once. *)
Lemma group_by_perm (rows : list A) :
  Permutation (flat_map snd (group_by eqb key rows)) rows.
Proof.
  unfold group_by. rewrite flat_map_concat_map, map_map, <- flat_map_concat_map.
  simpl. eapply perm_trans; [apply selected_perm, distinct_NoDup|].
  rewrite filter_all; [apply Permutation_refl|].
  intros r Hr. apply existsb_exists. exists (key r). split.
  - apply (RegionalFacts.distinct_complete eqb eqb_spec), in_map, Hr.
  - now apply eqb_spec.
Qed.

(** A group is not empty and holds rows of its key only. *)
Lemma group_by_members (k : K) (g : list A) (rows : list A) :
  In (k, g) (group_by eqb key rows) ->
  g <> [] /\ g = filter (fun r => eqb k (key r)) rows
  /\ forall r, In r g -> key r = k /\ In r rows.
Proof.
  unfold group_by. intros H. apply in_map_iff in H.
  destruct H as (k0 & E & Hk). injection E as <- <-.
  apply distinct_in, in_map_iff in Hk. destruct Hk as (r & <- & Hr).
  split; [|split; [reflexivity|]].
  - intros N. assert (Hin : In r (filter (fun x => eqb (key r) (key x)) rows)).
    { apply filter_In. split; [exact Hr | now apply eqb_spec]. }
    rewrite N in Hin. contradiction.
  - intros x Hx. apply filter_In in Hx. destruct Hx as [Hx E].
    apply eqb_spec in E. auto.
Qed.
End Partition.

Lemma count_groups {A K : Type} (groups : list (K * list A)) :
  zsum (map (fun g => count (snd g)) groups) = count (flat_map snd groups).
Proof.
  unfold count. induction groups as [|g groups IH]; simpl; [reflexivity|].
  rewrite length_app, IH. lia.
Qed.

Lemma sum_groups {A K : Type} (f : A -> option Z) (groups : list (K * list A)) :
  zsum (map (fun g => zsum (somes (map f (snd g)))) groups)
  = zsum (somes (map f (flat_map snd groups))).
Proof.
  induction groups as [|g groups IH]; simpl; [reflexivity|].
  now rewrite map_app, somes_app, zsum_app, IH.
Qed.

(** Adding up the [SUM]s of the groups: a NULL adds nothing. *)
Lemma sum_of_sql_sums (l : list (list (option Z))) :
  zsum (somes (map sql_sum l)) = zsum (map (fun x => zsum (somes x)) l).
Proof.
  induction l as [|x l IH]; [reflexivity|].
  cbn [map]. change (somes (sql_sum x :: map sql_sum l))
    with ((match sql_sum x with Some a => [a] | None => [] end)
          ++ somes (map sql_sum l))%list.
  rewrite zsum_app, IH. cbn [zsum fold_right]. f_equal.
  unfold sql_sum. destruct (somes x); simpl; lia.
Qed.

(** ** The order of strings *)

Lemma ascii_compare_lt (a b : ascii) :
  Ascii.compare a b = Lt <-> (N_of_ascii a < N_of_ascii b)%N.
Proof. unfold Ascii.compare. apply N.compare_lt_iff. Qed.

Lemma ascii_compare_eq (a b : ascii) : Ascii.compare a b = Eq <-> a = b.
Proof.
  split; [apply Ascii.compare_eq_iff|]. intros ->.
  unfold Ascii.compare. apply N.compare_refl.
Qed.

Lemma string_compare_lt_trans (s t u : string) :
  String.compare s t = Lt -> String.compare t u = Lt -> String.compare s u = Lt.
Proof.
  revert t u. induction s as [|a s IH]; intros [|b t] [|c u]; simpl;
    try discriminate; try reflexivity.
  destruct (Ascii.compare a b) eqn:AB; destruct (Ascii.compare b c) eqn:BC;
    intros H1 H2; try discriminate.
  - apply ascii_compare_eq in AB, BC. subst.
    rewrite (proj2 (ascii_compare_eq c c) eq_refl). eapply IH; eauto.
  - apply ascii_compare_eq in AB. subst. now rewrite BC.
  - apply ascii_compare_eq in BC. subst. now rewrite AB.
  - apply (proj1 (ascii_compare_lt a b)) in AB.
    apply (proj1 (ascii_compare_lt b c)) in BC.
    assert (AC : Ascii.compare a c = Lt) by (apply ascii_compare_lt; lia).
    now rewrite AC.
Qed.

Lemma string_compare_refl (s : string) : String.compare s s = Eq.
Proof.
  induction s as [|a s IH]; simpl; [reflexivity|].
  now rewrite (proj2 (ascii_compare_eq a a) eq_refl).
Qed.

Lemma string_leb_trans (s t u : string) :
  String.leb s t = true -> String.leb t u = true -> String.leb s u = true.
Proof.
  unfold String.leb.
  destruct (String.compare s t) eqn:ST; destruct (String.compare t u) eqn:TU;
    intros H1 H2; try discriminate.
  - apply String.compare_eq_iff in ST, TU. subst. now rewrite string_compare_refl.
  - apply String.compare_eq_iff in ST. subst. now rewrite TU.
  - apply String.compare_eq_iff in TU. subst. now rewrite ST.
  - now rewrite (string_compare_lt_trans s t u ST TU).
Qed.

Lemma opt_string_leb_total (x y : option string) :
  opt_leb String.leb x y = true \/ opt_leb String.leb y x = true.
Proof. destruct x, y; simpl; auto. apply String.leb_total. Qed.

Lemma opt_string_leb_trans (x y z : option string) :
  opt_leb String.leb x y = true -> opt_leb String.leb y z = true ->
  opt_leb String.leb x z = true.
Proof.
  destruct x, y, z; simpl; auto; try discriminate. apply string_leb_trans.
Qed.



End GroupFacts.

(** * The two computations of the monthly order trends *)

Module MonthlyFacts.
Import Rel RelFacts GroupFacts.

(** The key of [GROUP BY DATE_FORMAT(order_date_time, '%Y-%m')]. *)
Definition month_of (o : Order.t) : option string :=
  option_map Datetime.month_year (Order.order_date_time o).

Definition sql_row (kg : option string * list Order.t) : MonthlyRow.t :=
  MonthlyRow.make
    (fst kg)
    (count (snd kg))
    (sql_sum (map Order.total_amount (snd kg)))
    (sql_avg (map Order.total_amount (snd kg)))
    (count (distinct String.eqb (somes (map Order.mobile_number (snd kg))))).

Definition sql_groups (os : list Order.t) : list (option string * list Order.t) :=
  group_by Sql.name_eqb month_of os.

Lemma sql_monthly_trends_eq (os : list Order.t) :
  Sql.monthly_trends os = sort MonthlyRow.before (map sql_row (sql_groups os)).
Proof. reflexivity. Qed.

Lemma monthly_sorted (l : list MonthlyRow.t) :
  StronglySorted (fun x y => MonthlyRow.before x y = true)
                 (sort MonthlyRow.before l).
Proof.
  apply (sort_sorted MonthlyRow.before); unfold MonthlyRow.before; intros.
  - apply opt_string_leb_total.
  - eapply opt_string_leb_trans; eassumption.
Qed.

Lemma sql_monthly_rows (os : list Order.t) :
  let rows := Sql.monthly_trends os in
  zsum (map MonthlyRow.total_orders rows) = count os
  /\ zsum (somes (map MonthlyRow.total_revenue rows))
     = zsum (somes (map Order.total_amount os))
  /\ NoDup (map MonthlyRow.month_year rows)
  /\ Forall (fun r => 1 <= MonthlyRow.total_orders r) rows
  /\ StronglySorted (fun x y => MonthlyRow.before x y = true) rows.
Proof.
  intros rows. subst rows. rewrite sql_monthly_trends_eq.
  set (G := sql_groups os). set (L := map sql_row G).
  pose proof (sort_perm MonthlyRow.before L) as P.
  pose proof (group_by_perm Sql.name_eqb RepeatFacts.opt_string_eqb_spec
                            month_of os) as PG.
  fold (sql_groups os) in PG. fold G in PG.
  split; [|split; [|split; [|split]]].
  - rewrite (zsum_perm _ _ (Permutation_map MonthlyRow.total_orders P)).
    unfold L. rewrite map_map. simpl. rewrite count_groups. unfold count.
    now rewrite (Permutation_length PG).
  - rewrite (zsum_perm _ _ (somes_perm _ _ (Permutation_map MonthlyRow.total_revenue P))).
    unfold L. rewrite map_map. simpl.
    rewrite <- (map_map (fun g => map Order.total_amount (snd g)) sql_sum).
    rewrite sum_of_sql_sums, map_map.
    rewrite (sum_groups Order.total_amount G).
    apply zsum_perm, somes_perm, Permutation_map, PG.
  - apply (Permutation_NoDup (Permutation_sym (Permutation_map MonthlyRow.month_year P))).
    unfold L. rewrite map_map. simpl.
    change (map (fun x => fst x) G) with (map fst G).
    unfold G, sql_groups. rewrite group_by_keys.
    apply (distinct_NoDup Sql.name_eqb RepeatFacts.opt_string_eqb_spec).
  - apply Forall_forall. intros r Hr. apply (proj1 (sort_in MonthlyRow.before r L)) in Hr.
    unfold L in Hr. apply in_map_iff in Hr. destruct Hr as ([k g] & <- & Hg).
    apply (group_by_members Sql.name_eqb RepeatFacts.opt_string_eqb_spec month_of) in Hg.
    destruct Hg as (Ne & _). simpl. unfold count.
    destruct g; [congruence | simpl; lia].
  - apply monthly_sorted.
Qed.

(** ** The two engines on the same orders *)







End MonthlyFacts.

(** * The rows of the queries, customer by customer *)

Module RowFacts.
Import Rel RelFacts GroupFacts RepeatFacts.



Lemma repeat_sorted (l : list RepeatRow.t) :
  StronglySorted (fun x y => RepeatRow.before x y = true)
                 (sort RepeatRow.before l).
Proof.
  apply (sort_sorted RepeatRow.before); intros.
  - rewrite !before_key. apply key_ge_total.
  - rewrite !before_key in *. eapply key_ge_trans; eassumption.
Qed.



Definition top_key (co : Customer.t * Order.t)
  : string * option string * option string :=
  (Customer.customer_id (fst co), Customer.customer_name (fst co),
   Customer.region (fst co)).







(** The orders of a customer that the query of the top customers counts:
    those under the mobile number of the customer, dated in the window. *)
Definition recent_orders (now : Datetime.datetime) (days : Z)
           (os : list Order.t) (c : Customer.t) : list Order.t :=
  filter (Sql.recent now days) (filter (Sql.same_mobile c) os).







End RowFacts.

(** * The two computations of the regional revenue and of the top
      customers *)

Module AgreeFacts.
Import Rel RelFacts GroupFacts RepeatFacts MonthlyFacts RowFacts.


(** A row of the regional revenue without its average, a missing sum
    counted as 0. *)
Definition regional_core (r : RegionalRow.t) : option string * Z * Z * Z :=
  (RegionalRow.region r, RegionalRow.customer_count r,
   RegionalRow.total_orders r, Pandas.value_or 0 (RegionalRow.total_revenue r)).









(** ** Top customers *)











End AgreeFacts.

(** * Facts about the memory engine *)

Module MemoryFacts.
Import Value MemoryKpis.

(** [load_data] by the outcome of its two statements and of the
    conversion of the dates. *)
Lemma load_data_eq (self : MemoryBasedKPIEngine) (d : Db.Database) :
  load_data self d
  = match Db.fault d (Db.Read Db.SelectCustomers) with
    | Some _ => (false, self, Db.sent (Db.Read Db.SelectCustomers) d)
    | None =>
        let d1 := Db.sent (Db.Read Db.SelectCustomers) d in
        match Db.fault d (Db.Read Db.SelectOrders) with
        | Some _ =>
            (false,
             mkEngine (Some (Db.customers d)) (orders_df self) (last_loaded self),
             Db.sent (Db.Read Db.SelectOrders) d1)
        | None =>
            if Pandas.dates_convert (Db.orders d) then
              (true,
               mkEngine (Some (Db.customers d)) (Some (Db.orders d))
                        (Some (Db.now d)),
               Db.sent (Db.Read Db.SelectOrders) d1)
            else
              (false,
               mkEngine (Some (Db.customers d)) (Some (Db.orders d))
                        (last_loaded self),
               Db.sent (Db.Read Db.SelectOrders) d1)
        end
    end.
Proof.
  unfold load_data, Db.execute_query.
  destruct (Db.fault d (Db.Read Db.SelectCustomers)) eqn:F1; simpl; [reflexivity|].
  destruct (Db.fault d (Db.Read Db.SelectOrders)) eqn:F2; [reflexivity|].
  cbn [Db.eval Db.sent Db.orders Db.customers Db.now]. cbv zeta.
  destruct (Db.orders d); reflexivity.
Qed.

End MemoryFacts.

Module ValidatorClaims.
Import Py Datetime Validators ValidatorsFacts.

(** C4, as stated, fails: a plus sign that is not leading survives
    normalisation, so the result is not "digits behind an optional leading
    plus sign". *)
Lemma normalize_mobile_number_inner_plus :
  normalize_mobile_number (PStr "1234+5678") = Some "1234+5678"
  /\ plus_only_leading "1234+5678" = false.
Proof. split; reflexivity. Qed.

(** C4 (amended): [normalize_mobile_number] keeps the digits and every plus
    sign of its input, wherever the plus sign stands, and drops all other
    characters; the result is null exactly when fewer than 8 digits remain,
    there is no upper bound on the number of digits, a leading plus sign is
    preserved, ["12345"] gives null and ["+91 98765 43210"] gives
    ["+919876543210"]. *)
Theorem normalize_mobile_number_keeps_digits_and_plus :
  (forall s : string,
      normalize_mobile_number (PStr s) =
        if len (keep is_digit s) <? 8 then None
        else Some (keep digit_or_plus s))
  /\ (forall s : string,
      normalize_mobile_number (PStr (String "+" s)) =
        if len (keep is_digit s) <? 8 then None
        else Some (String "+" (keep digit_or_plus s)))
  /\ normalize_mobile_number (PStr "12345") = None
  /\ normalize_mobile_number (PStr "+91 98765 43210") = Some "+919876543210"
  /\ normalize_mobile_number (PStr "0123456789012345678901234567890123456789")
     = Some "0123456789012345678901234567890123456789".
Proof.
  split; [exact normalize_mobile_number_eq|].
  split; [|repeat split; reflexivity].
  intros s. rewrite normalize_mobile_number_eq. reflexivity.
Qed.

(** C5: without a format argument [validate_datetime] tries the five
    formats ISO-with-seconds, 'YYYY-MM-DD HH:MM:SS', 'YYYY-MM-DD',
    'DD-MM-YYYY', 'DD/MM/YYYY' in this order; it returns the datetime of
    the first format that parses the stripped input and null when none
    does.  "2024-03-15" and "15/03/2024" both give 15 March 2024 00:00:00,
    the latter through the last format only, and "not-a-date" gives
    null. *)
Theorem validate_datetime_first_match (s : string) :
  default_formats = [fmt_iso; fmt_ymd_hms; fmt_ymd; fmt_dmy_dash; fmt_dmy_slash]
  /\ (forall dt : datetime,
        validate_datetime (PStr s) None = Some dt <->
        exists before fmt after,
          default_formats = (before ++ fmt :: after)%list
          /\ Forall (fun f => strptime (strip s) f = None) before
          /\ strptime (strip s) fmt = Some dt)
  /\ (validate_datetime (PStr s) None = None <->
      Forall (fun f => strptime (strip s) f = None) default_formats)
  /\ validate_datetime (PStr "2024-03-15") None
     = Some (mkDatetime 2024 3 15 0 0 0)
  /\ validate_datetime (PStr "15/03/2024") None
     = Some (mkDatetime 2024 3 15 0 0 0)
  /\ Forall (fun f => strptime "15/03/2024" f = None)
            [fmt_iso; fmt_ymd_hms; fmt_ymd; fmt_dmy_dash]
  /\ strptime "15/03/2024" fmt_dmy_slash = Some (mkDatetime 2024 3 15 0 0 0)
  /\ validate_datetime (PStr "not-a-date") None = None.
Proof.
  split; [reflexivity|].
  assert (E : validate_datetime (PStr s) None
              = try_formats (strip s) default_formats).
  { unfold validate_datetime, truthy, str.
    destruct (String.eqb_spec s "") as [->|_]; reflexivity. }
  split; [intros dt; rewrite E; apply try_formats_some|].
  split; [rewrite E; apply try_formats_none|].
  repeat split; try reflexivity.
  repeat constructor.
Qed.

End ValidatorClaims.

Module ValidationClaims.
Import Py LoaderFacts PipelineResult.

Lemma process_csv_aborts (fs : CsvLoader.files) (path mode : string)
      (d : Db.Database) (df : CsvLoader.frame) :
  CsvLoader.load_csv fs path = Some df ->
  CsvLoader.missing_cols df = [] ->
  Exists (fun r => csv_invalid r = true) (CsvLoader.rows df) ->
  let out := CsvLoader.process_csv fs (Some path) mode d in
  success (fst out) = false /\ records_loaded (fst out) = 0 /\ snd out = d.
Proof.
  intros Hl Hc Hx. unfold CsvLoader.process_csv. rewrite Hl.
  unfold CsvLoader.validate_dataframe. rewrite Hc.
  destruct (CsvLoader.items df) as [|it its] eqn:I.
  - apply items_nil in I. rewrite I in Hx. inversion Hx.
  - rewrite <- I.
    destruct (CsvLoader.validate_rows (CsvLoader.items df) []) as [e|errs] eqn:V;
      [repeat split|].
    apply validate_rows_length in V. fold (CsvLoader.rows df) in V.
    pose proof (exists_filter_nonempty _ _ Hx) as N.
    destruct errs as [|m ms].
    + simpl in V. symmetry in V. apply length_zero_iff_nil in V. contradiction.
    + repeat split.
Qed.

Lemma process_csv_errors (fs : CsvLoader.files) (path mode : string)
      (d : Db.Database) (df : CsvLoader.frame) (zrs : list (Z * CsvLoader.row)) :
  CsvLoader.load_csv fs path = Some df ->
  CsvLoader.missing_cols df = [] ->
  Exists (fun r => csv_invalid r = true) (CsvLoader.rows df) ->
  CsvLoader.items df = map int_label zrs ->
  errors (fst (CsvLoader.process_csv fs (Some path) mode d))
  = map csv_message (filter (fun ir => csv_invalid (snd ir)) zrs).
Proof.
  intros Hl Hc Hx Hi.
  assert (N : filter (fun ir => csv_invalid (snd ir)) zrs <> []).
  { unfold CsvLoader.rows in Hx. rewrite Hi, map_map in Hx. simpl in Hx.
    apply Exists_exists in Hx. destruct Hx as (r & Hr & Hv).
    apply in_map_iff in Hr. destruct Hr as (ir & <- & Hin).
    intros E. assert (K : In ir (filter (fun ir => csv_invalid (snd ir)) zrs))
      by (apply filter_In; auto).
    rewrite E in K. exact K. }
  unfold CsvLoader.process_csv. rewrite Hl.
  unfold CsvLoader.validate_dataframe. rewrite Hc.
  destruct (CsvLoader.items df) as [|it its] eqn:I.
  - apply items_nil in I. rewrite I in Hx. inversion Hx.
  - rewrite Hi, validate_rows_int. simpl app.
    destruct (filter _ zrs); [congruence | reflexivity].
Qed.

(** C3: when a row of the input fails field validation, the pipeline
    ([process_csv], [process_xml]) returns success=false with
    records_loaded=0 and sends nothing to the store, which stays as it was.
    [process_xml] returns one message for each invalid order, for all of
    them and in file order, the order at position [i] (from 0) numbered
    [i + 1].  [process_csv] numbers a row by its index label plus 2, not
    by its position.  With the default index the label is the position,
    and the messages are one for each invalid row, the row at position [i]
    numbered [i + 2]; a row with an integer label [z] is numbered [z + 2]
    wherever it stands in the file.  When the labels are strings, the
    first invalid row raises [TypeError] in [validate_dataframe] and the
    errors are that one message alone, which names no row, however many
    rows are invalid. *)
Theorem validation_reports_rows_by_label :
  (forall (fs : CsvLoader.files) (path mode : string) (d : Db.Database)
          (df : CsvLoader.frame),
      CsvLoader.load_csv fs path = Some df ->
      CsvLoader.missing_cols df = [] ->
      Exists (fun r => csv_invalid r = true) (CsvLoader.rows df) ->
      let out := CsvLoader.process_csv fs (Some path) mode d in
      success (fst out) = false
      /\ records_loaded (fst out) = 0
      /\ snd out = d
      /\ (default_index df ->
          errors (fst out) = csv_messages (CsvLoader.rows df)
          /\ length (errors (fst out))
             = length (filter csv_invalid (CsvLoader.rows df)))
      /\ (forall zrs : list (Z * CsvLoader.row),
            CsvLoader.items df = map int_label zrs ->
            errors (fst out)
            = map (fun ir => "Row " ++ dec (fst ir + 2) ++ ": "
                             ++ join ", " (CsvLoader.row_errors (snd ir)))
                  (filter (fun ir => csv_invalid (snd ir)) zrs))
      /\ (Forall (fun it => exists s, fst it = PStr s) (CsvLoader.items df) ->
          errors (fst out) = [CsvLoader.cannot_add_to_str]))
  /\ (forall (N : Numeric) (fs : XmlLoader.files) (path mode : string)
             (d : Db.Database) (os : list XmlLoader.order),
      XmlLoader.load_xml fs path = Some os ->
      Exists (fun o => xml_invalid o = true) os ->
      let out := XmlLoader.process_xml fs (Some path) mode d in
      success (fst out) = false
      /\ records_loaded (fst out) = 0
      /\ snd out = d
      /\ errors (fst out) = xml_messages os
      /\ length (errors (fst out)) = length (filter xml_invalid os)).
Proof.
  split.
  - intros fs path mode d df Hl Hc Hx out.
    destruct (process_csv_aborts fs path mode d df Hl Hc Hx) as (A & B & C).
    split; [exact A|]. split; [exact B|]. split; [exact C|].
    split; [|split].
    + intros Hd. subst out. unfold CsvLoader.process_csv.
      rewrite Hl, (validate_dataframe_invalid df Hd Hc Hx). simpl.
      split; [reflexivity|]. unfold csv_messages.
      rewrite length_map. apply (filter_enumerate_length csv_invalid).
    + intros zrs Hi. exact (process_csv_errors fs path mode d df zrs Hl Hc Hx Hi).
    + intros Hs. subst out. unfold CsvLoader.process_csv. rewrite Hl.
      unfold CsvLoader.validate_dataframe. rewrite Hc.
      destruct (CsvLoader.items df) as [|it its] eqn:I.
      * apply items_nil in I. rewrite I in Hx. inversion Hx.
      * rewrite <- I in *. rewrite validate_rows_str; [reflexivity| |].
        -- eapply Forall_impl; [|exact Hs]. intros x [s ->]. reflexivity.
        -- unfold CsvLoader.rows in Hx. apply Exists_exists in Hx.
           destruct Hx as (r & Hr & Hv). apply in_map_iff in Hr.
           destruct Hr as (x & <- & Hin). apply Exists_exists. eauto.
  - intros N fs path mode d os Hl Hx. unfold XmlLoader.process_xml.
    rewrite Hl, (validate_orders_invalid os Hx). simpl.
    repeat split. unfold xml_messages.
    rewrite length_map. apply (filter_enumerate_length xml_invalid).
Qed.

Definition csv0 : CsvLoader.frame :=
  CsvLoader.mkFrame CsvLoader.required_columns
    [ CsvLoader.mkRow (PStr "C001") (PStr "Alice") (PStr "+91 98765 43210") (PStr "North");
      CsvLoader.mkRow (PStr "C002") (PStr "B") (PStr "12345") (PStr "South");
      CsvLoader.mkRow (PStr "C003") (PStr "Carol") (PStr "9876543211") PNaN;
      CsvLoader.mkRow (PStr "  ") (PStr "Dan") (PStr "9876543212") (PStr "East") ].

Definition xml0 : list XmlLoader.order :=
  [ XmlLoader.mkOrder (PStr "O1") (PStr "9876543210") (PStr "2024-03-15")
                      (PStr "SKU1") (PStr "2") (PStr "100");
    XmlLoader.mkOrder (PStr "O2") (PStr "123") (PStr "not-a-date")
                      (PStr "SKU1") (PStr "2") (PStr "100");
    XmlLoader.mkOrder (PStr "O3") (PStr "9876543210") PNone
                      (PStr "SKU1") (PStr "0") (PStr "100") ].

(** The frame read from a file whose data lines end in a comma,
    [C001,Alice,9876543210,North,] under the header
    [customer_id,customer_name,mobile_number,region]: the first field of
    each line is the label of the row and the others move one column to
    the left. *)
Definition csv_labelled : CsvLoader.frame :=
  CsvLoader.mkIndexed CsvLoader.required_columns
    [ (PStr "C001",
       CsvLoader.mkRow (PStr "Alice") (PInt 9876543210) (PStr "North") PNaN);
      (PStr "C002",
       CsvLoader.mkRow (PStr "Bob") (PInt 9876543211) (PStr "South") PNaN) ].

(** The same file with numbers as customer ids: the labels are integers. *)
Definition csv_numbered : CsvLoader.frame :=
  CsvLoader.mkIndexed CsvLoader.required_columns
    [ (PInt 1001,
       CsvLoader.mkRow (PStr "Alice") (PInt 9876543210) (PStr "North") PNaN) ].

Lemma validation_reports_rows_by_label_witness :
  (let out := CsvLoader.process_csv (fun _ => Some csv_labelled)
                                    (Some "customers.csv") "replace" Examples.db0 in
   success (fst out) = false
   /\ records_loaded (fst out) = 0
   /\ snd out = Examples.db0
   /\ errors (fst out) = [CsvLoader.cannot_add_to_str]
   /\ length (filter csv_invalid (CsvLoader.rows csv_labelled)) = 2%nat)
  /\ errors (fst (CsvLoader.process_csv (fun _ => Some csv_numbered)
                                         (Some "customers.csv") "replace"
                                         Examples.db0))
     = ["Row 1003: Invalid mobile_number: North (must be 8-15 digits)"]
  /\ (let out := CsvLoader.process_csv (fun _ => Some csv0) (Some "customers.csv")
                                       "replace" Examples.db0 in
      success (fst out) = false
      /\ records_loaded (fst out) = 0
      /\ snd out = Examples.db0
      /\ errors (fst out)
         = ["Row 3: Invalid customer_name: B, Invalid mobile_number: 12345 (must be 8-15 digits)";
            "Row 5: Invalid customer_id:  (must be 1-25 characters)"])
  /\ (let out := @XmlLoader.process_xml PlainNumbers.numeric (fun _ => Some xml0) (Some "orders.xml")
                                       "replace" Examples.db0 in
      success (fst out) = false
      /\ records_loaded (fst out) = 0
      /\ snd out = Examples.db0
      /\ errors (fst out)
         = ["Order 2: Invalid mobile_number: 123 (must be 8-15 digits), Invalid order_date_time: not-a-date";
            "Order 3: Missing fields: ['order_date_time']"]
      /\ length (errors (fst out)) = 2%nat).
Proof.
  split; [|split; [|split]].
  - destruct (proj1 validation_reports_rows_by_label
                    (fun _ => Some csv_labelled) "customers.csv" "replace"
                    Examples.db0 csv_labelled)
      as (A & B & C & _ & _ & E).
    + reflexivity.
    + reflexivity.
    + apply Exists_cons_hd. reflexivity.
    + split; [exact A|]. split; [exact B|]. split; [exact C|].
      split; [|reflexivity]. apply E.
      repeat constructor; eexists; reflexivity.
  - destruct (proj1 validation_reports_rows_by_label
                    (fun _ => Some csv_numbered) "customers.csv" "replace"
                    Examples.db0 csv_numbered)
      as (_ & _ & _ & _ & E & _).
    + reflexivity.
    + reflexivity.
    + apply Exists_cons_hd. reflexivity.
    + apply (E [(1001, CsvLoader.mkRow (PStr "Alice") (PInt 9876543210)
                                       (PStr "North") PNaN)]).
      reflexivity.
  - destruct (proj1 validation_reports_rows_by_label
                    (fun _ => Some csv0) "customers.csv" "replace"
                    Examples.db0 csv0)
      as (A & B & C & D & _).
    + reflexivity.
    + reflexivity.
    + apply Exists_cons_tl, Exists_cons_hd. reflexivity.
    + split; [exact A|]. split; [exact B|]. split; [exact C|].
      apply D. reflexivity.
  - apply (proj2 validation_reports_rows_by_label PlainNumbers.numeric
                 (fun _ => Some xml0) "orders.xml" "replace" Examples.db0 xml0).
    + reflexivity.
    + apply Exists_cons_tl, Exists_cons_hd. reflexivity.
Defined.

End ValidationClaims.

Module ReplaceClaims.
Import Py StoreFacts PipelineResult.





End ReplaceClaims.

Module CleanClaims.
Import Py CleanFacts PipelineResult.

(** A customers file whose key C001 occurs twice: first with an empty name,
    then complete. *)
Definition csv_dup : CsvLoader.frame :=
  CsvLoader.mkFrame CsvLoader.required_columns
    [ CsvLoader.mkRow (PStr "C001") PNaN (PInt 9876543210) (PStr "North");
      CsvLoader.mkRow (PStr "C001") (PStr "Alice") (PInt 9876543210) (PStr "North") ].

(** C9 fails for the customers file: [clean_dataframe] removes duplicates
    before it drops the rows with a null field.  The file [csv_dup] passes
    validation; its first row wins the de-duplication and is then dropped
    for its null name, so no row is left and a replace-mode run empties
    the table, whereas dropping first keeps the second, complete row. *)
Theorem clean_dataframe_dedups_before_dropna :
  CsvLoader.validate_dataframe csv_dup = inr (true, [])
  /\ CsvLoader.clean_dataframe csv_dup = []
  /\ clean_dropna_first csv_dup
     = [ CsvLoader.mkRow (PStr "C001") (PStr "Alice") (PStr "9876543210")
                         (PStr "North") ]
  /\ (let out := CsvLoader.process_csv (fun _ => Some csv_dup) None "replace"
                                       Examples.db0 in
      success (fst out) = true
      /\ records_loaded (fst out) = 0
      /\ Db.customers (snd out) = []).
Proof. repeat split; reflexivity. Qed.

End CleanClaims.

Module TableClaims.
Import Value BaseKpi TableKpis TableFacts.

(** The keys of an engine with the class of the object under each key; the
    state of the objects is left open. *)
Definition registry (self : TableBasedKPIEngine) : list (string * kind) :=
  map (fun item => (fst item, fst (snd item))) self.

Lemma registry_keys (self : TableBasedKPIEngine) :
  map fst self = map fst (registry self).
Proof. unfold registry. rewrite map_map. reflexivity. Qed.

(** C10: for a name that is none of the four keys, [calculate_kpi] of the
    table-based engine returns the dictionary with success=false and the
    message "Unknown KPI: <name>. Available: [...]" that lists the four
    keys; nothing is raised, no statement is sent to the store and the
    engine is left as it was. *)
Theorem unknown_kpi_is_reported
        (self : TableBasedKPIEngine) (kpi_name : string) (kw : Kwargs.t)
        (d : Db.Database) :
  registry self = registry engine_init ->
  ~ In kpi_name ["repeat_customers"; "monthly_trends"; "regional_revenue";
                 "top_customers"] ->
  calculate_kpi self kpi_name kw d
  = ([("success", VBool false);
      ("error",
       VStr ("Unknown KPI: " ++ kpi_name
             ++ ". Available: ['repeat_customers', 'monthly_trends', 'regional_revenue', 'top_customers']"))],
     self, d).
Proof.
  intros R Hn. unfold calculate_kpi.
  rewrite lookup_unknown, registry_keys, R; [reflexivity|].
  rewrite registry_keys, R. exact Hn.
Qed.

Lemma unknown_kpi_is_reported_witness :
  calculate_kpi engine_init "churn_rate" Kwargs.none Examples.db0
  = ([("success", VBool false);
      ("error",
       VStr "Unknown KPI: churn_rate. Available: ['repeat_customers', 'monthly_trends', 'regional_revenue', 'top_customers']")],
     engine_init, Examples.db0).
Proof.
  apply (unknown_kpi_is_reported engine_init "churn_rate" Kwargs.none
                                 Examples.db0).
  - reflexivity.
  - simpl. intros [E | [E | [E | [E | []]]]]; discriminate E.
Defined.

(** C8: in a run of [calculate_all_kpis] where the computation of one KPI
    raises and the other three do not, the result holds an envelope under
    each of the four keys; the envelope of the failing KPI has
    success=false and the message of the exception under [error], and each
    of the other three has success=true, no [error], and under [data] the
    rows of its own query. *)
Theorem failing_kpi_is_isolated
        (self : TableBasedKPIEngine) (kw : Kwargs.t) (d : Db.Database)
        (failing : kind) (msg : string) :
  registry self = registry engine_init ->
  Db.fault d (Db.Read (query_of kw failing)) = Some msg ->
  (forall k, k <> failing -> Db.fault d (Db.Read (query_of kw k)) = None) ->
  let results := fst (fst (calculate_all_kpis self kw d)) in
  keys results = ["repeat_customers"; "monthly_trends"; "regional_revenue";
                  "top_customers"]
  /\ forall key k,
      In (key, k) (registry engine_init) ->
      exists env,
        get key results = Some (VDict env)
        /\ (k = failing ->
            get "success" env = Some (VBool false)
            /\ get "error" env = Some (VStr msg))
        /\ (k <> failing ->
            get "success" env = Some (VBool true)
            /\ get "data" env = Some (data_of kw k d)
            /\ get "error" env = None).
Proof.
  intros R F Hothers results.
  assert (E : results
              = fold_left
                  (fun acc item =>
                     set (fst item)
                         (VDict (envelope (fst (snd item)) (snd (snd item)) kw d))
                         acc) self []).
  { unfold results, calculate_all_kpis.
    apply calculate_loop_results, same_data_refl. }
  clearbody results. subst results.
  destruct self as [|[k1 [c1 o1]] [|[k2 [c2 o2]] [|[k3 [c3 o3]] [|[k4 [c4 o4]] [|]]]]];
    try discriminate R.
  injection R as -> -> -> -> -> -> -> ->.
  split; [reflexivity|].
  assert (Env : forall k o,
             (k = failing ->
              get "success" (envelope k o kw d) = Some (VBool false)
              /\ get "error" (envelope k o kw d) = Some (VStr msg))
             /\ (k <> failing ->
                 get "success" (envelope k o kw d) = Some (VBool true)
                 /\ get "data" (envelope k o kw d) = Some (data_of kw k d)
                 /\ get "error" (envelope k o kw d) = None)).
  { intros k o. split.
    - intros ->. rewrite (envelope_failure failing o kw d msg F). split; reflexivity.
    - intros Hk. destruct (envelope_success k o kw d (Hothers k Hk)) as (A & B & C & _).
      auto. }
  intros key k [H | [H | [H | [H | []]]]]; injection H as <- <-;
    eexists; (split; [reflexivity | apply Env]).
Qed.

Definition monthly_down : Db.statement -> option string :=
  fun s => match s with
           | Db.Read Db.MonthlyTrends => Some "Lost connection to MySQL server"
           | _ => None
           end.

Definition db_monthly_down : Db.Database :=
  Db.mkDatabase
    [Customer.make "C001" (Some "Alice") (Some "9876543210") (Some "North")]
    [Order.make "O1" (Some "9876543210") (Some (Datetime.mkDatetime 2024 3 1 9 0 0))
                (Some "SKU1") (Some 1) (Some 25000);
     Order.make "O2" (Some "9876543210") (Some (Datetime.mkDatetime 2024 3 9 9 0 0))
                (Some "SKU2") (Some 2) (Some 10000)]
    Examples.noon monthly_down [].

Lemma failing_kpi_is_isolated_witness :
  let results :=
    fst (fst (calculate_all_kpis engine_init Kwargs.none db_monthly_down)) in
  keys results = ["repeat_customers"; "monthly_trends"; "regional_revenue";
                  "top_customers"]
  /\ forall key k,
      In (key, k) (registry engine_init) ->
      exists env,
        get key results = Some (VDict env)
        /\ (k = MonthlyOrderTrendsKPI ->
            get "success" env = Some (VBool false)
            /\ get "error" env = Some (VStr "Lost connection to MySQL server"))
        /\ (k <> MonthlyOrderTrendsKPI ->
            get "success" env = Some (VBool true)
            /\ get "data" env = Some (data_of Kwargs.none k db_monthly_down)
            /\ get "error" env = None).
Proof.
  apply (failing_kpi_is_isolated engine_init Kwargs.none db_monthly_down
                                 MonthlyOrderTrendsKPI
                                 "Lost connection to MySQL server").
  - reflexivity.
  - reflexivity.
  - intros k Hk. destruct k; try reflexivity. contradiction.
Defined.

(** The memory engine isolates failures in the same way: on a store without
    customers the merges raise [KeyError] and three KPIs report failure,
    while the monthly trends, which read the orders only, are computed. *)
Lemma memory_failures_are_isolated :
  let d := Db.mkDatabase [] Examples.orders0 Examples.noon Examples.no_fault [] in
  let results :=
    fst (fst (MemoryKpis.calculate_all_kpis MemoryKpis.engine_init Kwargs.none d)) in
  keys results = ["repeat_customers"; "monthly_trends"; "regional_revenue";
                  "top_customers"]
  /\ get "repeat_customers" results
     = Some (VDict (MemoryKpis.failure "'mobile_number'"))
  /\ (exists env,
         get "monthly_trends" results = Some (VDict env)
         /\ get "success" env = Some (VBool true)
         /\ get "metadata" env
            = Some (VDict [("total_months", VInt 2); ("total_orders", VInt 2);
                           ("total_revenue", VAmount 35000);
                           ("avg_monthly_orders", VNum 1)]))
  /\ get "regional_revenue" results
     = Some (VDict (MemoryKpis.failure "'mobile_number'"))
  /\ get "top_customers" results
     = Some (VDict (MemoryKpis.failure "'mobile_number'")).
Proof.
  repeat split. eexists. repeat split.
Qed.

End TableClaims.

Module RepeatClaims.
Import Value Rel RelFacts RepeatFacts.

(** On a valid dataset with at least one customer and one order, the query
    of the table engine and the data-frame computation of the memory engine
    give the same repeat customers: the rows of one are a rearrangement of
    the rows of the other, every row carries a sum, and position by position
    the two results show the same (order_count, total_spent), so that they
    differ at most in the order of rows with equal sort keys. *)
Lemma repeat_customers_agree (cs : list Customer.t) (os : list Order.t) :
  valid_dataset cs os = true -> cs <> [] -> os <> [] ->
  exists rows,
    Pandas.repeat_customers cs os = inr rows
    /\ Permutation rows (Sql.repeat_customers cs os)
    /\ map sort_key rows = map sort_key (Sql.repeat_customers cs os)
    /\ map MemoryKpis.repeat_record rows = map TableKpis.repeat_record rows.
Proof.
  intros V Hc Ho.
  destruct (pandas_repeat_customers_perm cs os V Hc Ho) as (rows & E & P).
  assert (ND : NoDup (map Customer.customer_id cs)).
  { unfold valid_dataset in V. rewrite !andb_true_iff in V.
    apply nodupb_NoDup. tauto. }
  assert (Vo : forallb order_ok os = true).
  { unfold valid_dataset in V. rewrite !andb_true_iff in V. tauto. }
  rewrite (sql_repeat_customers_eq cs os ND).
  eexists. split; [exact E|].
  assert (P' : Permutation (sort RepeatRow.before (filter having rows))
                           (sort RepeatRow.before (filter having (per_customer cs os)))).
  { eapply perm_trans; [apply sort_perm|].
    eapply perm_trans; [|apply Permutation_sym, sort_perm].
    apply filter_perm, P. }
  split; [exact P'|]. split.
  - apply (sorted_perm_eq (fun a b => key_ge a b = true) key_ge_antisym).
    + apply Permutation_map, P'.
    + apply sorted_map.
      apply (sort_sorted RepeatRow.before);
        intros; rewrite !before_key in *;
        [apply key_ge_total | eapply key_ge_trans; eassumption].
    + apply sorted_map.
      apply (sort_sorted RepeatRow.before);
        intros; rewrite !before_key in *;
        [apply key_ge_total | eapply key_ge_trans; eassumption].
  - apply map_ext_in. intros r Hr.
    apply (Permutation_in _ P') in Hr. apply sort_in in Hr.
    apply filter_In in Hr. destruct Hr as [Hr _].
    unfold per_customer in Hr. apply in_flat_map in Hr.
    destruct Hr as (c & _ & Hr).
    pose proof (matches_amounts os c Vo) as Va.
    destruct (matches os c) as [|o ms]; [contradiction|].
    destruct Hr as [<- | []].
    unfold MemoryKpis.repeat_record, TableKpis.repeat_record, row_of.
    cbn [RepeatRow.total_spent].
    rewrite sql_sum_present; [reflexivity | discriminate | exact Va].
Qed.

(** The store answers the three statements the two engines send. *)
Definition answers (d : Db.Database) : Prop :=
  Db.fault d (Db.Read Db.SelectCustomers) = None
  /\ Db.fault d (Db.Read Db.SelectOrders) = None
  /\ Db.fault d (Db.Read Db.RepeatCustomers) = None.

(** [table_engine.calculate_kpi('repeat_customers')] on a fresh engine. *)
Definition table_result (d : Db.Database) : dict :=
  fst (fst (TableKpis.calculate_kpi TableKpis.engine_init "repeat_customers"
                                    Kwargs.none d)).

(** [memory_engine.load_data()] followed by
    [memory_engine.calculate_repeat_customers()] on a fresh engine. *)
Definition memory_result (d : Db.Database) : dict :=
  let '(_, m, d1) := MemoryKpis.load_data MemoryKpis.engine_init d in
  fst (fst (MemoryKpis.calculate_repeat_customers m d1)).

Lemma table_result_data (d : Db.Database) :
  answers d ->
  get "success" (table_result d) = Some (VBool true)
  /\ get "data" (table_result d)
     = Some (VList (map TableKpis.repeat_record
                        (Sql.repeat_customers (Db.customers d) (Db.orders d)))).
Proof.
  intros (_ & _ & F). unfold table_result, TableKpis.calculate_kpi.
  cbn [TableKpis.lookup TableKpis.engine_init String.eqb Ascii.eqb Bool.eqb].
  pose proof (TableFacts.envelope_success
                TableKpis.RepeatCustomersKPI
                (TableKpis.new TableKpis.RepeatCustomersKPI) Kwargs.none d F)
    as (S & D & _).
  unfold TableFacts.envelope in S, D.
  destruct (TableKpis.calculate _ _ _ d) as [[result o'] d'].
  split; [exact S | exact D].
Qed.

Lemma memory_result_eq (d : Db.Database) :
  answers d ->
  memory_result d
  = match Pandas.repeat_customers (Db.customers d) (Db.orders d) with
    | inr rows =>
        MemoryKpis.success
          "Repeat Customers" (map MemoryKpis.repeat_record rows)
          [("total_repeat_customers", VInt (Rel.count rows));
           ("total_orders", VInt (Rel.zsum (map RepeatRow.order_count rows)));
           ("total_revenue",
            VAmount (Pandas.agg_sum (map RepeatRow.total_spent rows)))]
          (Db.now d)
    | inl e => MemoryKpis.failure e
    end.
Proof.
  intros (F1 & F2 & _).
  unfold memory_result, MemoryKpis.load_data, Db.execute_query.
  rewrite F1. cbn [Db.sent Db.fault]. rewrite F2.
  cbn [Db.eval Db.sent Db.customers Db.orders Db.now]. cbv zeta.
  destruct (match Db.orders d with
            | [] => true
            | _ :: _ => Pandas.dates_convert (Db.orders d)
            end);
    unfold MemoryKpis.calculate_repeat_customers, MemoryKpis.ensure_loaded;
    cbn [MemoryKpis.customers_df MemoryKpis.orders_df Db.eval Db.sent Db.customers
         Db.orders Db.now];
    destruct (Pandas.repeat_customers (Db.customers d) (Db.orders d)); reflexivity.
Qed.

(** The engines agree on every valid dataset that has rows in both tables. *)
Lemma engines_agree_on_repeat_customers (d : Db.Database) :
  answers d ->
  valid_dataset (Db.customers d) (Db.orders d) = true ->
  Db.customers d <> [] -> Db.orders d <> [] ->
  exists table_rows memory_rows,
    get "data" (table_result d)
    = Some (VList (map TableKpis.repeat_record table_rows))
    /\ get "data" (memory_result d)
       = Some (VList (map TableKpis.repeat_record memory_rows))
    /\ get "success" (table_result d) = Some (VBool true)
    /\ get "success" (memory_result d) = Some (VBool true)
    /\ Permutation memory_rows table_rows
    /\ map sort_key memory_rows = map sort_key table_rows.
Proof.
  intros A V Hc Ho.
  destruct (repeat_customers_agree _ _ V Hc Ho) as (rows & E & P & K & R).
  destruct (table_result_data d A) as (S & D).
  exists (Sql.repeat_customers (Db.customers d) (Db.orders d)), rows.
  rewrite (memory_result_eq d A), E. cbn [get MemoryKpis.success String.eqb Ascii.eqb Bool.eqb].
  rewrite R. repeat split; assumption.
Qed.

Lemma sql_repeat_no_orders (cs : list Customer.t) :
  Sql.repeat_customers cs [] = [].
Proof.
  unfold Sql.repeat_customers, inner_join.
  replace (flat_map (fun a => map (pair a) (filter (Sql.same_mobile a) [])) cs)
    with (@nil (Customer.t * Order.t)); [reflexivity|].
  induction cs as [|c l IH]; [reflexivity | exact IH].
Qed.

Lemma pandas_repeat_no_orders (cs : list Customer.t) :
  Pandas.repeat_customers cs [] = inl "'mobile_number'".
Proof.
  unfold Pandas.repeat_customers, Pandas.merge_inner. destruct cs; reflexivity.
Qed.

(** C1 fails when the orders table is empty: the frame built from no rows
    has no column [mobile_number], the merge raises [KeyError], and the
    memory engine returns the failure dictionary, with no [data] at all,
    where the table engine reports success with an empty list of rows. *)
Theorem repeat_customers_differ_without_orders (d : Db.Database) :
  answers d ->
  Db.orders d = [] ->
  get "success" (table_result d) = Some (VBool true)
  /\ get "data" (table_result d) = Some (VList [])
  /\ memory_result d
     = [("success", VBool false); ("error", VStr "'mobile_number'")]
  /\ get "data" (memory_result d) = None.
Proof.
  intros A Ho. destruct (table_result_data d A) as (S & D).
  rewrite (memory_result_eq d A), D, Ho.
  rewrite pandas_repeat_no_orders, sql_repeat_no_orders. repeat split. exact S.
Qed.

Lemma repeat_customers_differ_without_orders_witness :
  valid_dataset (Db.customers Examples.db0) (Db.orders Examples.db0) = true
  /\ get "success" (table_result Examples.db0) = Some (VBool true)
  /\ get "data" (table_result Examples.db0) = Some (VList [])
  /\ memory_result Examples.db0
     = [("success", VBool false); ("error", VStr "'mobile_number'")]
  /\ get "data" (memory_result Examples.db0) = None.
Proof.
  split; [reflexivity|].
  apply (repeat_customers_differ_without_orders Examples.db0).
  - repeat split.
  - reflexivity.
Defined.

End RepeatClaims.

Module RegionalClaims.
Import Value Rel RelFacts RegionalFacts.

(** C2 fails for the table engine.  For a region that has a customer but no
    matching order, the query of the table engine yields the row of the
    region with NULL as [total_revenue] ([SUM] over no value, not coalesced),
    where the memory engine, which fills the missing sum, yields the row
    with 0.  Both results are in descending order of total revenue, NULL
    last. *)
Theorem regional_revenue_null_without_orders
        (cs : list Customer.t) (os : list Order.t) (r : string) :
  (exists c, In c cs /\ Customer.region c = Some r) ->
  without_orders cs os r ->
  os <> [] ->
  (exists row,
      In row (Sql.regional_revenue cs os)
      /\ RegionalRow.region row = Some r
      /\ RegionalRow.total_revenue row = None)
  /\ (exists rows row,
         Pandas.regional_revenue cs os = inr rows
         /\ In row rows
         /\ RegionalRow.region row = Some r
         /\ RegionalRow.total_revenue row = Some 0
         /\ StronglySorted (fun x y => RegionalRow.before x y = true) rows)
  /\ StronglySorted (fun x y => RegionalRow.before x y = true)
                    (Sql.regional_revenue cs os).
Proof.
  intros Hc W Ho. split; [|split].
  - destruct (sql_region_null cs os r Hc W) as (row & H1 & H2 & _ & H4).
    exists row. auto.
  - destruct (frame_region_zero cs os r Hc W Ho) as (rows & row & E & H1 & H2 & _ & H4).
    exists (sort RegionalRow.before rows), row.
    repeat split; try assumption. apply regional_sorted.
  - apply regional_sorted.
Qed.

Lemma regional_revenue_null_without_orders_witness :
  (exists row,
      In row (Sql.regional_revenue Examples.customers0 Examples.orders0)
      /\ RegionalRow.region row = Some "South"
      /\ RegionalRow.total_revenue row = None)
  /\ (exists rows row,
         Pandas.regional_revenue Examples.customers0 Examples.orders0 = inr rows
         /\ In row rows
         /\ RegionalRow.region row = Some "South"
         /\ RegionalRow.total_revenue row = Some 0
         /\ StronglySorted (fun x y => RegionalRow.before x y = true) rows)
  /\ StronglySorted (fun x y => RegionalRow.before x y = true)
                    (Sql.regional_revenue Examples.customers0 Examples.orders0).
Proof.
  apply (regional_revenue_null_without_orders Examples.customers0 Examples.orders0 "South").
  - exists (Customer.make "C002" (Some "Bob") (Some "9876543299") (Some "South")).
    split; [right; left; reflexivity | reflexivity].
  - intros c o [<- | [<- | []]] Hr [<- | [<- | []]]; simpl in *; congruence.
  - discriminate.
Defined.

(** The rows of the two envelopes on that store. *)
Lemma regional_revenue_envelopes :
  get "data"
      (fst (fst (TableKpis.calculate_kpi TableKpis.engine_init "regional_revenue"
                                         Kwargs.none Examples.db_south)))
  = Some (VList
            [VDict [("region", VStr "North"); ("customer_count", VInt 1);
                    ("total_orders", VInt 2); ("total_revenue", VAmount 35000);
                    ("avg_order_value", VNum 17500)];
             VDict [("region", VStr "South"); ("customer_count", VInt 1);
                    ("total_orders", VInt 0); ("total_revenue", VNone);
                    ("avg_order_value", VNone)]])
  /\ (let '(_, m, d) := MemoryKpis.load_data MemoryKpis.engine_init Examples.db_south in
      get "data" (fst (fst (MemoryKpis.calculate_regional_revenue m d))))
     = Some (VList
               [VDict [("region", VStr "North"); ("customer_count", VInt 1);
                       ("total_orders", VInt 2); ("total_revenue", VAmount 35000);
                       ("avg_order_value", VNum 17500)];
                VDict [("region", VStr "South"); ("customer_count", VInt 1);
                       ("total_orders", VInt 0); ("total_revenue", VAmount 0);
                       ("avg_order_value", VNum 0)]]).
Proof. split; reflexivity. Qed.

End RegionalClaims.

Module EnvelopeClaims.
Import Value BaseKpi TableKpis TableFacts.
Import Rel RelFacts GroupFacts RepeatFacts RowFacts AgreeFacts.




(** A scalar of the memory envelope: the field of its [metadata]. *)
Definition metadata_field (env : dict) (key : string) : option value :=
  match get "metadata" env with
  | Some (VDict m) => get key m
  | _ => None
  end.

Lemma failure_success (e : string) :
  get "success" (MemoryKpis.failure e) <> Some (VBool true).
Proof. discriminate. Qed.


(** ** What agreement of two envelopes means *)




(** Repeat customers: the same rows, and position by position the same
    (order_count, total_spent); rows with equal sort keys may come in
    another order. *)
Definition same_repeat (table memory : dict) : Prop :=
  exists t m : list RepeatRow.t,
    get "data" table = Some (VList (map TableKpis.repeat_record t))
    /\ get "data" memory = Some (VList (map MemoryKpis.repeat_record m))
    /\ Permutation m t
    /\ map sort_key m = map sort_key t.

(** A month without its average. *)
Definition monthly_core (r : MonthlyRow.t) : option string * Z * option Z * Z :=
  (MonthlyRow.month_year r, MonthlyRow.total_orders r,
   MonthlyRow.total_revenue r, MonthlyRow.unique_customers r).

(** Monthly trends: the same months in the same order. *)
Definition same_monthly (table memory : dict) : Prop :=
  exists t m : list MonthlyRow.t,
    get "data" table = Some (VList (map TableKpis.monthly_record t))
    /\ get "data" memory = Some (VList (map MemoryKpis.monthly_record m))
    /\ map monthly_core m = map monthly_core t.

Definition first_region (rows : list RegionalRow.t) : value :=
  match rows with
  | r :: _ => opt VStr (RegionalRow.region r)
  | [] => VNone
  end.

(** Regional revenue: the same regions, a sum that is missing in the
    table envelope being 0 in the memory envelope, where no sum is
    missing; the rows may come in another order, and
    highest_revenue_region is in each envelope the region of the first
    row of its own data. *)
Definition same_regional (table memory : dict) : Prop :=
  exists t m : list RegionalRow.t,
    get "data" table = Some (VList (map TableKpis.regional_record t))
    /\ get "data" memory = Some (VList (map MemoryKpis.regional_record m))
    /\ Permutation (map regional_core m) (map regional_core t)
    /\ Forall (fun r => RegionalRow.total_revenue r <> None) m
    /\ get "highest_revenue_region" table = Some (first_region t)
    /\ metadata_field memory "highest_revenue_region" = Some (first_region m).

(** A top customer without its average. *)
Definition top_core (r : TopRow.t)
  : string * option string * option string * Z * option Z
    * option Datetime.datetime :=
  (TopRow.customer_id r, TopRow.customer_name r, TopRow.region r,
   TopRow.order_count r, TopRow.total_spend r, TopRow.last_order_date r).

(** Top customers: each envelope holds the first [limit] rows of a list
    in descending order of total_spend, the two lists hold the same rows,
    and position by position the rows of the two envelopes show the same
    total_spend; avg_spend_top_customers is the same when there is a
    row. *)
Definition same_top (limit : Z) (table memory : dict) : Prop :=
  exists t m : list TopRow.t,
    get "data" table
    = Some (VList (map TableKpis.top_record (firstn (Z.to_nat limit) t)))
    /\ get "data" memory
       = Some (VList (map MemoryKpis.top_record (firstn (Z.to_nat limit) m)))
    /\ Permutation (map top_core m) (map top_core t)
    /\ StronglySorted (fun x y => TopRow.before x y = true) t
    /\ StronglySorted (fun x y => TopRow.before x y = true) m
    /\ map TopRow.total_spend (firstn (Z.to_nat limit) m)
       = map TopRow.total_spend (firstn (Z.to_nat limit) t)
    /\ (firstn (Z.to_nat limit) t <> [] ->
        metadata_field memory "avg_spend_top_customers"
        = get "avg_spend_top_customers" table).

Definition same_data (k : kind) (kw : Kwargs.t) (table memory : dict) : Prop :=
  match k with
  | RepeatCustomersKPI => same_repeat table memory
  | MonthlyOrderTrendsKPI => same_monthly table memory
  | RegionalRevenueKPI => same_regional table memory
  | TopCustomersLast30DaysKPI =>
      same_top (match Kwargs.limit kw with Some n => n | None => 10 end)
               table memory
  end.
















(** ** Stores on which the envelopes differ *)










End EnvelopeClaims.

(** * Sample files and stores for the worked examples of the sections
      that follow *)

Module Samples.
Import Py.

(** A customers file: a known customer under a new name and number, and a
    new customer. *)
Definition customers_file : CsvLoader.frame :=
  CsvLoader.mkFrame CsvLoader.required_columns
    [ CsvLoader.mkRow (PStr "C009") (PStr "Zoe Quinn") (PInt 9111111111) (PStr "East");
      CsvLoader.mkRow (PStr "C010") (PStr "Yann") (PInt 9222222222) (PStr "North") ].

(** An orders file: a known order with another count, number and amount,
    and a new order. *)
Definition orders_file : list XmlLoader.order :=
  [ XmlLoader.mkOrder (PStr "O1") (PStr "9333333333") (PStr "2024-03-02T10:00:00")
                      (PStr "SKU9") (PStr "5") (PStr "300");
    XmlLoader.mkOrder (PStr "O7") (PStr "9876543299") (PStr "2024-03-10 08:30:00")
                      (PStr "SKU3") (PStr "1") (PStr "120") ].

End Samples.

(** * Further properties of the validators *)

Module ValidatorExtras.
Import Py Datetime Validators ValidatorsFacts.

Lemma lstrip_idem (s : string) : lstrip (lstrip s) = lstrip s.
Proof.
  induction s as [|c s IH]; simpl; [reflexivity|].
  destruct (is_space c) eqn:E; [exact IH | simpl; now rewrite E].
Qed.

Lemma rstrip_idem (s : string) : rstrip (rstrip s) = rstrip s.
Proof.
  induction s as [|c s IH]; simpl; [reflexivity|].
  destruct (rstrip s) as [|c' r] eqn:R.
  - destruct (is_space c) eqn:E; simpl; [reflexivity | now rewrite E].
  - simpl in *. rewrite IH. reflexivity.
Qed.

(** A string that does not begin with white space still does not after
    [rstrip]. *)
Lemma lstrip_rstrip (s : string) : lstrip (rstrip (lstrip s)) = rstrip (lstrip s).
Proof.
  induction s as [|c s IH]; simpl; [reflexivity|].
  destruct (is_space c) eqn:E; [exact IH|].
  cbn [rstrip]. destruct (rstrip s); rewrite ?E; cbn [lstrip]; now rewrite E.
Qed.

Lemma strip_idem (s : string) : strip (strip s) = strip s.
Proof. unfold strip. now rewrite lstrip_rstrip, rstrip_idem. Qed.

Lemma keep_idem (p : ascii -> bool) (s : string) : keep p (keep p s) = keep p s.
Proof.
  induction s as [|c s IH]; simpl; [reflexivity|].
  destruct (p c) eqn:E; simpl; [rewrite E, IH|]; auto.
Qed.

Lemma digit_no_space (c : ascii) : is_space c = true -> is_digit c = false.
Proof. destruct c as [[] [] [] [] [] [] [] []]; vm_compute; congruence. Qed.

Lemma normalize_mobile_number_some (v : pyval) (c : string) :
  normalize_mobile_number v = Some c ->
  c = keep digit_or_plus (strip (str v)) /\ 8 <= len (keep is_digit c).
Proof.
  unfold normalize_mobile_number.
  change (fun c0 => (is_digit c0 || Ascii.eqb c0 "+")%bool) with digit_or_plus.
  destruct (truthy v); simpl; [|discriminate].
  destruct (String.eqb _ ""); [discriminate|].
  destruct (Z.ltb_spec (len (keep is_digit (keep digit_or_plus (strip (str v))))) 8);
    [discriminate|].
  intros [= <-]. split; [reflexivity | assumption].
Qed.

Lemma normalize_mobile_number_again (v : pyval) (c : string) :
  normalize_mobile_number v = Some c ->
  normalize_mobile_number (PStr c) = Some c.
Proof.
  intros H. destruct (normalize_mobile_number_some v c H) as [E D].
  assert (K : keep digit_or_plus c = c) by (rewrite E; apply keep_idem).
  rewrite normalize_mobile_number_eq, K.
  destruct (Z.ltb_spec (len (keep is_digit c)) 8); [lia | auto].
Qed.

(** X1: a value returned by [normalize_mobile_number] consists of digits
    and plus signs only, has at least 8 digits, and is normalised to
    itself. *)
Theorem normalize_mobile_number_idempotent (v : pyval) (c : string) :
  normalize_mobile_number v = Some c ->
  normalize_mobile_number (PStr c) = Some c
  /\ keep digit_or_plus c = c
  /\ 8 <= len (keep is_digit c).
Proof.
  intros H. destruct (normalize_mobile_number_some v c H) as [E D].
  assert (K : keep digit_or_plus c = c) by (rewrite E; apply keep_idem).
  rewrite normalize_mobile_number_eq, K.
  destruct (Z.ltb_spec (len (keep is_digit c)) 8); [lia | auto].
Qed.

Lemma normalize_mobile_number_idempotent_witness :
  normalize_mobile_number (PStr " (+91) 98765-43210 ") = Some "+919876543210"
  /\ normalize_mobile_number (PStr "+919876543210") = Some "+919876543210"
  /\ keep digit_or_plus "+919876543210" = "+919876543210"
  /\ 8 <= len (keep is_digit "+919876543210").
Proof.
  split; [reflexivity|].
  apply (normalize_mobile_number_idempotent (PStr " (+91) 98765-43210 ")).
  reflexivity.
Defined.

Lemma validate_mobile_number_eq (s : string) :
  validate_mobile_number (PStr s)
  = ((8 <=? len (keep is_digit s)) && (len (keep is_digit s) <=? 15))%bool.
Proof.
  unfold validate_mobile_number, truthy, str.
  destruct (String.eqb_spec s "") as [->|_]; [reflexivity|]. simpl negb. cbv iota.
  now rewrite (keep_strip _ digit_no_space).
Qed.

(** X2: [validate_mobile_number] accepts exactly the strings that hold 8 to
    15 digits, whatever else they hold.  What it accepts is normalised to a
    non-null value; a string with more than 15 digits is rejected by it and
    still normalised, the upper bound being checked in one place only. *)
Theorem validate_mobile_number_against_normalize (s : string) :
  let n := len (keep is_digit s) in
  validate_mobile_number (PStr s) = ((8 <=? n) && (n <=? 15))%bool
  /\ (validate_mobile_number (PStr s) = true ->
      normalize_mobile_number (PStr s) = Some (keep digit_or_plus s))
  /\ (15 < n ->
      validate_mobile_number (PStr s) = false
      /\ normalize_mobile_number (PStr s) = Some (keep digit_or_plus s)).
Proof.
  intros n. rewrite validate_mobile_number_eq, normalize_mobile_number_eq.
  fold n. split; [reflexivity|]. split.
  - intros H. apply andb_prop in H. destruct H as [H _]. apply Z.leb_le in H.
    destruct (Z.ltb_spec n 8); [lia | reflexivity].
  - intros H. split.
    + apply andb_false_intro2. apply Z.leb_gt. exact H.
    + destruct (Z.ltb_spec n 8); [lia | reflexivity].
Qed.

Lemma validate_mobile_number_against_normalize_witness :
  validate_mobile_number (PStr "+91 98765 43210") = true
  /\ normalize_mobile_number (PStr "+91 98765 43210") = Some "+919876543210"
  /\ validate_mobile_number (PStr "1234567890123456") = false
  /\ normalize_mobile_number (PStr "1234567890123456") = Some "1234567890123456".
Proof.
  destruct (validate_mobile_number_against_normalize "+91 98765 43210")
    as (_ & A & _).
  destruct (validate_mobile_number_against_normalize "1234567890123456")
    as (_ & _ & B).
  split; [reflexivity|]. split; [apply A; reflexivity|].
  apply B. reflexivity.
Defined.

Lemma validate_datetime_default (s : string) :
  validate_datetime (PStr s) None = try_formats (strip s) default_formats.
Proof.
  unfold validate_datetime, truthy, str.
  destruct (String.eqb_spec s "") as [->|_]; reflexivity.
Qed.

Lemma validate_string_eq (s : string) (lo hi : Z) :
  1 <= lo ->
  validate_string (PStr s) lo hi
  = ((lo <=? len (strip s)) && (len (strip s) <=? hi))%bool.
Proof.
  intros H. unfold validate_string, truthy, str.
  destruct (String.eqb_spec s "") as [->|_]; [|reflexivity].
  change (len (strip "")) with 0. simpl.
  destruct (Z.leb_spec lo 0); [lia | reflexivity].
Qed.

(** X3: white space around the input changes no answer: each validator
    gives for a string what it gives for the stripped string
    ([validate_string] when at least one character is required). *)
Theorem validators_ignore_surrounding_space (s : string) (lo hi : Z) :
  1 <= lo ->
  normalize_mobile_number (PStr (strip s)) = normalize_mobile_number (PStr s)
  /\ validate_mobile_number (PStr (strip s)) = validate_mobile_number (PStr s)
  /\ validate_datetime (PStr (strip s)) None = validate_datetime (PStr s) None
  /\ validate_string (PStr (strip s)) lo hi = validate_string (PStr s) lo hi.
Proof.
  intros H. repeat split.
  - rewrite !normalize_mobile_number_eq.
    now rewrite (keep_strip _ digit_no_space), (keep_strip _ space_not_kept).
  - rewrite !validate_mobile_number_eq. now rewrite (keep_strip _ digit_no_space).
  - rewrite !validate_datetime_default. now rewrite strip_idem.
  - rewrite !validate_string_eq by exact H. now rewrite strip_idem.
Qed.

Lemma validators_ignore_surrounding_space_witness :
  normalize_mobile_number (PStr (strip "  98765 43210 "))
  = normalize_mobile_number (PStr "  98765 43210 ")
  /\ validate_mobile_number (PStr (strip "  98765 43210 "))
     = validate_mobile_number (PStr "  98765 43210 ")
  /\ validate_datetime (PStr (strip "  98765 43210 ")) None
     = validate_datetime (PStr "  98765 43210 ") None
  /\ validate_string (PStr (strip "  98765 43210 ")) 2 255
     = validate_string (PStr "  98765 43210 ") 2 255.
Proof.
  apply (validators_ignore_surrounding_space "  98765 43210 " 2 255). lia.
Defined.

End ValidatorExtras.

(** * The default formats of [validate_datetime] exclude each other *)

Module DatetimeExtras.
Import Py Datetime Validators.

(** A character that a directive or a run of white space can match. *)
Definition digit_or_space (a : ascii) : bool := (is_digit a || is_space a)%bool.

Fixpoint any (p : ascii -> bool) (s : string) : bool :=
  match s with
  | String a s' => (p a || any p s')%bool
  | EmptyString => false
  end.

Fixpoint every (p : ascii -> bool) (s : string) : bool :=
  match s with
  | String a s' => (p a && every p s')%bool
  | EmptyString => true
  end.

(** The text [m] is matched by the sequence of classes [alt]. *)
Fixpoint fits (alt : list cls) (m : string) : bool :=
  match alt, m with
  | [], EmptyString => true
  | c :: alt', String a m' => (c a && fits alt' m')%bool
  | _, _ => false
  end.

(** The format holds the literal [c], case apart. *)
Definition has_literal (c : ascii) (fmt : format) : bool :=
  existsb (fun d => match d with
                    | Lit c' => Ascii.eqb (lower c') (lower c)
                    | _ => false
                    end) fmt.

(** The first four characters are digits. *)
Definition starts_with_year (s : string) : bool :=
  match s with
  | String a (String b (String c (String d _))) =>
      (is_digit a && is_digit b && is_digit c && is_digit d)%bool
  | _ => false
  end.

(** What tells the five formats apart in a string they accept: a letter T,
    a colon, a slash, a year in front. *)
Definition signature (s : string) : bool * bool * bool * bool :=
  (any (nocase "T") s, any (nocase ":") s, any (nocase "/") s,
   starts_with_year s).

Definition signature_of (fmt : format) : bool * bool * bool * bool :=
  (has_literal "T" fmt, has_literal ":" fmt, has_literal "/" fmt,
   match fmt with DY :: _ => true | _ => false end).

Lemma append_nil_r (s : string) : (s ++ "")%string = s.
Proof. induction s as [|a s IH]; simpl; [reflexivity | now rewrite IH]. Qed.

Lemma append_assoc (s t u : string) :
  ((s ++ t) ++ u)%string = (s ++ t ++ u)%string.
Proof. induction s as [|a s IH]; simpl; [reflexivity | now rewrite IH]. Qed.

Lemma any_app (p : ascii -> bool) (s t : string) :
  any p (s ++ t) = (any p s || any p t)%bool.
Proof.
  induction s as [|a s IH]; simpl; [reflexivity|]. now rewrite IH, orb_assoc.
Qed.

Lemma any_none (p q : ascii -> bool) (s : string) :
  (forall a, q a = true -> p a = false) -> every q s = true -> any p s = false.
Proof.
  intros H. induction s as [|a s IH]; simpl; [reflexivity|].
  intros E. apply andb_prop in E. destruct E as [E1 E2].
  now rewrite (H a E1), IH.
Qed.

Lemma take_fits (alt : list cls) (s m r : string) :
  take alt s = Some (m, r) -> s = (m ++ r)%string /\ fits alt m = true.
Proof.
  revert s m r. induction alt as [|c alt IH]; simpl; intros s m r.
  - intros [= <- <-]. split; reflexivity.
  - destruct s as [|a s]; [discriminate|].
    destruct (c a) eqn:C; [|discriminate].
    destruct (take alt s) as [[m' r']|] eqn:T; [|discriminate].
    intros [= <- <-]. destruct (IH s m' r' T) as [-> F]. simpl.
    now rewrite C, F.
Qed.

Lemma blanks_in (s m r : string) :
  In (m, r) (blanks s) ->
  s = (m ++ r)%string /\ every is_space m = true /\ m <> EmptyString.
Proof.
  revert m r. induction s as [|a s IH]; simpl; intros m r; [tauto|].
  destruct (is_space a) eqn:Sp; [|intros []].
  intros H. apply in_app_or in H. destruct H as [H | [H | []]].
  - apply in_map_iff in H. destruct H as ([m' r'] & E & H). simpl in E.
    injection E as <- <-. destruct (IH m' r' H) as (-> & Ev & _).
    simpl. rewrite Sp, Ev. repeat split. discriminate.
  - injection H as <- <-. simpl. rewrite Sp. repeat split. discriminate.
Qed.

Lemma first_some_in {A B : Type} (f : A -> option B) (l : list A) (y : B) :
  first_some f l = Some y -> exists x, In x l /\ f x = Some y.
Proof.
  induction l as [|x l IH]; simpl; [discriminate|].
  destruct (f x) as [y'|] eqn:E.
  - intros [= <-]. exists x. auto.
  - intros H. destruct (IH H) as (x' & Hx & Hf). exists x'. auto.
Qed.

(** A directive for a number matches digits, and [%d] a space before one
    digit. *)
Definition numeric (d : directive) : bool :=
  match d with
  | Lit _ | Blank => false
  | _ => true
  end.

Lemma numeric_class (d : directive) (alt : list cls) (c : cls) (a : ascii) :
  numeric d = true -> In alt (alternatives d) -> In c alt ->
  c a = true -> digit_or_space a = true.
Proof.
  intros N Ha Hc.
  destruct d; try discriminate N; simpl in Ha;
    repeat (destruct Ha as [<- | Ha]; [|]); try contradiction;
    simpl in Hc; repeat (destruct Hc as [<- | Hc]; [|]); try contradiction;
    destruct a as [[] [] [] [] [] [] [] []]; vm_compute; congruence.
Qed.

Lemma fits_every (alt : list cls) (m : string) (q : ascii -> bool) :
  (forall c a, In c alt -> c a = true -> q a = true) ->
  fits alt m = true -> every q m = true.
Proof.
  revert m. induction alt as [|c alt IH]; intros [|a m] H; simpl;
    try discriminate; [reflexivity|].
  intros F. apply andb_prop in F. destruct F as [C F].
  rewrite (H c a (or_introl eq_refl) C). apply IH; [|exact F].
  intros c' a' Hc'. apply H. now right.
Qed.

(** The text one item of a format matches. *)
Definition piece (d : directive) (m : string) : Prop :=
  match d with
  | Blank => every is_space m = true /\ m <> EmptyString
  | Lit c => exists a, m = String a EmptyString /\ nocase c a = true
  | _ => exists alt, In alt (alternatives d) /\ fits alt m = true
  end.

Lemma candidates_piece (d : directive) (s m r : string) :
  In (m, r) (candidates d s) -> s = (m ++ r)%string /\ piece d m.
Proof.
  assert (G : In (m, r)
                 (flat_map (fun alt => match take alt s with
                                       | Some mr => [mr]
                                       | None => []
                                       end) (alternatives d)) ->
              s = (m ++ r)%string
              /\ exists alt, In alt (alternatives d) /\ fits alt m = true).
  { intros H. apply in_flat_map in H. destruct H as (alt & Ha & H).
    destruct (take alt s) as [[m' r']|] eqn:T; [|contradiction].
    destruct H as [E | []]. injection E as -> ->.
    destruct (take_fits alt s m r T) as [E F]. eauto. }
  destruct d; simpl; try exact G.
  - intros H. destruct (G H) as (E & alt & [<- | []] & F). split; [exact E|].
    destruct m as [|a [|b m]]; simpl in F; try discriminate;
      [|rewrite andb_false_r in F; discriminate].
    exists a. split; [reflexivity|]. now rewrite andb_true_r in F.
  - intros H. destruct (blanks_in s m r H) as (E & Ev & Ne). repeat split; auto.
Qed.

Lemma piece_chars (d : directive) (m : string) :
  piece d m ->
  match d with
  | Lit c => exists a, m = String a EmptyString /\ nocase c a = true
  | _ => every digit_or_space m = true
  end.
Proof.
  assert (Sp : forall s, every is_space s = true -> every digit_or_space s = true).
  { induction s as [|a s IH]; simpl; [reflexivity|]. intros E.
    apply andb_prop in E. destruct E as [E1 E2].
    unfold digit_or_space at 1. now rewrite E1, orb_true_r, IH. }
  destruct d; cbn [piece];
    try (intros (alt & Ha & F);
         apply (fits_every alt m digit_or_space); [|exact F];
         intros c a Hc Hca;
         refine (numeric_class _ alt c a _ Ha Hc Hca); reflexivity).
  - intros P. exact P.
  - intros [E _]. now apply Sp.
Qed.

(** The literals of a format are found in the text it matches, and no
    other character that is neither a digit nor white space. *)
Lemma re_match_literals (c : ascii) (fmt : format) (s : string) (fd : found)
      (rest : string) :
  (forall a, digit_or_space a = true -> nocase c a = false) ->
  re_match fmt s = Some (fd, rest) ->
  exists m, s = (m ++ rest)%string /\ any (nocase c) m = has_literal c fmt.
Proof.
  intros Sep. revert s fd rest.
  induction fmt as [|d fmt IH]; simpl; intros s fd rest.
  - intros [= <- <-]. exists EmptyString. split; reflexivity.
  - intros H. apply first_some_in in H. destruct H as ([m r] & Hc & H).
    simpl in H. destruct (re_match fmt r) as [[fd' rest']|] eqn:R; [|discriminate].
    injection H as <- <-. destruct (IH r fd' rest' R) as (m' & -> & A).
    destruct (candidates_piece d s m _ Hc) as [-> P].
    exists (m ++ m')%string. split; [now rewrite append_assoc|].
    rewrite any_app, A. f_equal. apply piece_chars in P.
    destruct d; try (apply (any_none _ digit_or_space); assumption).
    destruct P as (a & -> & N). simpl. rewrite orb_false_r.
    unfold nocase in *. apply Ascii.eqb_eq in N. rewrite <- N.
    apply Ascii.eqb_sym.
Qed.

Lemma re_match_year (fmt : format) (s : string) (fd : found) (rest : string) :
  re_match (DY :: fmt) s = Some (fd, rest) -> starts_with_year s = true.
Proof.
  simpl. intros H. apply first_some_in in H. destruct H as ([m r] & Hc & _).
  destruct (candidates_piece DY s m r Hc) as [-> (alt & [<- | []] & F)].
  destruct m as [|a [|b [|c [|d [|e m]]]]]; simpl in F; try discriminate;
    try (repeat (apply andb_prop in F; destruct F as [? F]); discriminate).
  simpl. rewrite andb_true_r in F. rewrite !andb_assoc in F. exact F.
Qed.

Lemma fits_length (alt : list cls) (m : string) :
  fits alt m = true -> String.length m = length alt.
Proof.
  revert m. induction alt as [|c alt IH]; intros [|a m]; simpl;
    try discriminate; [reflexivity|].
  intros F. apply andb_prop in F. destruct F as [_ F]. now rewrite (IH m F).
Qed.

Lemma no_year_after_one (x a : ascii) (r : string) :
  is_digit a = false -> starts_with_year (String x (String a r)) = false.
Proof.
  intros Sep. destruct r as [|c [|d r]]; cbn [starts_with_year];
    try reflexivity.
  rewrite Sep, andb_false_r. reflexivity.
Qed.

Lemma no_year_after_two (x y a : ascii) (r : string) :
  is_digit a = false ->
  starts_with_year (String x (String y (String a r))) = false.
Proof.
  intros Sep. destruct r as [|d r]; cbn [starts_with_year]; try reflexivity.
  rewrite Sep, andb_false_r. reflexivity.
Qed.

Lemma re_match_day (c : ascii) (fmt : format) (s : string) (fd : found)
      (rest : string) :
  (forall a, nocase c a = true -> is_digit a = false) ->
  re_match (Dd :: Lit c :: fmt) s = Some (fd, rest) ->
  starts_with_year s = false.
Proof.
  intros Sep H. cbn [re_match] in H.
  apply first_some_in in H. destruct H as ([m r] & Hc & H). cbn [snd] in H.
  destruct (first_some _ (candidates (Lit c) r)) as [[fd1 rest1]|] eqn:H1;
    [|discriminate].
  apply first_some_in in H1. destruct H1 as ([m1 r1] & Hc1 & _).
  destruct (candidates_piece Dd s m r Hc) as [-> (alt & Ha & F)].
  destruct (candidates_piece (Lit c) r m1 r1 Hc1) as [-> (a & -> & N)].
  specialize (Sep a N). apply fits_length in F.
  assert (L : String.length m = 1%nat \/ String.length m = 2%nat).
  { rewrite F. simpl in Ha.
    destruct Ha as [<- | [<- | [<- | [<- | [<- | []]]]]]; auto. }
  destruct m as [|x [|y [|z m]]]; simpl in L; try (destruct L; discriminate).
  - now apply no_year_after_one.
  - now apply no_year_after_two.
Qed.

Lemma separators :
  (forall a, digit_or_space a = true -> nocase "T" a = false)
  /\ (forall a, digit_or_space a = true -> nocase ":" a = false)
  /\ (forall a, digit_or_space a = true -> nocase "/" a = false)
  /\ (forall a, nocase "-" a = true -> is_digit a = false)
  /\ (forall a, nocase "/" a = true -> is_digit a = false).
Proof.
  repeat split; intros a; destruct a as [[] [] [] [] [] [] [] []];
    vm_compute; congruence.
Qed.

Lemma strptime_signature (s : string) (fmt : format) (dt : datetime) :
  In fmt default_formats -> strptime s fmt = Some dt ->
  signature s = signature_of fmt.
Proof.
  intros Hf H. unfold strptime in H.
  destruct (re_match fmt s) as [[fd [|x rest]]|] eqn:R; try discriminate.
  destruct separators as (ST & SC & SS & SD & SL).
  destruct (re_match_literals "T" fmt s fd EmptyString ST R) as (m1 & E1 & A1).
  destruct (re_match_literals ":" fmt s fd EmptyString SC R) as (m2 & E2 & A2).
  destruct (re_match_literals "/" fmt s fd EmptyString SS R) as (m3 & E3 & A3).
  rewrite append_nil_r in E1, E2, E3. subst m1 m2 m3.
  unfold signature, signature_of. rewrite A1, A2, A3. f_equal.
  simpl in Hf. destruct Hf as [<- | [<- | [<- | [<- | [<- | []]]]]].
  - eapply re_match_year, R.
  - eapply re_match_year, R.
  - eapply re_match_year, R.
  - eapply (re_match_day "-"), R. exact SD.
  - eapply (re_match_day "/"), R. exact SL.
Qed.

(** X27: the five default formats of [validate_datetime] exclude each
    other: no string is parsed by two of them.  So the order of the list
    decides nothing: whenever one of the formats parses the stripped
    input, [validate_datetime] returns the datetime that this format
    gives. *)
Theorem default_formats_are_exclusive (s : string) (f1 f2 : format)
        (dt1 dt2 : datetime) :
  In f1 default_formats -> In f2 default_formats ->
  strptime (strip s) f1 = Some dt1 ->
  strptime (strip s) f2 = Some dt2 ->
  f1 = f2 /\ validate_datetime (PStr s) None = Some dt1.
Proof.
  intros H1 H2 P1 P2.
  pose proof (strptime_signature _ _ _ H1 P1) as S1.
  pose proof (strptime_signature _ _ _ H2 P2) as S2.
  assert (E : f1 = f2).
  { rewrite S1 in S2. clear - H1 H2 S2. simpl in H1, H2.
    destruct H1 as [<- | [<- | [<- | [<- | [<- | []]]]]];
      destruct H2 as [<- | [<- | [<- | [<- | [<- | []]]]]];
      try reflexivity; vm_compute in S2; discriminate S2. }
  split; [exact E|].
  rewrite ValidatorExtras.validate_datetime_default.
  destruct (try_formats (strip s) default_formats) as [dt|] eqn:T.
  - apply ValidatorsFacts.try_formats_some in T.
    destruct T as (b & f & a & Ef & _ & Pf).
    assert (Hf : In f default_formats) by (rewrite Ef; apply in_elt).
    pose proof (strptime_signature _ _ _ Hf Pf) as Sf.
    assert (f = f1); [|congruence].
    rewrite S1 in Sf. clear - H1 Hf Sf. simpl in H1, Hf.
    destruct H1 as [<- | [<- | [<- | [<- | [<- | []]]]]];
      destruct Hf as [<- | [<- | [<- | [<- | [<- | []]]]]];
      try reflexivity; vm_compute in Sf; discriminate Sf.
  - apply ValidatorsFacts.try_formats_none in T. rewrite Forall_forall in T.
    rewrite (T f1 H1) in P1. discriminate.
Qed.

Lemma default_formats_are_exclusive_witness :
  fmt_dmy_slash = fmt_dmy_slash
  /\ validate_datetime (PStr " 7/3/2024 ") None
     = Some (mkDatetime 2024 3 7 0 0 0).
Proof.
  apply (default_formats_are_exclusive " 7/3/2024 " fmt_dmy_slash fmt_dmy_slash
           (mkDatetime 2024 3 7 0 0 0) (mkDatetime 2024 3 7 0 0 0)).
  - simpl. auto 10.
  - simpl. auto 10.
  - reflexivity.
  - reflexivity.
Defined.

End DatetimeExtras.

(** * Further properties of the ingestion pipelines *)

Module LoaderExtras.
Import Py LoaderFacts PipelineResult.

Lemma filter_nil_iff {A : Type} (p : A -> bool) (l : list A) :
  filter p l = [] <-> Forall (fun x => p x = false) l.
Proof.
  induction l as [|x l IH]; simpl.
  - split; [constructor | reflexivity].
  - destruct (p x) eqn:E.
    + split; [discriminate|]. intros H. inversion H; congruence.
    + rewrite IH. split; [now constructor | intros H; now inversion H].
Qed.

Lemma nonempty_false {A : Type} (l : list A) : nonempty l = false <-> l = [].
Proof. destruct l; simpl; split; congruence. Qed.

Lemma csv_messages_nil (rs : list CsvLoader.row) :
  csv_messages rs = [] <-> Forall (fun r => CsvLoader.row_errors r = []) rs.
Proof.
  unfold csv_messages. split.
  - intros E. apply map_eq_nil in E. apply (f_equal (@length _)) in E.
    rewrite (filter_enumerate_length csv_invalid) in E.
    apply length_zero_iff_nil, filter_nil_iff in E.
    eapply Forall_impl; [|exact E]. intros r. apply nonempty_false.
  - intros F.
    assert (E : filter csv_invalid rs = []).
    { apply filter_nil_iff. eapply Forall_impl; [|exact F].
      intros r. apply nonempty_false. }
    apply (f_equal (@length _)) in E.
    rewrite <- (filter_enumerate_length csv_invalid rs 0) in E.
    apply length_zero_iff_nil in E. now rewrite E.
Qed.

Lemma xml_messages_nil `{Numeric} (os : list XmlLoader.order) :
  xml_messages os = [] <-> Forall (fun o => XmlLoader.order_errors o = []) os.
Proof.
  unfold xml_messages. split.
  - intros E. apply map_eq_nil in E. apply (f_equal (@length _)) in E.
    rewrite (filter_enumerate_length xml_invalid) in E.
    apply length_zero_iff_nil, filter_nil_iff in E.
    eapply Forall_impl; [|exact E]. intros r. apply nonempty_false.
  - intros F.
    assert (E : filter xml_invalid os = []).
    { apply filter_nil_iff. eapply Forall_impl; [|exact F].
      intros r. apply nonempty_false. }
    apply (f_equal (@length _)) in E.
    rewrite <- (filter_enumerate_length xml_invalid os 0) in E.
    apply length_zero_iff_nil in E. now rewrite E.
Qed.

Lemma validate_dataframe_rows (df : CsvLoader.frame) :
  default_index df ->
  CsvLoader.missing_cols df = [] -> CsvLoader.rows df <> [] ->
  CsvLoader.validate_dataframe df
  = inr (match csv_messages (CsvLoader.rows df) with [] => true | _ => false end,
         csv_messages (CsvLoader.rows df)).
Proof.
  intros Hd Hc Hr. unfold CsvLoader.validate_dataframe. rewrite Hc.
  destruct (CsvLoader.items df) as [|it its] eqn:I.
  - apply items_nil in I. contradiction.
  - rewrite <- I, Hd, validate_rows_eq. reflexivity.
Qed.

(** What [validate_dataframe] returns for a frame with the four columns
    and at least one row, by the outcome of the loop. *)
Lemma validate_dataframe_loop (df : CsvLoader.frame) :
  CsvLoader.missing_cols df = [] -> CsvLoader.rows df <> [] ->
  CsvLoader.validate_dataframe df
  = match CsvLoader.validate_rows (CsvLoader.items df) [] with
    | inl e => inl e
    | inr errors => inr (match errors with [] => true | _ => false end, errors)
    end.
Proof.
  intros Hc Hr. unfold CsvLoader.validate_dataframe. rewrite Hc.
  destruct (CsvLoader.items df) as [|it its] eqn:I; [|reflexivity].
  apply items_nil in I. contradiction.
Qed.

Lemma validate_dataframe_returns (df : CsvLoader.frame) (ok : bool)
      (errs : list string) :
  CsvLoader.validate_dataframe df = inr (ok, errs) ->
  (ok = true <-> errs = []).
Proof.
  unfold CsvLoader.validate_dataframe.
  destruct (CsvLoader.missing_cols df);
    [|intros [= <- <-]; split; discriminate].
  destruct (CsvLoader.items df) as [|it its];
    [intros [= <- <-]; split; discriminate|].
  destruct (CsvLoader.validate_rows (it :: its) []) as [e|[|m ms]];
    [discriminate | |]; intros [= <- <-]; split; congruence.
Qed.

Lemma validate_dataframe_valid (df : CsvLoader.frame) :
  CsvLoader.validate_dataframe df = inr (true, [])
  <-> CsvLoader.missing_cols df = []
      /\ CsvLoader.rows df <> []
      /\ Forall (fun r => CsvLoader.row_errors r = []) (CsvLoader.rows df).
Proof.
  split.
  - intros V.
    destruct (CsvLoader.missing_cols df) as [|c cs] eqn:Hc;
      [|unfold CsvLoader.validate_dataframe in V; rewrite Hc in V; discriminate].
    destruct (CsvLoader.rows df) as [|r rs] eqn:Hr.
    + apply items_nil in Hr. unfold CsvLoader.validate_dataframe in V.
      rewrite Hc, Hr in V. discriminate.
    + split; [reflexivity|]. split; [discriminate|].
      rewrite validate_dataframe_loop in V by congruence.
      destruct (CsvLoader.validate_rows (CsvLoader.items df) []) as [e|errs] eqn:L;
        [discriminate|].
      apply validate_rows_length in L. fold (CsvLoader.rows df) in L.
      destruct errs; [|discriminate]. simpl in L. symmetry in L.
      apply length_zero_iff_nil, filter_nil_iff in L. rewrite Hr in L.
      eapply Forall_impl; [|exact L]. intros x. apply nonempty_false.
  - intros (Hc & Hr & F). rewrite validate_dataframe_loop by assumption.
    now rewrite validate_rows_valid.
Qed.

Lemma validate_orders_rows `{Numeric} (os : list XmlLoader.order) :
  os <> [] ->
  XmlLoader.validate_orders os
  = (match xml_messages os with [] => true | _ => false end, xml_messages os).
Proof.
  intros Hr. unfold XmlLoader.validate_orders.
  destruct os as [|o os]; [congruence|].
  assert (E : XmlLoader.validate_loop 0 (o :: os) [] = xml_messages (o :: os))
    by (rewrite validate_loop_eq; reflexivity).
  now rewrite E.
Qed.

(** X4: the verdict of [validate_dataframe] and its list of messages go
    together: whenever it returns, the frame is valid exactly when the
    list is empty, and it returns valid exactly when the four required
    columns are there, there is at least one row, and no row has an error.
    A frame without a required column or without rows gets one message and
    no row is looked at. *)
Theorem validate_dataframe_verdict (df : CsvLoader.frame) :
  (forall ok errs,
      CsvLoader.validate_dataframe df = inr (ok, errs) ->
      (ok = true <-> errs = []))
  /\ (CsvLoader.validate_dataframe df = inr (true, [])
      <-> CsvLoader.missing_cols df = []
          /\ CsvLoader.rows df <> []
          /\ Forall (fun r => CsvLoader.row_errors r = []) (CsvLoader.rows df))
  /\ (CsvLoader.missing_cols df <> [] \/ CsvLoader.rows df = [] ->
      exists msg, CsvLoader.validate_dataframe df = inr (false, [msg])).
Proof.
  split; [intros ok errs; apply validate_dataframe_returns|].
  split; [apply validate_dataframe_valid|].
  unfold CsvLoader.validate_dataframe.
  destruct (CsvLoader.missing_cols df) as [|c cs].
  - intros [E | E]; [congruence|]. apply items_nil in E. rewrite E. eauto.
  - intros _. eauto.
Qed.

(** X5: the same for [validate_orders]: the batch is valid exactly when the
    list of messages is empty, which is when there is at least one order
    and no order has an error; an empty batch gets the single message "No
    orders found in XML file". *)
Theorem validate_orders_verdict `{Numeric} (os : list XmlLoader.order) :
  (fst (XmlLoader.validate_orders os) = true
   <-> snd (XmlLoader.validate_orders os) = [])
  /\ (fst (XmlLoader.validate_orders os) = true
      <-> os <> [] /\ Forall (fun o => XmlLoader.order_errors o = []) os)
  /\ XmlLoader.validate_orders [] = (false, ["No orders found in XML file"]).
Proof.
  destruct os as [|o os].
  - simpl. split; [split; discriminate|]. split; [|reflexivity].
    split; [discriminate | intros (E & _); congruence].
  - assert (Hn : o :: os <> []) by discriminate.
    rewrite (validate_orders_rows (o :: os) Hn). simpl.
    pose proof (xml_messages_nil (o :: os)) as N.
    destruct (xml_messages (o :: os)) as [|m ms].
    + split; [split; reflexivity|]. split; [|reflexivity].
      split; [|reflexivity]. intros _. split; [discriminate | now apply N].
    + split; [split; discriminate|]. split; [|reflexivity].
      split; [discriminate|]. intros (_ & F). apply N in F. discriminate.
Qed.

Lemma drop_duplicates_in (rs : list CsvLoader.row) (seen : list string)
      (r : CsvLoader.row) :
  In r (CsvLoader.drop_duplicates seen rs) -> In r rs.
Proof.
  revert seen. induction rs as [|x rs IH]; simpl; intros seen; [tauto|].
  destruct (existsb _ seen).
  - intros Hin. right. eapply IH; eauto.
  - intros [<- | Hin]; [now left | right; eapply IH; eauto].
Qed.

Lemma drop_duplicates_length (rs : list CsvLoader.row) (seen : list string) :
  (length (CsvLoader.drop_duplicates seen rs) <= length rs)%nat.
Proof.
  revert seen. induction rs as [|x rs IH]; simpl; intros seen; [lia|].
  destruct (existsb _ seen); simpl.
  - specialize (IH seen). lia.
  - specialize (IH (Py.str (CsvLoader.customer_id x) :: seen)). lia.
Qed.

(** A row that [clean_dataframe] keeps. *)
Definition clean_row (r : CsvLoader.row) : Prop :=
  (exists k, CsvLoader.customer_id r = PStr k /\ strip k = k)
  /\ (exists m, CsvLoader.mobile_number r = PStr m
                /\ Validators.normalize_mobile_number (PStr m) = Some m)
  /\ CsvLoader.is_na (CsvLoader.customer_name r) = false
  /\ CsvLoader.is_na (CsvLoader.region r) = false.

Lemma clean_dataframe_rows (df : CsvLoader.frame) (r : CsvLoader.row) :
  In r (CsvLoader.clean_dataframe df) -> clean_row r.
Proof.
  unfold CsvLoader.clean_dataframe, CsvLoader.dropna.
  set (stripped := map _ (CsvLoader.rows df)).
  intros Hr. apply filter_In in Hr.
  destruct Hr as [Hr Hna]. apply drop_duplicates_in in Hr.
  apply in_map_iff in Hr.
  destruct Hr as (r0 & <- & _). simpl in *.
  apply negb_true_iff in Hna. apply orb_false_elim in Hna.
  destruct Hna as [Hna Hreg]. apply orb_false_elim in Hna.
  destruct Hna as [Hname Hmob].
  split; [|split; [|split]]; try assumption.
  - eexists. split; [reflexivity | apply ValidatorExtras.strip_idem].
  - destruct (Validators.normalize_mobile_number (CsvLoader.mobile_number r0))
      as [m|] eqn:E; [|discriminate].
    exists m. split; [reflexivity|].
    eapply ValidatorExtras.normalize_mobile_number_again; eauto.
Qed.

(** X6: what [clean_dataframe] hands to the store, whatever the frame: no
    more rows than it was given, no two with the same customer_id, each
    customer_id a stripped string, each mobile_number a string that
    [normalize_mobile_number] leaves as it is, and no null name or
    region. *)
Theorem clean_dataframe_invariants (df : CsvLoader.frame) :
  (length (CsvLoader.clean_dataframe df) <= length (CsvLoader.rows df))%nat
  /\ NoDup (map StoreFacts.key (CsvLoader.clean_dataframe df))
  /\ Forall (fun r =>
               (exists k, CsvLoader.customer_id r = PStr k /\ strip k = k)
               /\ (exists m, CsvLoader.mobile_number r = PStr m
                             /\ Validators.normalize_mobile_number (PStr m) = Some m)
               /\ CsvLoader.is_na (CsvLoader.customer_name r) = false
               /\ CsvLoader.is_na (CsvLoader.region r) = false)
            (CsvLoader.clean_dataframe df).
Proof.
  split; [|split].
  - unfold CsvLoader.clean_dataframe, CsvLoader.dropna.
    eapply Nat.le_trans; [apply filter_length_le|].
    eapply Nat.le_trans; [apply drop_duplicates_length|].
    rewrite !length_map. lia.
  - unfold CsvLoader.clean_dataframe, CsvLoader.dropna.
    apply (StoreFacts.filter_keeps_distinct_keys StoreFacts.key).
    apply StoreFacts.drop_duplicates_keys.
  - apply Forall_forall. intros r Hr. exact (clean_dataframe_rows df r Hr).
Qed.

Section Outcome.
Context `{Numeric}.

Lemma validate_dataframe_false (df : CsvLoader.frame) (errs : list string) :
  CsvLoader.validate_dataframe df = inr (false, errs) -> errs <> [].
Proof.
  intros V E. apply (validate_dataframe_returns df false errs V) in E.
  discriminate.
Qed.

Lemma validate_orders_false (os : list XmlLoader.order) (errs : list string) :
  XmlLoader.validate_orders os = (false, errs) -> errs <> [].
Proof.
  unfold XmlLoader.validate_orders.
  destruct os as [|o os]; [intros [= <-]; discriminate|].
  destruct (XmlLoader.validate_loop 0 (o :: os) []);
    intros [= <-]; discriminate.
Qed.

Lemma csv_load_to_database_orders (rs : list CsvLoader.row) (mode : string)
      (d : Db.Database) :
  Db.orders (snd (CsvLoader.load_to_database rs mode d)) = Db.orders d.
Proof.
  unfold CsvLoader.load_to_database, Db.execute_delete_customers,
    Db.execute_many_customers, Db.execute_command.
  destruct (mode =? "replace")%string.
  - destruct (Db.fault d _); simpl; [reflexivity|].
    destruct (Db.fault d _); reflexivity.
  - destruct (Db.fault d _); reflexivity.
Qed.

Lemma xml_load_to_database_customers (cs : list XmlLoader.cleaned)
      (mode : string) (d : Db.Database) :
  Db.customers (snd (XmlLoader.load_to_database cs mode d)) = Db.customers d.
Proof.
  unfold XmlLoader.load_to_database, Db.execute_delete_orders,
    Db.execute_many_orders, Db.execute_command.
  destruct (mode =? "replace")%string.
  - destruct (Db.fault d _); simpl; [reflexivity|].
    destruct (Db.fault d _); reflexivity.
  - destruct (Db.fault d _); reflexivity.
Qed.

(** X7: the result of [process_csv] is coherent, whatever the file, the
    mode and the store: success goes with an empty list of errors and the
    number of cleaned rows, failure with at least one error and zero
    records loaded; the orders table is never changed; and when the file
    cannot be read or does not validate, be it that [validate_dataframe]
    reports errors or that it raises, no statement is sent and the store
    is as it was. *)
Theorem process_csv_result (fs : CsvLoader.files) (file_path : option string)
        (mode : string) (d : Db.Database) :
  let out := CsvLoader.process_csv fs file_path mode d in
  let path := match file_path with Some p => p | None => CsvLoader.CUSTOMERS_CSV end in
  (success (fst out) = true <-> errors (fst out) = [])
  /\ (success (fst out) = false -> records_loaded (fst out) = 0)
  /\ (success (fst out) = true ->
      exists df, fs path = Some df
                 /\ CsvLoader.validate_dataframe df = inr (true, [])
                 /\ records_loaded (fst out)
                    = Z.of_nat (length (CsvLoader.clean_dataframe df)))
  /\ Db.orders (snd out) = Db.orders d
  /\ ((forall df, fs path = Some df ->
                  CsvLoader.validate_dataframe df <> inr (true, [])) ->
      snd out = d).
Proof.
  intros out path. subst out. unfold CsvLoader.process_csv, CsvLoader.load_csv.
  fold path. destruct (fs path) as [df|] eqn:L; simpl.
  - destruct (CsvLoader.validate_dataframe df) as [e|[[|] errs]] eqn:V; simpl.
    + split; [split; discriminate|]. split; [reflexivity|].
      split; [discriminate|]. split; reflexivity.
    + assert (errs = []) by (now apply (validate_dataframe_returns df true errs V)).
      subst errs.
      pose proof (csv_load_to_database_orders (CsvLoader.clean_dataframe df) mode d) as O.
      destruct (CsvLoader.load_to_database _ mode d) as [[|] d'] eqn:Ld; simpl in *.
      * split; [split; reflexivity|]. split; [discriminate|].
        split; [|split; [exact O|]].
        -- intros _. exists df. split; [reflexivity|]. split; [exact V | reflexivity].
        -- intros Hf. specialize (Hf df eq_refl). contradiction.
      * split; [split; discriminate|]. split; [reflexivity|].
        split; [discriminate|]. split; [exact O|].
        intros Hf. specialize (Hf df eq_refl). contradiction.
    + pose proof (validate_dataframe_false df errs V) as Ne.
      split; [split; [discriminate | intros E; contradiction]|].
      split; [reflexivity|]. split; [discriminate|]. split; reflexivity.
  - split; [split; discriminate|]. split; [reflexivity|].
    split; [discriminate|]. split; reflexivity.
Qed.

(** X8: the same for [process_xml], with the customers table the one that
    is never changed. *)
Theorem process_xml_result (fs : XmlLoader.files) (file_path : option string)
        (mode : string) (d : Db.Database) :
  let out := XmlLoader.process_xml fs file_path mode d in
  let path := match file_path with Some p => p | None => XmlLoader.ORDERS_XML end in
  (success (fst out) = true <-> errors (fst out) = [])
  /\ (success (fst out) = false -> records_loaded (fst out) = 0)
  /\ (success (fst out) = true ->
      exists os, fs path = Some os
                 /\ fst (XmlLoader.validate_orders os) = true
                 /\ records_loaded (fst out)
                    = Z.of_nat (length (XmlLoader.clean_orders os)))
  /\ Db.customers (snd out) = Db.customers d
  /\ ((forall os, fs path = Some os ->
                  fst (XmlLoader.validate_orders os) = false) ->
      snd out = d).
Proof.
  intros out path. subst out. unfold XmlLoader.process_xml, XmlLoader.load_xml.
  fold path. destruct (fs path) as [os|] eqn:L; simpl.
  - destruct (XmlLoader.validate_orders os) as [[|] errs] eqn:V; simpl.
    + pose proof (xml_load_to_database_customers (XmlLoader.clean_orders os) mode d) as O.
      destruct (XmlLoader.load_to_database _ mode d) as [[|] d'] eqn:Ld; simpl in *.
      * split; [split; reflexivity|]. split; [discriminate|].
        split; [|split; [exact O|]].
        -- intros _. exists os. rewrite V. repeat split.
        -- intros Hf. specialize (Hf os eq_refl). rewrite V in Hf. discriminate.
      * split; [split; discriminate|]. split; [reflexivity|].
        split; [discriminate|]. split; [exact O|].
        intros Hf. specialize (Hf os eq_refl). rewrite V in Hf. discriminate.
    + pose proof (validate_orders_false os errs V) as Ne.
      split; [split; [discriminate | intros E; contradiction]|].
      split; [reflexivity|]. split; [discriminate|]. split; reflexivity.
  - split; [split; discriminate|]. split; [reflexivity|].
    split; [discriminate|]. split; reflexivity.
Qed.
End Outcome.

End LoaderExtras.

(** * Further properties of loading in append mode

    [INSERT ... ON DUPLICATE KEY UPDATE], for any table with a string key:
    [merge old new] is the row that replaces [old] when [new] has its
    key. *)

Module UpsertFacts.

Section Upsert.
Context {R : Type} (id : R -> string) (merge : R -> R -> R).

Fixpoint upsert (r : R) (tbl : list R) : list R :=
  match tbl with
  | [] => [r]
  | x :: rest =>
      if (id x =? id r)%string then merge x r :: rest
      else x :: upsert r rest
  end.

Definition upsert_all (data tbl : list R) : list R :=
  fold_left (fun t r => upsert r t) data tbl.

(** The row of a key. *)
Definition lookup (k : string) (tbl : list R) : option R :=
  find (fun x => (id x =? k)%string) tbl.

(** The row found under the key of [r] once [r] was upserted. *)
Definition stored (r : R) (old : option R) : R :=
  match old with
  | Some x => merge x r
  | None => r
  end.

Hypothesis merge_id : forall x r, id (merge x r) = id x.

Lemma lookup_upsert (k : string) (r : R) (tbl : list R) :
  lookup k (upsert r tbl)
  = if (id r =? k)%string then Some (stored r (lookup k tbl)) else lookup k tbl.
Proof.
  induction tbl as [|x tbl IH]; simpl.
  - destruct (id r =? k)%string; reflexivity.
  - destruct (String.eqb_spec (id x) (id r)) as [E|E]; simpl.
    + rewrite merge_id, E. destruct (id r =? k)%string; reflexivity.
    + destruct (String.eqb_spec (id x) k) as [K|K].
      * destruct (String.eqb_spec (id r) k); [congruence | reflexivity].
      * exact IH.
Qed.

Lemma ids_upsert (r : R) (tbl : list R) :
  map id (upsert r tbl)
  = (map id tbl ++ if existsb (String.eqb (id r)) (map id tbl) then []
                   else [id r])%list.
Proof.
  induction tbl as [|x tbl IH]; simpl; [reflexivity|].
  rewrite (String.eqb_sym (id r) (id x)).
  destruct (id x =? id r)%string; simpl.
  - now rewrite merge_id, app_nil_r.
  - now rewrite IH.
Qed.

Lemma upsert_keeps_keys_distinct (r : R) (tbl : list R) :
  NoDup (map id tbl) -> NoDup (map id (upsert r tbl)).
Proof.
  intros ND. rewrite ids_upsert.
  destruct (existsb _ _) eqn:E; [now rewrite app_nil_r|].
  apply NoDup_app; [exact ND | repeat constructor; intros [] |].
  intros k Hk [<- | []].
  apply StoreFacts.existsb_eqb_In in Hk. congruence.
Qed.

Lemma upsert_all_keeps_keys_distinct (data tbl : list R) :
  NoDup (map id tbl) -> NoDup (map id (upsert_all data tbl)).
Proof.
  revert tbl. induction data as [|r data IH]; simpl; intros tbl ND; [exact ND|].
  apply IH, upsert_keeps_keys_distinct, ND.
Qed.

Lemma upsert_all_prefix (data tbl : list R) :
  exists added, map id (upsert_all data tbl) = (map id tbl ++ added)%list.
Proof.
  revert tbl. induction data as [|r data IH]; simpl; intros tbl.
  - exists []. now rewrite app_nil_r.
  - destruct (IH (upsert r tbl)) as (added & E). rewrite E, ids_upsert.
    rewrite <- app_assoc. eauto.
Qed.

Lemma lookup_upsert_all_other (k : string) (data tbl : list R) :
  ~ In k (map id data) -> lookup k (upsert_all data tbl) = lookup k tbl.
Proof.
  revert tbl. induction data as [|r data IH]; simpl; intros tbl Hk; [reflexivity|].
  rewrite IH by tauto. rewrite lookup_upsert.
  destruct (String.eqb_spec (id r) k); [tauto | reflexivity].
Qed.

Lemma lookup_upsert_all (r : R) (data tbl : list R) :
  NoDup (map id data) -> In r data ->
  lookup (id r) (upsert_all data tbl) = Some (stored r (lookup (id r) tbl)).
Proof.
  revert tbl. induction data as [|a data IH]; simpl; intros tbl ND Hr; [tauto|].
  inversion ND as [|? ? Ha ND']; subst. destruct Hr as [-> | Hr].
  - rewrite lookup_upsert_all_other by exact Ha.
    now rewrite lookup_upsert, String.eqb_refl.
  - rewrite (IH _ ND' Hr). rewrite lookup_upsert.
    destruct (String.eqb_spec (id a) (id r)) as [E|E]; [|reflexivity].
    exfalso. apply Ha. rewrite E. now apply in_map.
Qed.

Lemma upsert_noop (r x : R) (tbl : list R) :
  lookup (id r) tbl = Some x -> merge x r = x -> upsert r tbl = tbl.
Proof.
  induction tbl as [|y tbl IH]; simpl; [discriminate|].
  destruct (id y =? id r)%string.
  - intros [= ->] E. now rewrite E.
  - intros L E. now rewrite IH.
Qed.

Hypothesis merge_again : forall x r, merge (merge x r) r = merge x r.
Hypothesis merge_self : forall r, merge r r = r.

Lemma upsert_all_noop (data tbl : list R) :
  (forall r, In r data -> upsert r tbl = tbl) -> upsert_all data tbl = tbl.
Proof.
  induction data as [|r data IH]; simpl; intros Hn; [reflexivity|].
  rewrite Hn by now left. apply IH. intros; apply Hn; now right.
Qed.

Lemma upsert_all_twice (data tbl : list R) :
  NoDup (map id data) ->
  upsert_all data (upsert_all data tbl) = upsert_all data tbl.
Proof.
  intros ND. apply upsert_all_noop. intros r Hr.
  apply (upsert_noop r (stored r (lookup (id r) tbl))).
  - now apply lookup_upsert_all.
  - destruct (lookup (id r) tbl); simpl; auto.
Qed.
End Upsert.

(** The replacement row of the customers table: name and region from the
    new row. *)
Definition merge_customer (x r : Customer.t) : Customer.t :=
  Customer.make (Customer.customer_id x) (Customer.customer_name r)
                (Customer.mobile_number x) (Customer.region r).

(** The replacement row of the orders table: count and amount from the
    new row. *)
Definition merge_order (x r : Order.t) : Order.t :=
  Order.make (Order.order_id x) (Order.mobile_number x)
             (Order.order_date_time x) (Order.sku_id x)
             (Order.sku_count r) (Order.total_amount r).

Lemma upsert_customer_eq (r : Customer.t) (tbl : list Customer.t) :
  Db.upsert_customer r tbl = upsert Customer.customer_id merge_customer r tbl.
Proof. induction tbl as [|x tbl IH]; simpl; [|rewrite IH]; reflexivity. Qed.

Lemma upsert_order_eq (r : Order.t) (tbl : list Order.t) :
  Db.upsert_order r tbl = upsert Order.order_id merge_order r tbl.
Proof. induction tbl as [|x tbl IH]; simpl; [|rewrite IH]; reflexivity. Qed.

Lemma insert_customers_eq (data tbl : list Customer.t) :
  fold_left (fun t r => Db.upsert_customer r t) data tbl
  = upsert_all Customer.customer_id merge_customer data tbl.
Proof.
  revert tbl. induction data as [|r data IH]; simpl; intros; [reflexivity|].
  now rewrite IH, upsert_customer_eq.
Qed.

Lemma insert_orders_eq (data tbl : list Order.t) :
  fold_left (fun t r => Db.upsert_order r t) data tbl
  = upsert_all Order.order_id merge_order data tbl.
Proof.
  revert tbl. induction data as [|r data IH]; simpl; intros; [reflexivity|].
  now rewrite IH, upsert_order_eq.
Qed.

Lemma merge_customer_id (x r : Customer.t) :
  Customer.customer_id (merge_customer x r) = Customer.customer_id x.
Proof. reflexivity. Qed.

Lemma merge_customer_again (x r : Customer.t) :
  merge_customer (merge_customer x r) r = merge_customer x r.
Proof. reflexivity. Qed.

Lemma merge_customer_self (r : Customer.t) : merge_customer r r = r.
Proof. now destruct r. Qed.

Lemma merge_order_id (x r : Order.t) :
  Order.order_id (merge_order x r) = Order.order_id x.
Proof. reflexivity. Qed.

Lemma merge_order_again (x r : Order.t) :
  merge_order (merge_order x r) r = merge_order x r.
Proof. reflexivity. Qed.

Lemma merge_order_self (r : Order.t) : merge_order r r = r.
Proof. now destruct r. Qed.

End UpsertFacts.

Module AppendExtras.
Import UpsertFacts PipelineResult.

Lemma csv_load_append (rs : list CsvLoader.row) (mode : string) (d : Db.Database) :
  (mode =? "replace")%string = false ->
  let data := map CsvLoader.to_tuple rs in
  let out := CsvLoader.load_to_database rs mode d in
  Db.fault (snd out) = Db.fault d
  /\ fst out = match Db.fault d (Db.Write (Db.InsertCustomers data)) with
               | None => true
               | Some _ => false
               end
  /\ Db.customers (snd out)
     = if fst out
       then upsert_all Customer.customer_id merge_customer data (Db.customers d)
       else Db.customers d.
Proof.
  intros M data out. subst out. unfold CsvLoader.load_to_database. rewrite M.
  unfold Db.execute_many_customers, Db.execute_command. fold data.
  destruct (Db.fault d _); simpl; [auto|].
  now rewrite insert_customers_eq.
Qed.

Lemma unique_orders_keys `{Numeric} (cs : list XmlLoader.cleaned)
      (seen : list string) :
  NoDup (map XmlLoader.c_order_id (XmlLoader.unique_orders seen cs))
  /\ forall k, In k (map XmlLoader.c_order_id (XmlLoader.unique_orders seen cs))
               -> ~ In k seen.
Proof.
  revert seen. induction cs as [|c cs IH]; intros seen; simpl.
  - split; [constructor | intros k []].
  - destruct (existsb (String.eqb (XmlLoader.c_order_id c)) seen) eqn:E.
    + apply IH.
    + destruct (IH (XmlLoader.c_order_id c :: seen)) as [ND Hfresh]. simpl. split.
      * constructor; [|exact ND]. intros Hin. apply (Hfresh _ Hin). now left.
      * intros k [<- | Hin].
        -- intros Hs. apply StoreFacts.existsb_eqb_In in Hs. congruence.
        -- intros Hs. apply (Hfresh _ Hin). now right.
Qed.

Lemma unique_orders_in `{Numeric} (cs : list XmlLoader.cleaned)
      (seen : list string) (c : XmlLoader.cleaned) :
  In c (XmlLoader.unique_orders seen cs) -> In c cs.
Proof.
  revert seen. induction cs as [|x cs IH]; simpl; intros seen; [tauto|].
  destruct (existsb _ seen).
  - intros Hin. right. eapply IH; eauto.
  - intros [<- | Hin]; [now left | right; eapply IH; eauto].
Qed.

Lemma unique_orders_length `{Numeric} (cs : list XmlLoader.cleaned)
      (seen : list string) :
  (length (XmlLoader.unique_orders seen cs) <= length cs)%nat.
Proof.
  revert seen. induction cs as [|x cs IH]; simpl; intros seen; [lia|].
  destruct (existsb _ seen); simpl.
  - specialize (IH seen). lia.
  - specialize (IH (XmlLoader.c_order_id x :: seen)). lia.
Qed.

Lemma clean_orders_keys `{Numeric} (os : list XmlLoader.order) :
  NoDup (map Order.order_id (map XmlLoader.to_tuple (XmlLoader.clean_orders os))).
Proof. rewrite map_map. apply (unique_orders_keys _ []). Qed.

(** X25: what [clean_orders] hands to the store, whatever the orders: no
    more orders than it was given and no two with the same order_id; each
    is the cleaned form of an order of the input, with order_id and
    sku_id stripped and a mobile_number that [normalize_mobile_number]
    leaves as it is and a date that [validate_datetime] accepted. *)
Theorem clean_orders_invariants `{Numeric} (os : list XmlLoader.order) :
  (length (XmlLoader.clean_orders os) <= length os)%nat
  /\ NoDup (map XmlLoader.c_order_id (XmlLoader.clean_orders os))
  /\ Forall (fun c =>
               (exists o, In o os /\ XmlLoader.clean_one o = Some c
                          /\ Validators.validate_datetime
                               (XmlLoader.order_date_time o) None
                             = Some (XmlLoader.c_order_date_time c))
               /\ Py.strip (XmlLoader.c_order_id c) = XmlLoader.c_order_id c
               /\ Py.strip (XmlLoader.c_sku_id c) = XmlLoader.c_sku_id c
               /\ Validators.normalize_mobile_number
                    (Py.PStr (XmlLoader.c_mobile_number c))
                  = Some (XmlLoader.c_mobile_number c))
            (XmlLoader.clean_orders os).
Proof.
  unfold XmlLoader.clean_orders. split; [|split].
  - eapply Nat.le_trans; [apply unique_orders_length|].
    induction os as [|o os IH]; simpl; [lia|].
    rewrite length_app. destruct (XmlLoader.clean_one o); simpl; lia.
  - apply (unique_orders_keys _ []).
  - apply Forall_forall. intros c Hc. apply unique_orders_in in Hc.
    apply in_flat_map in Hc. destruct Hc as (o & Ho & Hc).
    destruct (XmlLoader.clean_one o) as [c'|] eqn:E; [|contradiction].
    destruct Hc as [<- | []].
    unfold XmlLoader.clean_one in E.
    destruct (Validators.normalize_mobile_number (XmlLoader.mobile_number o))
      as [m|] eqn:Em; [|discriminate].
    destruct (Validators.validate_datetime (XmlLoader.order_date_time o) None)
      as [t|] eqn:Et; [|discriminate].
    destruct (XmlLoader.sku_id o) as [| | |sku] eqn:Es; try discriminate.
    destruct (int_of (XmlLoader.sku_count o)) as [n|] eqn:En; [|discriminate].
    destruct (float_of (XmlLoader.total_amount o)) as [x|] eqn:Ex; [|discriminate].
    injection E as <-. simpl.
    split; [|split; [|split]].
    + exists o. split; [exact Ho|]. split; [|exact Et].
      unfold XmlLoader.clean_one. now rewrite Em, Et, Es, En, Ex.
    + apply ValidatorExtras.strip_idem.
    + apply ValidatorExtras.strip_idem.
    + eapply ValidatorExtras.normalize_mobile_number_again; eauto.
Qed.

Lemma xml_load_append `{Numeric} (cs : list XmlLoader.cleaned) (mode : string)
      (d : Db.Database) :
  (mode =? "replace")%string = false ->
  let data := map XmlLoader.to_tuple cs in
  let out := XmlLoader.load_to_database cs mode d in
  Db.fault (snd out) = Db.fault d
  /\ fst out = match Db.fault d (Db.Write (Db.InsertOrders data)) with
               | None => true
               | Some _ => false
               end
  /\ Db.orders (snd out)
     = if fst out
       then upsert_all Order.order_id merge_order data (Db.orders d)
       else Db.orders d.
Proof.
  intros M data out. subst out. unfold XmlLoader.load_to_database. rewrite M.
  unfold Db.execute_many_orders, Db.execute_command. fold data.
  destruct (Db.fault d _); simpl; [auto|].
  now rewrite insert_orders_eq.
Qed.

(** The customers table after a run of [process_csv] that reports
    success. *)
Lemma process_csv_append_table (fs : CsvLoader.files) (file_path : option string)
      (mode : string) (d : Db.Database) (df : CsvLoader.frame) :
  (mode =? "replace")%string = false ->
  fs (match file_path with Some p => p | None => CsvLoader.CUSTOMERS_CSV end)
  = Some df ->
  success (fst (CsvLoader.process_csv fs file_path mode d)) = true ->
  Db.customers (snd (CsvLoader.process_csv fs file_path mode d))
  = upsert_all Customer.customer_id merge_customer
               (map CsvLoader.to_tuple (CsvLoader.clean_dataframe df))
               (Db.customers d).
Proof.
  intros M L. unfold CsvLoader.process_csv, CsvLoader.load_csv. rewrite L.
  destruct (CsvLoader.validate_dataframe df) as [e|[[|] errs]];
    [discriminate | | discriminate].
  destruct (csv_load_append (CsvLoader.clean_dataframe df) mode d M) as (_ & _ & T).
  destruct (CsvLoader.load_to_database _ mode d) as [[|] d']; [|discriminate].
  intros _. exact T.
Qed.

Lemma process_xml_append_table `{Numeric} (fs : XmlLoader.files)
      (file_path : option string) (mode : string) (d : Db.Database)
      (os : list XmlLoader.order) :
  (mode =? "replace")%string = false ->
  fs (match file_path with Some p => p | None => XmlLoader.ORDERS_XML end)
  = Some os ->
  success (fst (XmlLoader.process_xml fs file_path mode d)) = true ->
  Db.orders (snd (XmlLoader.process_xml fs file_path mode d))
  = upsert_all Order.order_id merge_order
               (map XmlLoader.to_tuple (XmlLoader.clean_orders os))
               (Db.orders d).
Proof.
  intros M L. unfold XmlLoader.process_xml, XmlLoader.load_xml. rewrite L.
  destruct (XmlLoader.validate_orders os) as [[|] errs]; [|discriminate].
  destruct (xml_load_append (XmlLoader.clean_orders os) mode d M) as (_ & _ & T).
  destruct (XmlLoader.load_to_database _ mode d) as [[|] d']; [|discriminate].
  intros _. exact T.
Qed.

(** X9: loading the customers file in a mode other than "replace" is an
    upsert by customer_id.  After a run that reports success, every cleaned
    row of the file is found under its key with the name and the region
    of the file; its mobile_number is the one of the file for a new
    customer and the one already stored for a known customer, which the
    statement does not update.  Rows under other keys are as before, the
    keys that were there keep their places, and keys that were distinct
    stay distinct. *)
Theorem process_csv_append_upserts (fs : CsvLoader.files)
        (file_path : option string) (mode : string) (d : Db.Database)
        (df : CsvLoader.frame) :
  (mode =? "replace")%string = false ->
  fs (match file_path with Some p => p | None => CsvLoader.CUSTOMERS_CSV end)
  = Some df ->
  success (fst (CsvLoader.process_csv fs file_path mode d)) = true ->
  let data := map CsvLoader.to_tuple (CsvLoader.clean_dataframe df) in
  let old := Db.customers d in
  let new := Db.customers (snd (CsvLoader.process_csv fs file_path mode d)) in
  let row := lookup Customer.customer_id in
  (forall r, In r data ->
     exists x, row (Customer.customer_id r) new = Some x
               /\ Customer.customer_name x = Customer.customer_name r
               /\ Customer.region x = Customer.region r
               /\ Customer.mobile_number x
                  = match row (Customer.customer_id r) old with
                    | Some o => Customer.mobile_number o
                    | None => Customer.mobile_number r
                    end)
  /\ (forall k, ~ In k (map Customer.customer_id data) -> row k new = row k old)
  /\ (exists added,
        map Customer.customer_id new
        = (map Customer.customer_id old ++ added)%list)
  /\ (NoDup (map Customer.customer_id old) ->
      NoDup (map Customer.customer_id new)).
Proof.
  intros M L S data old new row. subst new.
  rewrite (process_csv_append_table fs file_path mode d df M L S).
  fold data old. split; [|split; [|split]].
  - intros r Hr. eexists. split.
    + apply (lookup_upsert_all _ _ merge_customer_id);
        [apply StoreFacts.clean_dataframe_keys | exact Hr].
    + unfold row. destruct (lookup _ _ old); simpl; auto.
  - intros k Hk. apply (lookup_upsert_all_other _ _ merge_customer_id), Hk.
  - apply (upsert_all_prefix _ _ merge_customer_id).
  - apply (upsert_all_keeps_keys_distinct _ _ merge_customer_id).
Qed.

Lemma process_csv_append_upserts_witness :
  let out := CsvLoader.process_csv (fun _ => Some Samples.customers_file) None
                                   "append" Examples.db0 in
  success (fst out) = true
  /\ Db.customers (snd out)
     = [Customer.make "C009" (Some "Zoe Quinn") (Some "9000000001") (Some "East");
        Customer.make "C010" (Some "Yann") (Some "9222222222") (Some "North")]
  /\ (NoDup (map Customer.customer_id (Db.customers Examples.db0)) ->
      NoDup (map Customer.customer_id (Db.customers (snd out)))).
Proof.
  split; [reflexivity|]. split; [reflexivity|].
  apply (process_csv_append_upserts (fun _ => Some Samples.customers_file) None
           "append" Examples.db0 Samples.customers_file);
    reflexivity.
Defined.

(** X10: the same for the orders file: in a mode other than "replace" an
    order already stored keeps its mobile_number, date and sku_id, and
    takes sku_count and total_amount from the file; a new order is stored
    as the file gives it. *)
Theorem process_xml_append_upserts `{Numeric} (fs : XmlLoader.files)
        (file_path : option string) (mode : string) (d : Db.Database)
        (os : list XmlLoader.order) :
  (mode =? "replace")%string = false ->
  fs (match file_path with Some p => p | None => XmlLoader.ORDERS_XML end)
  = Some os ->
  success (fst (XmlLoader.process_xml fs file_path mode d)) = true ->
  let data := map XmlLoader.to_tuple (XmlLoader.clean_orders os) in
  let old := Db.orders d in
  let new := Db.orders (snd (XmlLoader.process_xml fs file_path mode d)) in
  let row := lookup Order.order_id in
  (forall r, In r data ->
     exists x, row (Order.order_id r) new = Some x
               /\ Order.sku_count x = Order.sku_count r
               /\ Order.total_amount x = Order.total_amount r
               /\ (Order.mobile_number x, Order.order_date_time x, Order.sku_id x)
                  = match row (Order.order_id r) old with
                    | Some o => (Order.mobile_number o, Order.order_date_time o,
                                 Order.sku_id o)
                    | None => (Order.mobile_number r, Order.order_date_time r,
                               Order.sku_id r)
                    end)
  /\ (forall k, ~ In k (map Order.order_id data) -> row k new = row k old)
  /\ (exists added,
        map Order.order_id new = (map Order.order_id old ++ added)%list)
  /\ (NoDup (map Order.order_id old) -> NoDup (map Order.order_id new)).
Proof.
  intros M L S data old new row. subst new.
  rewrite (process_xml_append_table fs file_path mode d os M L S).
  fold data old. split; [|split; [|split]].
  - intros r Hr. eexists. split.
    + apply (lookup_upsert_all _ _ merge_order_id);
        [apply clean_orders_keys | exact Hr].
    + unfold row. destruct (lookup _ _ old); simpl; auto.
  - intros k Hk. apply (lookup_upsert_all_other _ _ merge_order_id), Hk.
  - apply (upsert_all_prefix _ _ merge_order_id).
  - apply (upsert_all_keeps_keys_distinct _ _ merge_order_id).
Qed.

Lemma process_xml_append_upserts_witness :
  let out := @XmlLoader.process_xml PlainNumbers.numeric
               (fun _ => Some Samples.orders_file) None "append"
               Examples.db_south in
  success (fst out) = true
  /\ lookup Order.order_id "O1" (Db.orders (snd out))
     = Some (Order.make "O1" (Some "9876543210")
                        (Some (Datetime.mkDatetime 2024 3 1 9 0 0))
                        (Some "SKU1") (Some 5) (Some 30000))
  /\ (NoDup (map Order.order_id (Db.orders Examples.db_south)) ->
      NoDup (map Order.order_id (Db.orders (snd out)))).
Proof.
  split; [reflexivity|]. split; [reflexivity|].
  apply (@process_xml_append_upserts PlainNumbers.numeric
           (fun _ => Some Samples.orders_file) None "append"
           Examples.db_south Samples.orders_file);
    reflexivity.
Defined.

(** X11: running [process_csv] a second time on the same file, in a mode
    other than "replace", gives the same result and leaves the customers
    table as the first run left it. *)
Theorem process_csv_append_twice (fs : CsvLoader.files)
        (file_path : option string) (mode : string) (d : Db.Database) :
  (mode =? "replace")%string = false ->
  let run := CsvLoader.process_csv fs file_path mode in
  fst (run (snd (run d))) = fst (run d)
  /\ Db.customers (snd (run (snd (run d)))) = Db.customers (snd (run d)).
Proof.
  intros M run. subst run. unfold CsvLoader.process_csv, CsvLoader.load_csv.
  destruct (fs _) as [df|]; [|auto].
  destruct (CsvLoader.validate_dataframe df) as [e|[[|] errs]]; [auto | | auto].
  set (rs := CsvLoader.clean_dataframe df).
  destruct (csv_load_append rs mode d M) as (F1 & R1 & T1).
  destruct (CsvLoader.load_to_database rs mode d) as [ok1 d1] eqn:E1.
  simpl in F1, R1, T1.
  destruct (csv_load_append rs mode d1 M) as (F2 & R2 & T2).
  rewrite F1 in R2. rewrite <- R1 in R2.
  assert (E : Db.customers (snd (CsvLoader.load_to_database rs mode d1))
              = Db.customers d1).
  { rewrite T2, R2. destruct ok1; [|reflexivity]. rewrite T1.
    apply (upsert_all_twice _ _ merge_customer_id merge_customer_again
                            merge_customer_self).
    apply StoreFacts.clean_dataframe_keys. }
  destruct ok1; simpl;
    destruct (CsvLoader.load_to_database rs mode d1) as [ok2 d2];
    simpl in *; subst ok2; simpl; auto.
Qed.

Lemma process_csv_append_twice_witness :
  let run := CsvLoader.process_csv (fun _ => Some Samples.customers_file) None
                                   "append" in
  fst (run (snd (run Examples.db0))) = fst (run Examples.db0)
  /\ Db.customers (snd (run (snd (run Examples.db0))))
     = Db.customers (snd (run Examples.db0)).
Proof.
  apply (process_csv_append_twice (fun _ => Some Samples.customers_file) None
           "append" Examples.db0).
  reflexivity.
Defined.

(** X12: the same for [process_xml] and the orders table. *)
Theorem process_xml_append_twice `{Numeric} (fs : XmlLoader.files)
        (file_path : option string) (mode : string) (d : Db.Database) :
  (mode =? "replace")%string = false ->
  let run := XmlLoader.process_xml fs file_path mode in
  fst (run (snd (run d))) = fst (run d)
  /\ Db.orders (snd (run (snd (run d)))) = Db.orders (snd (run d)).
Proof.
  intros M run. subst run. unfold XmlLoader.process_xml, XmlLoader.load_xml.
  destruct (fs _) as [os|]; [|auto].
  destruct (XmlLoader.validate_orders os) as [[|] errs]; [|auto].
  set (cs := XmlLoader.clean_orders os).
  destruct (xml_load_append cs mode d M) as (F1 & R1 & T1).
  destruct (XmlLoader.load_to_database cs mode d) as [ok1 d1] eqn:E1.
  simpl in F1, R1, T1.
  destruct (xml_load_append cs mode d1 M) as (F2 & R2 & T2).
  rewrite F1 in R2. rewrite <- R1 in R2.
  assert (E : Db.orders (snd (XmlLoader.load_to_database cs mode d1))
              = Db.orders d1).
  { rewrite T2, R2. destruct ok1; [|reflexivity]. rewrite T1.
    apply (upsert_all_twice _ _ merge_order_id merge_order_again
                            merge_order_self).
    apply clean_orders_keys. }
  destruct ok1; simpl;
    destruct (XmlLoader.load_to_database cs mode d1) as [ok2 d2];
    simpl in *; subst ok2; simpl; auto.
Qed.

Lemma process_xml_append_twice_witness :
  let run := @XmlLoader.process_xml PlainNumbers.numeric
               (fun _ => Some Samples.orders_file) None "append" in
  fst (run (snd (run Examples.db_south))) = fst (run Examples.db_south)
  /\ Db.orders (snd (run (snd (run Examples.db_south))))
     = Db.orders (snd (run Examples.db_south)).
Proof.
  apply (@process_xml_append_twice PlainNumbers.numeric
           (fun _ => Some Samples.orders_file) None "append" Examples.db_south).
  reflexivity.
Defined.

End AppendExtras.

(** * Further properties of the table-based engine *)

Module TableExtras.
Import Value BaseKpi TableKpis TableFacts.

(** The statements a run over [items] sends, in order. *)
Definition queries (kw : Kwargs.t) (items : TableBasedKPIEngine)
  : list Db.statement :=
  map (fun item => Db.Read (query_of kw (fst (snd item)))) items.

(** The keys of an engine with the class of the object under each. *)
Definition classes (self : TableBasedKPIEngine) : list (string * kind) :=
  map (fun item => (fst item, fst (snd item))) self.

Lemma calculate_loop_store (items : TableBasedKPIEngine) (kw : Kwargs.t)
      (d : Db.Database) (results : dict) :
  let out := calculate_loop items kw d results in
  snd out = Db.mkDatabase (Db.customers d) (Db.orders d) (Db.now d) (Db.fault d)
                          (Db.journal d ++ queries kw items)
  /\ classes (snd (fst out)) = classes items.
Proof.
  revert d results. induction items as [|[key [k o]] items IH]; intros d results.
  - simpl. rewrite app_nil_r. destruct d; split; reflexivity.
  - simpl. pose proof (calculate_sent k o kw d) as Hs.
    destruct (calculate k o kw d) as [[result o'] d1]. simpl in Hs. subst d1.
    specialize (IH (Db.sent (Db.Read (query_of kw k)) d)
                   (set key (VDict result) results)).
    destruct (calculate_loop items kw _ _) as [[results' rest'] d2].
    simpl in *. destruct IH as [-> C]. rewrite <- app_assoc. simpl.
    split; [reflexivity | now rewrite C].
Qed.

(** X13: the table-based engine only reads.  A run of [calculate_all_kpis]
    leaves both tables as they were and sends one query per KPI, in the
    order of the registry and whether or not a query fails: for the engine
    as constructed, the four queries of the KPIs, the last with the
    [days] and [limit] of the call or their defaults 30 and 10.  The keys
    of the engine and the classes of its objects are unchanged. *)
Theorem calculate_all_kpis_only_reads (self : TableBasedKPIEngine)
        (kw : Kwargs.t) (d : Db.Database) :
  let out := calculate_all_kpis self kw d in
  Db.customers (snd out) = Db.customers d
  /\ Db.orders (snd out) = Db.orders d
  /\ Db.journal (snd out) = (Db.journal d ++ queries kw self)%list
  /\ classes (snd (fst out)) = classes self
  /\ queries kw engine_init
     = [Db.Read Db.RepeatCustomers; Db.Read Db.MonthlyTrends;
        Db.Read Db.RegionalRevenue;
        Db.Read (Db.TopCustomers
                   (match Kwargs.days kw with Some n => n | None => 30 end)
                   (match Kwargs.limit kw with Some n => n | None => 10 end))].
Proof.
  intros out. subst out. unfold calculate_all_kpis.
  destruct (calculate_loop_store self kw d []) as [E C]. rewrite E. simpl.
  repeat split; assumption.
Qed.

Lemma lookup_store (key : string) (k : kind) (o o' : BaseKPI)
      (self : TableBasedKPIEngine) :
  lookup key self = Some (k, o) ->
  lookup key (store key o' self) = Some (k, o')
  /\ (forall other, other <> key ->
        lookup other (store key o' self) = lookup other self)
  /\ classes (store key o' self) = classes self.
Proof.
  induction self as [|[k0 [c0 o0]] self IH]; simpl; [discriminate|].
  destruct (String.eqb_spec k0 key) as [E|E].
  - intros [= -> ->]. simpl. subst k0. rewrite String.eqb_refl.
    split; [reflexivity|]. split; [|reflexivity].
    intros other Ho. destruct (String.eqb_spec key other); [congruence | reflexivity].
  - intros L. destruct (IH L) as (A & B & C). simpl.
    destruct (String.eqb_spec k0 key); [contradiction|].
    split; [exact A|]. split; [|now rewrite C].
    intros other Ho. destruct (k0 =? other)%string; [reflexivity | now apply B].
Qed.

(** X14: what a KPI object remembers.  When the query succeeds, the
    object under the key holds the envelope just returned as its
    [last_result] and the instant of the store as [last_calculated];
    when the query fails, the object is as it was, so [get_result] still
    gives the result of the last successful calculation.  Name and
    description never change, and the objects under the other keys are
    not touched. *)
Theorem calculate_kpi_remembers (self : TableBasedKPIEngine) (key : string)
        (k : kind) (o : BaseKPI) (kw : Kwargs.t) (d : Db.Database) :
  lookup key self = Some (k, o) ->
  let out := calculate_kpi self key kw d in
  exists o',
    lookup key (snd (fst out)) = Some (k, o')
    /\ name o' = name o /\ description o' = description o
    /\ (Db.fault d (Db.Read (query_of kw k)) = None ->
        get_result o' = Some (fst (fst out))
        /\ last_calculated o' = Some (Db.now d))
    /\ (Db.fault d (Db.Read (query_of kw k)) <> None -> o' = o)
    /\ (forall other, other <> key ->
          lookup other (snd (fst out)) = lookup other self)
    /\ snd out = Db.sent (Db.Read (query_of kw k)) d.
Proof.
  intros L out. subst out. unfold calculate_kpi. rewrite L.
  pose proof (calculate_sent k o kw d) as Hs.
  assert (O : let c := calculate k o kw d in
              name (snd (fst c)) = name o
              /\ description (snd (fst c)) = description o
              /\ (Db.fault d (Db.Read (query_of kw k)) = None ->
                  get_result (snd (fst c)) = Some (fst (fst c))
                  /\ last_calculated (snd (fst c)) = Some (Db.now d))
              /\ (Db.fault d (Db.Read (query_of kw k)) <> None ->
                  snd (fst c) = o)).
  { destruct k; simpl; unfold calculate_repeat_customers,
      calculate_monthly_trends, calculate_regional_revenue,
      calculate_top_customers, finish, Db.execute_query;
      match goal with |- context [Db.fault d ?s] => destruct (Db.fault d s) end;
      simpl; repeat split; try reflexivity; try congruence;
      intros E; discriminate E. }
  destruct (calculate k o kw d) as [[result o'] d']. simpl in *.
  destruct (lookup_store key k o o' self L) as (A & B & _).
  destruct O as (N & D & S & F).
  exists o'. repeat split; auto; apply S; assumption.
Qed.

Lemma calculate_kpi_remembers_witness :
  let out := calculate_kpi engine_init "monthly_trends" Kwargs.none
                           Examples.db_south in
  exists o',
    lookup "monthly_trends" (snd (fst out)) = Some (MonthlyOrderTrendsKPI, o')
    /\ name o' = "Monthly Order Trends"
    /\ description o' = "Orders and revenue aggregated by month"
    /\ (Db.fault Examples.db_south (Db.Read Db.MonthlyTrends) = None ->
        get_result o' = Some (fst (fst out))
        /\ last_calculated o' = Some Examples.noon)
    /\ (Db.fault Examples.db_south (Db.Read Db.MonthlyTrends) <> None ->
        o' = new MonthlyOrderTrendsKPI)
    /\ (forall other, other <> "monthly_trends" ->
          lookup other (snd (fst out)) = lookup other engine_init)
    /\ snd out = Db.sent (Db.Read Db.MonthlyTrends) Examples.db_south.
Proof.
  apply (calculate_kpi_remembers engine_init "monthly_trends"
           MonthlyOrderTrendsKPI (new MonthlyOrderTrendsKPI) Kwargs.none
           Examples.db_south).
  reflexivity.
Defined.

Lemma get_set_same (key : string) (v : value) (acc : dict) :
  get key (set key v acc) = Some v.
Proof.
  induction acc as [|[k0 v0] acc IH]; simpl; [now rewrite String.eqb_refl|].
  destruct (String.eqb_spec k0 key) as [E|E]; simpl.
  - now rewrite String.eqb_refl.
  - destruct (String.eqb_spec k0 key); [contradiction | exact IH].
Qed.

Lemma get_set_other (key other : string) (v : value) (acc : dict) :
  other <> key -> get other (set key v acc) = get other acc.
Proof.
  intros Ho. induction acc as [|[k0 v0] acc IH]; simpl.
  - destruct (String.eqb_spec key other); [congruence | reflexivity].
  - destruct (String.eqb_spec k0 key) as [E|E]; simpl.
    + subst k0. destruct (String.eqb_spec key other); [congruence | reflexivity].
    + destruct (k0 =? other)%string; [reflexivity | exact IH].
Qed.

Lemma get_gathered (kw : Kwargs.t) (d : Db.Database) (key : string)
      (items : TableBasedKPIEngine) (acc : dict) :
  ~ In key (map fst items) ->
  get key (fold_left (fun acc item =>
                        set (fst item)
                            (VDict (envelope (fst (snd item)) (snd (snd item)) kw d))
                            acc) items acc)
  = get key acc.
Proof.
  revert acc. induction items as [|[k0 [c0 o0]] items IH]; simpl; intros acc Hn;
    [reflexivity|].
  rewrite IH by tauto. apply get_set_other. intros ->. tauto.
Qed.

Lemma get_gathered_key (kw : Kwargs.t) (d : Db.Database) (key : string)
      (k : kind) (o : BaseKPI) (items : TableBasedKPIEngine) (acc : dict) :
  NoDup (map fst items) -> lookup key items = Some (k, o) ->
  get key (fold_left (fun acc item =>
                        set (fst item)
                            (VDict (envelope (fst (snd item)) (snd (snd item)) kw d))
                            acc) items acc)
  = Some (VDict (envelope k o kw d)).
Proof.
  revert acc. induction items as [|[k0 [c0 o0]] items IH]; simpl; intros acc ND L;
    [discriminate|].
  inversion ND as [|? ? Hfresh ND']; subst.
  destruct (String.eqb_spec k0 key) as [E|E].
  - injection L as -> ->. subst k0.
    rewrite get_gathered by exact Hfresh. apply get_set_same.
  - now apply IH.
Qed.

Lemma lookup_known (key : string) (self : TableBasedKPIEngine) :
  In key (map fst self) -> exists k o, lookup key self = Some (k, o).
Proof.
  induction self as [|[k0 [c0 o0]] self IH]; simpl; [tauto|].
  destruct (String.eqb_spec k0 key) as [E|E]; [eauto|].
  intros [H | H]; [contradiction | auto].
Qed.

(** X15: [calculate_all_kpis] is [calculate_kpi] key by key: under each key
    of the engine the result holds the envelope that [calculate_kpi]
    returns for that key on the same store, the queries sent in between
    changing no answer. *)
Theorem calculate_all_kpis_by_key (self : TableBasedKPIEngine) (key : string)
        (kw : Kwargs.t) (d : Db.Database) :
  NoDup (map fst self) ->
  In key (map fst self) ->
  get key (fst (fst (calculate_all_kpis self kw d)))
  = Some (VDict (fst (fst (calculate_kpi self key kw d)))).
Proof.
  intros ND Hk. unfold calculate_all_kpis.
  rewrite (calculate_loop_results self kw d d [] (same_data_refl d)).
  destruct (lookup_known key self Hk) as (k & o & L).
  rewrite (get_gathered_key kw d key k o self [] ND L).
  unfold calculate_kpi, envelope. rewrite L.
  now destruct (calculate k o kw d) as [[r o'] d'].
Qed.

Lemma calculate_all_kpis_by_key_witness :
  get "regional_revenue"
      (fst (fst (calculate_all_kpis engine_init Kwargs.none Examples.db_south)))
  = Some (VDict (fst (fst (calculate_kpi engine_init "regional_revenue"
                                         Kwargs.none Examples.db_south)))).
Proof.
  apply (calculate_all_kpis_by_key engine_init "regional_revenue" Kwargs.none
                                   Examples.db_south).
  - repeat constructor; simpl; intuition discriminate.
  - simpl. auto.
Defined.

Lemma calculate_keeps_name (k : kind) (o : BaseKPI) (kw : Kwargs.t)
      (d : Db.Database) :
  name (snd (fst (calculate k o kw d))) = name o
  /\ description (snd (fst (calculate k o kw d))) = description o.
Proof.
  destruct k; simpl; unfold calculate_repeat_customers,
    calculate_monthly_trends, calculate_regional_revenue,
    calculate_top_customers, finish, Db.execute_query;
    match goal with |- context [Db.fault d ?s] => destruct (Db.fault d s) end;
    split; reflexivity.
Qed.

Lemma get_kpi_list_loop (items : TableBasedKPIEngine) (kw : Kwargs.t)
      (d : Db.Database) (results : dict) :
  get_kpi_list (snd (fst (calculate_loop items kw d results)))
  = get_kpi_list items.
Proof.
  revert d results. induction items as [|[key [k o]] items IH]; intros d results;
    [reflexivity|].
  simpl. destruct (calculate_keeps_name k o kw d) as [N D].
  destruct (calculate k o kw d) as [[result o'] d1]. simpl in N, D.
  specialize (IH d1 (set key (VDict result) results)).
  destruct (calculate_loop items kw d1 _) as [[results' rest'] d2].
  simpl in *. now rewrite IH, N, D.
Qed.

Lemma get_kpi_list_store (key : string) (o' : BaseKPI)
      (self : TableBasedKPIEngine) :
  (forall k o, lookup key self = Some (k, o) ->
               name o' = name o /\ description o' = description o) ->
  get_kpi_list (store key o' self) = get_kpi_list self.
Proof.
  induction self as [|[k0 [c0 o0]] self IH]; simpl; intros Hn; [reflexivity|].
  destruct (String.eqb_spec k0 key) as [E|E]; simpl.
  - destruct (Hn c0 o0 eq_refl) as [-> ->]. reflexivity.
  - f_equal. apply IH. exact Hn.
Qed.

(** X26: [get_kpi_list] does not depend on what was calculated: after
    [calculate_all_kpis] and after [calculate_kpi], for any key and
    whatever the outcome, it lists the same names, keys and
    descriptions as before; for the engine as constructed, the four
    KPIs in the order of the registry. *)
Theorem get_kpi_list_is_stable (self : TableBasedKPIEngine) (key : string)
        (kw : Kwargs.t) (d : Db.Database) :
  get_kpi_list (snd (fst (calculate_all_kpis self kw d))) = get_kpi_list self
  /\ get_kpi_list (snd (fst (calculate_kpi self key kw d))) = get_kpi_list self
  /\ map (get "key") (get_kpi_list engine_init)
     = [Some (VStr "repeat_customers"); Some (VStr "monthly_trends");
        Some (VStr "regional_revenue"); Some (VStr "top_customers")].
Proof.
  split; [apply get_kpi_list_loop|]. split; [|reflexivity].
  unfold calculate_kpi. destruct (lookup key self) as [[k o]|] eqn:L;
    [|reflexivity].
  destruct (calculate_keeps_name k o kw d) as [N D].
  destruct (calculate k o kw d) as [[result o'] d']. simpl in *.
  apply get_kpi_list_store. intros k1 o1 E. rewrite L in E. injection E as <- <-. auto.
Qed.

End TableExtras.

(** * Further properties of the memory engine *)

Module MemoryExtras.
Import Value MemoryKpis MemoryFacts.

#[local] Opaque Pandas.repeat_customers Pandas.monthly_trends
  Pandas.regional_revenue Pandas.top_customers.

(** X16: the memory engine answers from its snapshot.  Once both frames
    are loaded and the orders frame has a row, none of the four
    calculations sends a statement or changes the engine, and the
    envelope is the same whatever the tables of the store hold by then:
    only the clock of the store is read, for [calculated_at] and the
    window of the last KPI.  The same holds for [calculate_all_kpis]. *)
Theorem memory_engine_answers_from_snapshot
        (self : MemoryBasedKPIEngine) (cs : list Customer.t) (o : Order.t)
        (os : list Order.t) (kw : Kwargs.t) (d d' : Db.Database) :
  customers_df self = Some cs ->
  orders_df self = Some (o :: os) ->
  Db.now d' = Db.now d ->
  calculate_repeat_customers self d
  = (fst (fst (calculate_repeat_customers self d')), self, d)
  /\ calculate_monthly_trends self d
     = (fst (fst (calculate_monthly_trends self d')), self, d)
  /\ calculate_regional_revenue self d
     = (fst (fst (calculate_regional_revenue self d')), self, d)
  /\ calculate_top_customers_last_30_days self kw d
     = (fst (fst (calculate_top_customers_last_30_days self kw d')), self, d)
  /\ calculate_all_kpis self kw d
     = (fst (fst (calculate_all_kpis self kw d')), self, d).
Proof.
  intros C O N. destruct self as [c0 o0 l0]. simpl in C, O. subst c0 o0.
  set (self := mkEngine (Some cs) (Some (o :: os)) l0).
  assert (R : forall e, calculate_repeat_customers self e
                        = (fst (fst (calculate_repeat_customers self e)), self, e)
                          /\ fst (fst (calculate_repeat_customers self e))
                             = match Pandas.repeat_customers cs (o :: os) with
                               | inr rows =>
                                   success "Repeat Customers" (map repeat_record rows)
                                     [("total_repeat_customers", VInt (Rel.count rows));
                                      ("total_orders",
                                       VInt (Rel.zsum (map RepeatRow.order_count rows)));
                                      ("total_revenue",
                                       VAmount (Pandas.agg_sum
                                                  (map RepeatRow.total_spent rows)))]
                                     (Db.now e)
                               | inl msg => failure msg
                               end).
  { intros e. unfold calculate_repeat_customers, ensure_loaded. simpl.
    destruct (Pandas.repeat_customers cs (o :: os)); split; reflexivity. }
  assert (M : forall e, calculate_monthly_trends self e
                        = (fst (fst (calculate_monthly_trends self e)), self, e)
                          /\ fst (fst (calculate_monthly_trends self e))
                             = fst (fst (calculate_monthly_trends self
                                           (Db.mkDatabase [] [] (Db.now e)
                                              (fun _ => None) [])))).
  { intros e. unfold calculate_monthly_trends, self. cbn [orders_df].
    destruct (Pandas.monthly_trends (o :: os)); split; reflexivity. }
  assert (G : forall e, calculate_regional_revenue self e
                        = (fst (fst (calculate_regional_revenue self e)), self, e)
                          /\ fst (fst (calculate_regional_revenue self e))
                             = fst (fst (calculate_regional_revenue self
                                           (Db.mkDatabase [] [] (Db.now e)
                                              (fun _ => None) [])))).
  { intros e. unfold calculate_regional_revenue, ensure_loaded. simpl.
    destruct (Pandas.regional_revenue cs (o :: os)); split; reflexivity. }
  assert (T : forall e, calculate_top_customers_last_30_days self kw e
                        = (fst (fst (calculate_top_customers_last_30_days self kw e)),
                           self, e)
                          /\ fst (fst (calculate_top_customers_last_30_days self kw e))
                             = fst (fst (calculate_top_customers_last_30_days self kw
                                           (Db.mkDatabase [] [] (Db.now e)
                                              (fun _ => None) [])))).
  { intros e. unfold calculate_top_customers_last_30_days, ensure_loaded.
    simpl.
    destruct (Pandas.top_customers _ _ _ (Some cs) (o :: os)) as [msg|[rows|]];
      split; reflexivity. }
  assert (R' : fst (fst (calculate_repeat_customers self d))
               = fst (fst (calculate_repeat_customers self d'))).
  { rewrite (proj2 (R d)), (proj2 (R d')), N. reflexivity. }
  assert (M' : fst (fst (calculate_monthly_trends self d))
               = fst (fst (calculate_monthly_trends self d'))).
  { rewrite (proj2 (M d)), (proj2 (M d')), N. reflexivity. }
  assert (G' : fst (fst (calculate_regional_revenue self d))
               = fst (fst (calculate_regional_revenue self d'))).
  { rewrite (proj2 (G d)), (proj2 (G d')), N. reflexivity. }
  assert (T' : fst (fst (calculate_top_customers_last_30_days self kw d))
               = fst (fst (calculate_top_customers_last_30_days self kw d'))).
  { rewrite (proj2 (T d)), (proj2 (T d')), N. reflexivity. }
  split; [rewrite <- R'; apply R|].
  split; [rewrite <- M'; apply M|].
  split; [rewrite <- G'; apply G|].
  split; [rewrite <- T'; apply T|].
  unfold calculate_all_kpis. simpl customers_df. simpl orders_df.
  simpl negb. cbv iota beta.
  rewrite (proj1 (R d)), (proj1 (R d')), (proj1 (M d)), (proj1 (M d')),
    (proj1 (G d)), (proj1 (G d')), (proj1 (T d)), (proj1 (T d')).
  simpl. rewrite R', M', G', T'. reflexivity.
Qed.

#[local] Transparent Pandas.repeat_customers Pandas.monthly_trends
  Pandas.regional_revenue Pandas.top_customers.

Lemma memory_engine_answers_from_snapshot_witness :
  let self := mkEngine (Some Examples.customers0) (Some Examples.orders0)
                       (Some Examples.noon) in
  calculate_repeat_customers self Examples.db_south
  = (fst (fst (calculate_repeat_customers self Examples.db0)), self,
     Examples.db_south)
  /\ calculate_monthly_trends self Examples.db_south
     = (fst (fst (calculate_monthly_trends self Examples.db0)), self,
        Examples.db_south)
  /\ calculate_regional_revenue self Examples.db_south
     = (fst (fst (calculate_regional_revenue self Examples.db0)), self,
        Examples.db_south)
  /\ calculate_top_customers_last_30_days self Kwargs.none Examples.db_south
     = (fst (fst (calculate_top_customers_last_30_days self Kwargs.none
                    Examples.db0)), self, Examples.db_south)
  /\ calculate_all_kpis self Kwargs.none Examples.db_south
     = (fst (fst (calculate_all_kpis self Kwargs.none Examples.db0)), self,
        Examples.db_south).
Proof.
  apply (memory_engine_answers_from_snapshot
           (mkEngine (Some Examples.customers0) (Some Examples.orders0)
                     (Some Examples.noon))
           Examples.customers0
           (Order.make "O1" (Some "9876543210")
                       (Some (Datetime.mkDatetime 2024 3 1 9 0 0))
                       (Some "SKU1") (Some 1) (Some 25000))
           [Order.make "O2" (Some "9876543210")
                       (Some (Datetime.mkDatetime 2024 1 9 9 0 0))
                       (Some "SKU2") (Some 2) (Some 10000)]
           Kwargs.none Examples.db_south Examples.db0);
    reflexivity.
Defined.

(** X17: when the memory engine has no snapshot and one of the two
    [SELECT *] statements of [load_data] fails, [calculate_all_kpis]
    returns the single dictionary with success=false and the error
    "Failed to load data", not a dictionary of four envelopes.  Nothing is
    written to the store; [orders_df] and [last_loaded] are as they were,
    while [customers_df] already holds the customers table when it was the
    orders statement that failed. *)
Theorem memory_load_failure_is_reported
        (self : MemoryBasedKPIEngine) (kw : Kwargs.t) (d : Db.Database) :
  customers_df self = None \/ orders_df self = None ->
  Db.fault d (Db.Read Db.SelectCustomers) <> None
  \/ Db.fault d (Db.Read Db.SelectOrders) <> None ->
  let out := calculate_all_kpis self kw d in
  fst (fst out) = [("success", VBool false); ("error", VStr "Failed to load data")]
  /\ Db.customers (snd out) = Db.customers d
  /\ Db.orders (snd out) = Db.orders d
  /\ orders_df (snd (fst out)) = orders_df self
  /\ last_loaded (snd (fst out)) = last_loaded self
  /\ customers_df (snd (fst out))
     = match Db.fault d (Db.Read Db.SelectCustomers) with
       | None => Some (Db.customers d)
       | Some _ => customers_df self
       end.
Proof.
  intros Hn Hf out. subst out. unfold calculate_all_kpis.
  destruct (customers_df self) as [c|] eqn:C;
    [destruct (orders_df self) as [o|] eqn:O|];
    try (destruct Hn; discriminate);
    rewrite load_data_eq;
    (destruct (Db.fault d (Db.Read Db.SelectCustomers)) eqn:F1;
     [|destruct (Db.fault d (Db.Read Db.SelectOrders)) eqn:F2;
       [|destruct Hf; congruence]]);
    simpl; rewrite ?C, ?O; repeat split; reflexivity.
Qed.

Definition orders_down : Db.statement -> option string :=
  fun s => match s with
           | Db.Read Db.SelectOrders => Some "Table 'orders' doesn't exist"
           | _ => None
           end.

Lemma memory_load_failure_is_reported_witness :
  let d := Db.mkDatabase Examples.customers0 Examples.orders0 Examples.noon
                         orders_down [] in
  let out := calculate_all_kpis engine_init Kwargs.none d in
  fst (fst out) = [("success", VBool false); ("error", VStr "Failed to load data")]
  /\ Db.customers (snd out) = Examples.customers0
  /\ Db.orders (snd out) = Examples.orders0
  /\ orders_df (snd (fst out)) = None
  /\ last_loaded (snd (fst out)) = None
  /\ customers_df (snd (fst out)) = Some Examples.customers0.
Proof.
  apply (memory_load_failure_is_reported engine_init Kwargs.none
           (Db.mkDatabase Examples.customers0 Examples.orders0 Examples.noon
                          orders_down [])).
  - left. reflexivity.
  - right. discriminate.
Defined.

Lemma repeat_without_orders (cs : list Customer.t)
      (l : option Datetime.datetime) (e : Db.Database) :
  calculate_repeat_customers (mkEngine (Some cs) (Some []) l) e
  = (failure "'mobile_number'", mkEngine (Some cs) (Some []) l, e).
Proof. destruct cs; reflexivity. Qed.

Lemma monthly_without_orders (cs : list Customer.t)
      (l : option Datetime.datetime) (e : Db.Database) :
  (forall q, Db.fault e (Db.Read q) = None) ->
  Db.orders e = [] ->
  calculate_monthly_trends (mkEngine (Some cs) (Some []) l) e
  = (failure "'order_date_time'",
     mkEngine (Some (Db.customers e)) (Some []) (Some (Db.now e)),
     Db.sent (Db.Read Db.SelectOrders) (Db.sent (Db.Read Db.SelectCustomers) e)).
Proof.
  intros F O. unfold calculate_monthly_trends. simpl orders_df. cbv iota.
  rewrite load_data_eq, !F, O. reflexivity.
Qed.

Lemma regional_without_orders (cs : list Customer.t)
      (l : option Datetime.datetime) (e : Db.Database) :
  calculate_regional_revenue (mkEngine (Some cs) (Some []) l) e
  = (failure "'mobile_number'", mkEngine (Some cs) (Some []) l, e).
Proof. destruct cs; reflexivity. Qed.

Lemma top_without_orders (cs : list Customer.t)
      (l : option Datetime.datetime) (kw : Kwargs.t) (e : Db.Database) :
  calculate_top_customers_last_30_days (mkEngine (Some cs) (Some []) l) kw e
  = (failure "'order_date_time'", mkEngine (Some cs) (Some []) l, e).
Proof. reflexivity. Qed.

(** X24: on a store whose orders table is empty, every calculation of
    the memory engine fails: the frame built from no rows has no columns,
    so the merge on mobile_number and the access to order_date_time raise
    [KeyError], and [calculate_all_kpis] returns four failure
    dictionaries.  The table engine, on the same store, returns four
    envelopes with success=true. *)
Theorem memory_engine_fails_without_orders (kw : Kwargs.t) (d : Db.Database) :
  (forall q, Db.fault d (Db.Read q) = None) ->
  Db.orders d = [] ->
  fst (fst (calculate_all_kpis engine_init kw d))
  = [("repeat_customers", VDict (failure "'mobile_number'"));
     ("monthly_trends", VDict (failure "'order_date_time'"));
     ("regional_revenue", VDict (failure "'mobile_number'"));
     ("top_customers", VDict (failure "'order_date_time'"))]
  /\ forall key,
       In key ["repeat_customers"; "monthly_trends"; "regional_revenue";
               "top_customers"] ->
       exists env,
         get key (fst (fst (TableKpis.calculate_all_kpis TableKpis.engine_init
                                                         kw d)))
         = Some (VDict env)
         /\ get "success" env = Some (VBool true).
Proof.
  intros F O. split.
  - unfold calculate_all_kpis. simpl customers_df. cbv iota.
    rewrite load_data_eq, !F, O. change (Pandas.dates_convert []) with true.
    cbv zeta iota. simpl negb. cbv iota beta.
    rewrite repeat_without_orders, monthly_without_orders;
      [|intros q; apply F | exact O].
    rewrite regional_without_orders, top_without_orders. reflexivity.
  - intros key Hk. unfold TableKpis.calculate_all_kpis.
    rewrite (TableFacts.calculate_loop_results TableKpis.engine_init kw d d []
               (TableFacts.same_data_refl d)).
    assert (S : forall k o,
               get "success" (TableFacts.envelope k o kw d) = Some (VBool true)).
    { intros k o. apply TableFacts.envelope_success, F. }
    destruct Hk as [<- | [<- | [<- | [<- | []]]]];
      eexists; (split; [reflexivity | apply S]).
Qed.

Lemma memory_engine_fails_without_orders_witness :
  fst (fst (calculate_all_kpis engine_init Kwargs.none Examples.db0))
  = [("repeat_customers", VDict (failure "'mobile_number'"));
     ("monthly_trends", VDict (failure "'order_date_time'"));
     ("regional_revenue", VDict (failure "'mobile_number'"));
     ("top_customers", VDict (failure "'order_date_time'"))]
  /\ forall key,
       In key ["repeat_customers"; "monthly_trends"; "regional_revenue";
               "top_customers"] ->
       exists env,
         get key (fst (fst (TableKpis.calculate_all_kpis TableKpis.engine_init
                                                         Kwargs.none Examples.db0)))
         = Some (VDict env)
         /\ get "success" env = Some (VBool true).
Proof.
  apply (memory_engine_fails_without_orders Kwargs.none Examples.db0);
    reflexivity.
Defined.

End MemoryExtras.

(** * The pipelines and the validity of the dataset *)

Module ValidExtras.
Import Py UpsertFacts PipelineResult RepeatFacts.

Definition customers_valid (tbl : list Customer.t) : Prop :=
  NoDup (map Customer.customer_id tbl)
  /\ Forall (fun c => customer_ok c = true) tbl.

Definition orders_valid (tbl : list Order.t) : Prop :=
  NoDup (map Order.order_id tbl)
  /\ Forall (fun o => order_ok o = true) tbl.

Lemma NoDup_nodupb (l : list string) : NoDup l -> nodupb l = true.
Proof.
  induction 1 as [|x l Hx ND IH]; simpl; [reflexivity|].
  rewrite IH, andb_true_r. apply negb_true_iff.
  destruct (existsb (String.eqb x) l) eqn:E; [|reflexivity].
  apply StoreFacts.existsb_eqb_In in E. contradiction.
Qed.

Lemma valid_dataset_iff (cs : list Customer.t) (os : list Order.t) :
  valid_dataset cs os = true <-> customers_valid cs /\ orders_valid os.
Proof.
  unfold valid_dataset, customers_valid, orders_valid.
  rewrite !andb_true_iff, !forallb_forall, !Forall_forall. split.
  - intros (((A & B) & C) & D). auto using nodupb_NoDup.
  - intros ((A & C) & (B & D)). auto using NoDup_nodupb.
Qed.

Section Upserts.
Context {R : Type} (id : R -> string) (merge : R -> R -> R) (ok : R -> Prop).
Hypothesis merge_ok : forall x r, ok x -> ok r -> ok (merge x r).

Lemma upsert_ok (r : R) (tbl : list R) :
  ok r -> Forall ok tbl -> Forall ok (upsert id merge r tbl).
Proof.
  intros Hr. induction 1 as [|x tbl Hx F IH]; simpl.
  - repeat constructor. exact Hr.
  - destruct (id x =? id r)%string; constructor; auto.
Qed.

Lemma upsert_all_ok (data tbl : list R) :
  Forall ok data -> Forall ok tbl -> Forall ok (upsert_all id merge data tbl).
Proof.
  intros Hd. revert tbl. induction Hd as [|r data Hr Hd IH]; simpl; intros tbl Ht;
    [exact Ht|].
  apply IH, upsert_ok; assumption.
Qed.
End Upserts.

Lemma clean_dataframe_valid (df : CsvLoader.frame) :
  customers_valid (map CsvLoader.to_tuple (CsvLoader.clean_dataframe df)).
Proof.
  split; [apply StoreFacts.clean_dataframe_keys|].
  apply Forall_forall. intros c Hc. apply in_map_iff in Hc.
  destruct Hc as (r & <- & Hr).
  destruct (LoaderExtras.clean_dataframe_rows df r Hr)
    as (_ & (m & Hm & _) & Hn & Hg).
  unfold customer_ok, CsvLoader.to_tuple. simpl. rewrite Hm. simpl.
  destruct (CsvLoader.customer_name r); try discriminate;
    destruct (CsvLoader.region r); try discriminate; reflexivity.
Qed.

Lemma clean_orders_valid `{Numeric} (os : list XmlLoader.order) :
  orders_valid (map XmlLoader.to_tuple (XmlLoader.clean_orders os)).
Proof.
  split; [apply AppendExtras.clean_orders_keys|].
  apply Forall_forall. intros o Ho. apply in_map_iff in Ho.
  destruct Ho as (c & <- & _). reflexivity.
Qed.

Lemma merge_customer_ok (x r : Customer.t) :
  customer_ok x = true -> customer_ok r = true ->
  customer_ok (merge_customer x r) = true.
Proof.
  unfold customer_ok, merge_customer. simpl.
  rewrite !andb_true_iff. tauto.
Qed.

Lemma merge_order_ok (x r : Order.t) :
  order_ok x = true -> order_ok r = true -> order_ok (merge_order x r) = true.
Proof.
  unfold order_ok, merge_order. simpl.
  rewrite !andb_true_iff. tauto.
Qed.

Lemma upserted_customers_valid (data tbl : list Customer.t) :
  customers_valid data -> customers_valid tbl ->
  customers_valid (upsert_all Customer.customer_id merge_customer data tbl).
Proof.
  intros [_ Fd] [Nt Ft]. split.
  - now apply (upsert_all_keeps_keys_distinct _ _ merge_customer_id).
  - apply upsert_all_ok; auto using merge_customer_ok.
Qed.

Lemma upserted_orders_valid (data tbl : list Order.t) :
  orders_valid data -> orders_valid tbl ->
  orders_valid (upsert_all Order.order_id merge_order data tbl).
Proof.
  intros [_ Fd] [Nt Ft]. split.
  - now apply (upsert_all_keeps_keys_distinct _ _ merge_order_id).
  - apply upsert_all_ok; auto using merge_order_ok.
Qed.

Lemma empty_customers_valid : customers_valid [].
Proof. split; constructor. Qed.

Lemma empty_orders_valid : orders_valid [].
Proof. split; constructor. Qed.

(** The customers table after [load_to_database], by mode and outcome. *)
Lemma csv_load_tables (rs : list CsvLoader.row) (mode : string) (d : Db.Database) :
  let data := map CsvLoader.to_tuple rs in
  let out := CsvLoader.load_to_database rs mode d in
  Db.orders (snd out) = Db.orders d
  /\ (Db.customers (snd out) = Db.customers d
      \/ Db.customers (snd out) = []
      \/ Db.customers (snd out)
         = upsert_all Customer.customer_id merge_customer data (Db.customers d)
      \/ Db.customers (snd out)
         = upsert_all Customer.customer_id merge_customer data [])
  /\ (fst out = true -> (mode =? "replace")%string = true ->
      Db.customers (snd out)
      = upsert_all Customer.customer_id merge_customer data []).
Proof.
  intros data out. subst out. unfold CsvLoader.load_to_database,
    Db.execute_delete_customers, Db.execute_many_customers, Db.execute_command.
  fold data. destruct (mode =? "replace")%string.
  - destruct (Db.fault d (Db.Write Db.DeleteCustomers)); simpl;
      [split; [reflexivity | split; [auto | discriminate]]|].
    destruct (Db.fault d (Db.Write (Db.InsertCustomers data))); simpl;
      [split; [reflexivity | split; [auto | discriminate]]|].
    rewrite insert_customers_eq. split; [reflexivity|]. split; auto.
  - destruct (Db.fault d (Db.Write (Db.InsertCustomers data))); simpl;
      [split; [reflexivity | split; [auto | discriminate]]|].
    rewrite insert_customers_eq. split; [reflexivity|]. split; [auto | discriminate].
Qed.

Lemma xml_load_tables `{Numeric} (cs : list XmlLoader.cleaned) (mode : string)
      (d : Db.Database) :
  let data := map XmlLoader.to_tuple cs in
  let out := XmlLoader.load_to_database cs mode d in
  Db.customers (snd out) = Db.customers d
  /\ (Db.orders (snd out) = Db.orders d
      \/ Db.orders (snd out) = []
      \/ Db.orders (snd out)
         = upsert_all Order.order_id merge_order data (Db.orders d)
      \/ Db.orders (snd out) = upsert_all Order.order_id merge_order data [])
  /\ (fst out = true -> (mode =? "replace")%string = true ->
      Db.orders (snd out) = upsert_all Order.order_id merge_order data []).
Proof.
  intros data out. subst out. unfold XmlLoader.load_to_database,
    Db.execute_delete_orders, Db.execute_many_orders, Db.execute_command.
  fold data. destruct (mode =? "replace")%string.
  - destruct (Db.fault d (Db.Write Db.DeleteOrders)); simpl;
      [split; [reflexivity | split; [auto | discriminate]]|].
    destruct (Db.fault d (Db.Write (Db.InsertOrders data))); simpl;
      [split; [reflexivity | split; [auto | discriminate]]|].
    rewrite insert_orders_eq. split; [reflexivity|]. split; auto.
  - destruct (Db.fault d (Db.Write (Db.InsertOrders data))); simpl;
      [split; [reflexivity | split; [auto | discriminate]]|].
    rewrite insert_orders_eq. split; [reflexivity|]. split; [auto | discriminate].
Qed.

Lemma process_csv_tables (fs : CsvLoader.files) (file_path : option string)
      (mode : string) (d : Db.Database) :
  let out := CsvLoader.process_csv fs file_path mode d in
  Db.orders (snd out) = Db.orders d
  /\ (customers_valid (Db.customers d) -> customers_valid (Db.customers (snd out)))
  /\ (success (fst out) = true -> (mode =? "replace")%string = true ->
      customers_valid (Db.customers (snd out))).
Proof.
  intros out. subst out. unfold CsvLoader.process_csv, CsvLoader.load_csv.
  destruct (fs _) as [df|]; [|simpl; split; [reflexivity|]; split; [auto|]; intros E; discriminate E].
  destruct (CsvLoader.validate_dataframe df) as [e|[[|] errs]];
    [simpl; split; [reflexivity|]; split; [auto|]; intros E; discriminate E
    | |simpl; split; [reflexivity|]; split; [auto|]; intros E; discriminate E].
  pose proof (clean_dataframe_valid df) as V.
  destruct (csv_load_tables (CsvLoader.clean_dataframe df) mode d) as (O & T & S).
  destruct (CsvLoader.load_to_database _ mode d) as [ok d']. simpl in O, T, S.
  assert (K : customers_valid (Db.customers d) -> customers_valid (Db.customers d')).
  { intros Vd. destruct T as [-> | [-> | [-> | ->]]];
      auto using upserted_customers_valid, empty_customers_valid. }
  destruct ok; simpl; (split; [exact O|]); (split; [exact K|]);
    [|discriminate].
  intros _ M. rewrite (S eq_refl M).
  auto using upserted_customers_valid, empty_customers_valid.
Qed.

Lemma process_xml_tables `{Numeric} (fs : XmlLoader.files)
      (file_path : option string) (mode : string) (d : Db.Database) :
  let out := XmlLoader.process_xml fs file_path mode d in
  Db.customers (snd out) = Db.customers d
  /\ (orders_valid (Db.orders d) -> orders_valid (Db.orders (snd out)))
  /\ (success (fst out) = true -> (mode =? "replace")%string = true ->
      orders_valid (Db.orders (snd out))).
Proof.
  intros out. subst out. unfold XmlLoader.process_xml, XmlLoader.load_xml.
  destruct (fs _) as [os|]; [|simpl; split; [reflexivity|]; split; [auto|]; intros E; discriminate E].
  destruct (XmlLoader.validate_orders os) as [[|] errs];
    [|simpl; split; [reflexivity|]; split; [auto|]; intros E; discriminate E].
  pose proof (clean_orders_valid os) as V.
  destruct (xml_load_tables (XmlLoader.clean_orders os) mode d) as (O & T & S).
  destruct (XmlLoader.load_to_database _ mode d) as [ok d']. simpl in O, T, S.
  assert (K : orders_valid (Db.orders d) -> orders_valid (Db.orders d')).
  { intros Vd. destruct T as [-> | [-> | [-> | ->]]];
      auto using upserted_orders_valid, empty_orders_valid. }
  destruct ok; simpl; (split; [exact O|]); (split; [exact K|]);
    [|discriminate].
  intros _ M. rewrite (S eq_refl M).
  auto using upserted_orders_valid, empty_orders_valid.
Qed.

(** X18: the pipelines keep the dataset valid.  When the keys of both
    tables are unique and no field is null, the same holds after a run of
    [process_csv] and after a run of [process_xml], for every file, in
    either mode, and whether the run succeeds, is refused by validation
    or fails at the store. *)
Theorem pipelines_keep_dataset_valid `{Numeric}
        (csv : CsvLoader.files) (xml : XmlLoader.files)
        (customers_path orders_path : option string)
        (customers_mode orders_mode : string) (d : Db.Database) :
  valid_dataset (Db.customers d) (Db.orders d) = true ->
  let d1 := snd (CsvLoader.process_csv csv customers_path customers_mode d) in
  let d2 := snd (XmlLoader.process_xml xml orders_path orders_mode d) in
  valid_dataset (Db.customers d1) (Db.orders d1) = true
  /\ valid_dataset (Db.customers d2) (Db.orders d2) = true.
Proof.
  intros V d1 d2. apply valid_dataset_iff in V. destruct V as [Vc Vo].
  destruct (process_csv_tables csv customers_path customers_mode d) as (O1 & K1 & _).
  destruct (process_xml_tables xml orders_path orders_mode d) as (C2 & K2 & _).
  split; apply valid_dataset_iff; unfold d1, d2.
  - rewrite O1. auto.
  - rewrite C2. auto.
Qed.

Lemma pipelines_keep_dataset_valid_witness :
  let d1 := snd (CsvLoader.process_csv (fun _ => Some Samples.customers_file)
                   None "append" Examples.db_south) in
  let d2 := snd (@XmlLoader.process_xml PlainNumbers.numeric
                   (fun _ => Some Samples.orders_file) None "replace"
                   Examples.db_south) in
  valid_dataset (Db.customers d1) (Db.orders d1) = true
  /\ valid_dataset (Db.customers d2) (Db.orders d2) = true.
Proof.
  apply (@pipelines_keep_dataset_valid PlainNumbers.numeric
           (fun _ => Some Samples.customers_file)
           (fun _ => Some Samples.orders_file) None None "append" "replace"
           Examples.db_south).
  reflexivity.
Defined.

(** X19: ingestion establishes the validity of the dataset.  After a run
    of [process_csv] and then a run of [process_xml], both in mode
    "replace" and both reporting success, the keys of both tables are
    unique and no field is null, whatever the store held before. *)
Theorem replace_runs_make_dataset_valid `{Numeric}
        (csv : CsvLoader.files) (xml : XmlLoader.files)
        (customers_path orders_path : option string) (d : Db.Database) :
  let run1 := CsvLoader.process_csv csv customers_path "replace" d in
  let run2 := XmlLoader.process_xml xml orders_path "replace" (snd run1) in
  success (fst run1) = true ->
  success (fst run2) = true ->
  valid_dataset (Db.customers (snd run2)) (Db.orders (snd run2)) = true.
Proof.
  intros run1 run2 S1 S2. apply valid_dataset_iff.
  destruct (process_csv_tables csv customers_path "replace" d) as (_ & _ & V1).
  destruct (process_xml_tables xml orders_path "replace" (snd run1))
    as (C2 & _ & V2).
  fold run1 in V1. fold run2 in C2, V2. split.
  - rewrite C2. apply V1; [exact S1 | reflexivity].
  - apply V2; [exact S2 | reflexivity].
Qed.

(** A store that breaks the data model: a key twice, a null name. *)
Definition db_broken : Db.Database :=
  Db.mkDatabase
    [Customer.make "C001" None (Some "9876543210") (Some "North");
     Customer.make "C001" (Some "Al") None None]
    [] Examples.noon Examples.no_fault [].

Lemma replace_runs_make_dataset_valid_witness :
  let run1 := CsvLoader.process_csv (fun _ => Some Samples.customers_file) None
                                    "replace" db_broken in
  let run2 := @XmlLoader.process_xml PlainNumbers.numeric
                (fun _ => Some Samples.orders_file) None "replace" (snd run1) in
  valid_dataset (Db.customers db_broken) (Db.orders db_broken) = false
  /\ valid_dataset (Db.customers (snd run2)) (Db.orders (snd run2)) = true.
Proof.
  split; [reflexivity|].
  apply (@replace_runs_make_dataset_valid PlainNumbers.numeric
           (fun _ => Some Samples.customers_file)
           (fun _ => Some Samples.orders_file) None None db_broken);
    reflexivity.
Defined.

End ValidExtras.

(** * Further properties of the monthly order trends *)

Module MonthlyExtras.
Import Rel RelFacts GroupFacts MonthlyFacts Value TableFacts.

(** X20: the monthly trends of the table engine account for every order
    once.  When the query succeeds, the total_orders of the envelope is
    the number of rows of the orders table and its total_revenue the sum
    of their amounts (an order without date is counted under the month
    NULL, an order without amount adds nothing); the rows come one per
    month, each with at least one order, by month ascending. *)
Theorem monthly_trends_account_for_every_order
        (o : BaseKpi.BaseKPI) (kw : Kwargs.t) (d : Db.Database) :
  Db.fault d (Db.Read Db.MonthlyTrends) = None ->
  let env := envelope TableKpis.MonthlyOrderTrendsKPI o kw d in
  let rows := Sql.monthly_trends (Db.orders d) in
  get "data" env = Some (VList (map TableKpis.monthly_record rows))
  /\ get "total_months" env = Some (VInt (count rows))
  /\ get "total_orders" env = Some (VInt (count (Db.orders d)))
  /\ get "total_revenue" env
     = Some (VAmount (zsum (somes (map Order.total_amount (Db.orders d)))))
  /\ NoDup (map MonthlyRow.month_year rows)
  /\ Forall (fun r => 1 <= MonthlyRow.total_orders r) rows
  /\ StronglySorted (fun x y => MonthlyRow.before x y = true) rows.
Proof.
  intros F env rows.
  destruct (sql_monthly_rows (Db.orders d)) as (A & B & C & D & E).
  fold rows in A, B, C, D, E.
  assert (Env : get "data" env = Some (VList (map TableKpis.monthly_record rows))
                /\ get "total_months" env = Some (VInt (count rows))
                /\ get "total_orders" env
                   = Some (VInt (zsum (map MonthlyRow.total_orders rows)))
                /\ get "total_revenue" env
                   = Some (VAmount (TableKpis.column_sum
                                      (map MonthlyRow.total_revenue rows)))).
  { unfold env, envelope. simpl. unfold TableKpis.calculate_monthly_trends,
      TableKpis.finish, Db.execute_query. rewrite F. simpl.
    repeat split; reflexivity. }
  destruct Env as (E1 & E2 & E3 & E4).
  unfold TableKpis.column_sum in E4. rewrite A in E3. rewrite B in E4.
  repeat split; assumption.
Qed.

Lemma monthly_trends_account_for_every_order_witness :
  let env := envelope TableKpis.MonthlyOrderTrendsKPI
                      (TableKpis.new TableKpis.MonthlyOrderTrendsKPI)
                      Kwargs.none Examples.db_south in
  get "total_months" env = Some (VInt 2)
  /\ get "total_orders" env = Some (VInt 2)
  /\ get "total_revenue" env = Some (VAmount 35000).
Proof.
  destruct (monthly_trends_account_for_every_order
              (TableKpis.new TableKpis.MonthlyOrderTrendsKPI) Kwargs.none
              Examples.db_south eq_refl) as (_ & A & B & C & _).
  repeat split; assumption.
Defined.








End MonthlyExtras.

(** * Further properties of the rows of the KPIs *)

Module RowExtras.
Import Rel RelFacts GroupFacts RepeatFacts RowFacts Value TableFacts.

(** X22: the repeat customers of the table engine are the customers with
    more than one order under their mobile number.  With customer ids
    unique, a row is in the result exactly when it is the row of such a
    customer: its id and name, the number of those orders and the sum of
    their amounts.  The rows come by order_count and then total_spent,
    both descending. *)
Theorem repeat_customers_are_the_customers_with_two_orders
        (cs : list Customer.t) (os : list Order.t) :
  NoDup (map Customer.customer_id cs) ->
  let rows := Sql.repeat_customers cs os in
  (forall r,
      In r rows
      <-> exists c,
            In c cs
            /\ 1 < count (filter (Sql.same_mobile c) os)
            /\ r = RepeatRow.make
                     (Customer.customer_id c) (Customer.customer_name c)
                     (count (filter (Sql.same_mobile c) os))
                     (sql_sum (map Order.total_amount
                                   (filter (Sql.same_mobile c) os))))
  /\ StronglySorted (fun x y => RepeatRow.before x y = true) rows.
Proof.
  intros ND rows. subst rows. rewrite (sql_repeat_customers_eq cs os ND).
  split; [|apply repeat_sorted].
  intros r. rewrite (sort_in RepeatRow.before), filter_In.
  unfold per_customer, having. rewrite in_flat_map. split.
  - intros ((c & Hc & Hr) & Hh). exists c. split; [exact Hc|].
    fold (matches os c). destruct (matches os c) as [|o ms] eqn:M; [contradiction|].
    destruct Hr as [<- | []]. split; [|reflexivity].
    apply Z.ltb_lt. exact Hh.
  - intros (c & Hc & Hn & ->). fold (matches os c) in *. split.
    + exists c. split; [exact Hc|].
      destruct (matches os c) as [|o ms] eqn:M; [unfold count in Hn; simpl in Hn; lia | now left].
    + apply Z.ltb_lt. exact Hn.
Qed.

Lemma repeat_customers_are_the_customers_with_two_orders_witness :
  let rows := Sql.repeat_customers Examples.customers0 Examples.orders0 in
  (forall r,
      In r rows
      <-> exists c,
            In c Examples.customers0
            /\ 1 < count (filter (Sql.same_mobile c) Examples.orders0)
            /\ r = RepeatRow.make
                     (Customer.customer_id c) (Customer.customer_name c)
                     (count (filter (Sql.same_mobile c) Examples.orders0))
                     (sql_sum (map Order.total_amount
                                   (filter (Sql.same_mobile c) Examples.orders0))))
  /\ StronglySorted (fun x y => RepeatRow.before x y = true) rows.
Proof.
  apply (repeat_customers_are_the_customers_with_two_orders
           Examples.customers0 Examples.orders0).
  repeat constructor; simpl; intuition discriminate.
Defined.



End RowExtras.
